(** * Flatpak sources of the installer payload: a shallow embedding

    The development follows
    [pyanaconda/modules/payloads/payload/flatpak/source.py]:
    reference canonicalization, dependency expansion over the image
    catalog of a source, the two size computations (static image layout
    and registry), and the blob cache, catalog loading and download of the
    static source.

    Python values are modelled as follows.  Text and bytes are [string];
    integers are [Z]; a [dict] with string keys is a [gmap string _];
    a Python list is a [list]; an operation that can raise returns a
    [res]; the methods of [FlatpakStaticSource] that touch the
    instance, the network or the file system are functions in a state
    monad over [FlatpakStaticSource.state].

    What the source takes from its environment is a parameter of the
    functions that use it: the architecture of the machine, the outcome
    of reading an image's metadata with [configparser], the downloader,
    and the decoding of the JSON documents of a layout into the fields
    the source reads.  The index, manifest and config documents are
    records of those fields. *)

From Stdlib Require Import ZArith Ascii.
From stdpp Require Import base option list gmap strings.

Local Open Scope Z_scope.

(** ** Exceptions and results *)

Inductive exn : Type :=
  | RuntimeError (msg : string)
  | KeyError (key : string)
  | ValueError
  | AssertionError
  | NoSourceError (msg : string)
  | HTTPError (status : Z)
  | JSONDecodeError
  | ParsingError            (* configparser: raised by read_string *)
  | NoOptionError.          (* configparser: raised by get *)

Inductive res (A : Type) : Type :=
  | Ok (a : A)
  | Raise (e : exn).
Arguments Ok {A} a.
Arguments Raise {A} e.

#[global] Instance res_ret : MRet res := λ A a, Ok a.
#[global] Instance res_bind : MBind res := λ A B k r,
  match r with
  | Ok a => k a
  | Raise e => Raise e
  end.

(** ** The parts of Python's [str] the source uses *)

Module Py.

(** [s.split(sep)] for a one-character separator: never empty. *)
Fixpoint split (sep : ascii) (s : string) : list string :=
  match s with
  | EmptyString => [EmptyString]
  | String c s' =>
      if Ascii.eqb c sep then EmptyString :: split sep s'
      else match split sep s' with
           | h :: t => String c h :: t
           | [] => [String c EmptyString]
           end
  end.

(** [s.split(sep, 1)]: cut at the first separator only. *)
Fixpoint split1 (sep : ascii) (s : string) : list string :=
  match s with
  | EmptyString => [EmptyString]
  | String c s' =>
      if Ascii.eqb c sep then [EmptyString; s']
      else match split1 sep s' with
           | h :: t => String c h :: t
           | [] => [String c EmptyString]
           end
  end.

(** [sep.join(parts)]. *)
Fixpoint join (sep : string) (parts : list string) : string :=
  match parts with
  | [] => EmptyString
  | [p] => p
  | p :: rest => p +:+ sep +:+ join sep rest
  end.

(** [c in s] for a character. *)
Fixpoint contains (c : ascii) (s : string) : bool :=
  match s with
  | EmptyString => false
  | String c' s' => Ascii.eqb c' c || contains c s'
  end.

(** [s.startswith(p)]. *)
Fixpoint startswith (p s : string) : bool :=
  match p, s with
  | EmptyString, _ => true
  | String a p', String b s' => Ascii.eqb a b && startswith p' s'
  | String _ _, EmptyString => false
  end.

(** [s[n:]]. *)
Fixpoint drop (n : nat) (s : string) : string :=
  match n, s with
  | O, _ => s
  | S n', String _ s' => drop n' s'
  | S _, EmptyString => EmptyString
  end.

(** [s.removeprefix(p)]. *)
Definition removeprefix (p s : string) : string :=
  if startswith p s then drop (String.length p) s else s.

(** [len(s)] as a Python integer. *)
Definition len (s : string) : Z := Z.of_nat (String.length s).

(** [s.endswith(c)] for a character. *)
Fixpoint endswith (c : ascii) (s : string) : bool :=
  match s with
  | EmptyString => false
  | String a EmptyString => Ascii.eqb a c
  | String _ s' => endswith c s'
  end.

(** [os.path.join(a, b)] on a POSIX system. *)
Definition path_join (a b : string) : string :=
  if startswith "/" b then b
  else if bool_decide (a = EmptyString) || endswith "/" a then a +:+ b
  else a +:+ "/" +:+ b.

(** ASCII white space as [str.strip], [str.isspace] and the regular
    expression class [\s] see it. *)
Definition is_space (c : ascii) : bool :=
  let n := nat_of_ascii c in
  ((9 <=? n) && (n <=? 13) || (28 <=? n) && (n <=? 32))%nat.

(** White space as C's [isspace] sees it, which is what [int] skips. *)
Definition is_c_space (c : ascii) : bool := Ascii.is_space c.

Fixpoint lstrip_with (sp : ascii → bool) (s : string) : string :=
  match s with
  | EmptyString => EmptyString
  | String c s' => if sp c then lstrip_with sp s' else s
  end.

Fixpoint rstrip_with (sp : ascii → bool) (s : string) : string :=
  match s with
  | EmptyString => EmptyString
  | String c s' =>
      match rstrip_with sp s' with
      | EmptyString => if sp c then EmptyString else String c EmptyString
      | r => String c r
      end
  end.

Definition lstrip : string → string := lstrip_with is_space.
Definition rstrip : string → string := rstrip_with is_space.
Definition strip (s : string) : string := rstrip (lstrip s).

(** [s.lower()] on ASCII text. *)
Definition lower_char (c : ascii) : ascii :=
  let n := nat_of_ascii c in
  if ((65 <=? n) && (n <=? 90))%nat then ascii_of_nat (n + 32) else c.

Fixpoint lower (s : string) : string :=
  match s with
  | EmptyString => EmptyString
  | String c s' => String (lower_char c) (lower s')
  end.

(** The digits of a decimal literal: single underscores are allowed
    between digits only.  [after_digit] tells whether the previous
    character was a digit. *)
Fixpoint digits (acc : Z) (after_digit : bool) (s : string) : option Z :=
  match s with
  | EmptyString => if after_digit then Some acc else None
  | String c s' =>
      match Ascii.is_nat c with
      | Some d => digits (10 * acc + Z.of_nat d) true s'
      | None =>
          if Ascii.eqb c "_" && after_digit then digits acc false s'
          else None
      end
  end.

(** [int(s)] for a string of ASCII text: surrounding white space, an
    optional sign, decimal digits.  [None] stands for [ValueError]. *)
Definition int (s : string) : option Z :=
  match rstrip_with is_c_space (lstrip_with is_c_space s) with
  | String "-" d => Z.opp <$> digits 0 false d
  | String "+" d => digits 0 false d
  | d => digits 0 false d
  end.

End Py.

#[global] Arguments Py.startswith : simpl never.
#[global] Arguments Py.drop : simpl never.
#[global] Arguments Py.removeprefix : simpl never.
#[global] Arguments Py.path_join : simpl never.
#[global] Arguments Py.len : simpl never.
#[global] Arguments Py.int : simpl never.
#[global] Arguments String.append : simpl never.

(** ** The part of [configparser] the source uses

    [ConfigParser(interpolation=None)], [read_string] and [get] belong to
    the Python standard library.  The functions of the source take what
    the pair [read_string(metadata); get('Application', 'Runtime')] does
    as a parameter of type [string → outcome]; [application_runtime] is a
    model of the library on ASCII text, used to run them. *)

Module ConfigParser.

Inductive outcome : Type :=
  | ParseError              (* read_string raises (a ParsingError,
                               MissingSectionHeaderError,
                               DuplicateSectionError or
                               DuplicateOptionError) *)
  | NoSection               (* get raises NoSectionError *)
  | NoOption                (* get raises NoOptionError *)
  | Value (v : string).     (* get returns v *)

(** The reader's variables in [RawConfigParser._read]. *)
Record reader : Type := Reader {
  sections : list string;
  options : gmap (string * string) (list string);
  cursect : option string;
  optname : option string;
  indent_level : nat
}.

Definition default_section : string := "DEFAULT".

(** The lines a [StringIO] yields, without their line ends. *)
Definition lines (s : string) : list string :=
  let l := Py.split "010" s in
  match reverse l with
  | EmptyString :: rest => reverse rest
  | _ => l
  end.

Fixpoint indent (line : string) : nat :=
  match line with
  | String c s' => if Py.is_space c then S (indent s') else O
  | EmptyString => O
  end.

Definition is_comment (value : string) : bool :=
  Py.startswith "#" value || Py.startswith ";" value.

(** Position of the last [c] in [s]. *)
Fixpoint rindex (c : ascii) (s : string) : option nat :=
  match s with
  | EmptyString => None
  | String a s' =>
      match rindex c s' with
      | Some i => Some (S i)
      | None => if Ascii.eqb a c then Some O else None
      end
  end.

Fixpoint take (n : nat) (s : string) : string :=
  match n, s with
  | S n', String c s' => String c (take n' s')
  | _, _ => EmptyString
  end.

(** [SECTCRE.match(value)]: the header between the opening bracket and
    the last closing bracket, which must not be empty. *)
Definition section_header (value : string) : option string :=
  match value with
  | String "[" rest =>
      match rindex "]" rest with
      | Some (S i) => Some (take (S i) rest)
      | _ => None
      end
  | _ => None
  end.

(** [_optcre.match(value)]: option name and value around the first
    [=] or [:]. *)
Fixpoint option_line (value : string) : option (string * string) :=
  match value with
  | EmptyString => None
  | String c s' =>
      if Ascii.eqb c "=" || Ascii.eqb c ":" then Some (EmptyString, s')
      else '(o, v) ← option_line s'; Some (String c o, v)
  end.

Definition append_value (r : reader) (sect opt v : string) : reader :=
  Reader (sections r)
         (alter (λ vs, vs ++ [v]) (sect, opt) (options r))
         (cursect r) (optname r) (indent_level r).

(** One iteration of the loop over the lines; [None] when the line makes
    [read_string] raise, at once or at the end of the input. *)
Definition read_line (r : reader) (line : string) : option reader :=
  let value := Py.strip line in
  if is_comment value then Some r
  else if bool_decide (value = EmptyString) then
    match cursect r, optname r with
    | Some sect, Some opt => Some (append_value r sect opt EmptyString)
    | _, _ => Some r
    end
  else
    let cur_indent_level := indent line in
    let continued :=
      match cursect r, optname r with
      | Some sect, Some opt =>
          if bool_decide (indent_level r < cur_indent_level)%nat
          then Some (sect, opt) else None
      | _, _ => None
      end in
    match continued with
    | Some (sect, opt) => Some (append_value r sect opt value)
    | None =>
        match section_header value with
        | Some sectname =>
            if bool_decide (sectname ∈ sections r) then None
            else if bool_decide (sectname = default_section) then
              Some (Reader (sections r) (options r) (Some sectname) None
                           cur_indent_level)
            else
              Some (Reader (sectname :: sections r) (options r)
                           (Some sectname) None cur_indent_level)
        | None =>
            sectname ← cursect r;
            '(o, v) ← option_line value;
            let name := Py.lower (Py.rstrip o) in
            if bool_decide (name = EmptyString) then None
            else if bool_decide (is_Some (options r !! (sectname, name)))
            then None
            else Some (Reader (sections r)
                              (<[(sectname, name) := [Py.strip v]]> (options r))
                              (Some sectname) (Some name) cur_indent_level)
        end
    end.

Fixpoint read_lines (r : reader) (ls : list string) : option reader :=
  match ls with
  | [] => Some r
  | l :: ls' => r' ← read_line r l; read_lines r' ls'
  end.

Definition read_string (s : string) : option reader :=
  read_lines (Reader [] ∅ None None O) (lines s).

(** The value of an option: its lines joined, trailing space removed. *)
Definition joined (vs : list string) : string :=
  Py.rstrip (Py.join (String "010" EmptyString) vs).

(** [get(section, option)] without fallback. *)
Definition get (r : reader) (section option : string) : outcome :=
  if bool_decide (section ∈ sections r) then
    match options r !! (section, Py.lower option) with
    | Some vs => Value (joined vs)
    | None =>
        match options r !! (default_section, Py.lower option) with
        | Some vs => Value (joined vs)
        | None => NoOption
        end
    end
  else NoSection.

Definition application_runtime (metadata : string) : outcome :=
  match read_string metadata with
  | Some r => get r "Application" "Runtime"
  | None => ParseError
  end.

End ConfigParser.

(** ** Reference canonicalization *)

Section Canonicalize.

(** [blivet.arch.get_arch()], supplied by the platform. *)
Variable get_arch : string.

(** [_canonicalize_flatpak_ref]: split off a collection ID, and add the
    architecture if unspecified. *)
Definition _canonicalize_flatpak_ref (ref : string)
  : res (option string * string) :=
  let collection_parts := Py.split1 ":" ref in
  let '(collection, ref) :=
    match collection_parts with
    | [c; r] => (Some c, r)
    | _ => (None, ref)
    end in
  let parts := Py.split "/" ref in
  if bool_decide (length parts ≠ 4%nat) then
    Raise (RuntimeError "Can't parse reference")
  else
    let parts :=
      if bool_decide (parts !! 2%nat = Some EmptyString)
      then <[2%nat := get_arch]> parts else parts in
    Ok (collection, Py.join "/" parts).

End Canonicalize.

(** ** Images *)

(** [int(labels[key])]. *)
Definition label_int (labels : gmap string string) (key : string) : res Z :=
  match labels !! key with
  | None => Raise (KeyError key)
  | Some v =>
      match Py.int v with
      | Some n => Ok n
      | None => Raise ValueError
      end
  end.

(** [SourceImage]: the abstract [labels], and [download_size], which
    [StaticSourceImage] overrides. *)
Class SourceImage (I : Type) : Type := {
  labels : I → gmap string string;
  download_size : I → res Z
}.

Section SourceImage.
Context {I : Type} `{SourceImage I}.

(** Flatpak reference for the image, or [None] if not a Flatpak. *)
Definition ref (image : I) : option string :=
  labels image !! "org.flatpak.ref".

Definition installed_size (image : I) : res Z :=
  label_int (labels image) "org.flatpak.installed-size".

(** [image.ref in refs]; a missing ref is in no list of strings. *)
Definition ref_in (image : I) (refs : list string) : bool :=
  match ref image with
  | Some r => bool_decide (r ∈ refs)
  | None => false
  end.
End SourceImage.

(** The [download_size] of the base class. *)
Definition label_download_size (labels : gmap string string) : res Z :=
  label_int labels "org.flatpak.download-size".

(** A manifest document, as far as the source reads it:
    [manifest_json["config"]["digest"]] and, for each member of
    [manifest_json["layers"]], its ["digest"] and ["size"]. *)
Record Layer : Type := { layer_digest : string; layer_size : Z }.
Record Manifest : Type := { config_digest : string; layers : list Layer }.

(** [StaticSourceImage]; [config_labels] is
    [config_json["config"]["Labels"]].  The image holds the fields of
    its documents: the embedding looks them up when the image is
    loaded, the source when it uses them.  For a document that lacks
    one of these fields the source raises [KeyError] at that use,
    where the embedding raises from [_images]; on layouts whose
    documents have the fields the two agree. *)
Record StaticSourceImage : Type := {
  digest : string;
  manifest_json : Manifest;
  config_labels : gmap string string
}.

(** [sum(int(layer["size"]) for layer in layers)]; the sizes of a
    manifest are JSON integers, which [int] returns as they are. *)
Definition layers_size (m : Manifest) : Z :=
  foldl (λ acc layer, acc + layer_size layer) 0 (layers m).

#[global] Instance static_source_image : SourceImage StaticSourceImage := {|
  labels := config_labels;
  download_size image := Ok (layers_size (manifest_json image))
|}.

Record RegistrySourceImage : Type := { _labels : gmap string string }.

#[global] Instance registry_source_image : SourceImage RegistrySourceImage := {|
  labels := _labels;
  download_size image := label_download_size (_labels image)
|}.

(** A loop [for x in xs] whose body runs in a monad. *)
Fixpoint for_each {m : Type → Type} `{!MRet m, !MBind m} {A B}
    (body : B → A → m B) (acc : B) (xs : list A) : m B :=
  match xs with
  | [] => mret acc
  | x :: xs' => acc' ← body acc x; for_each body acc' xs'
  end.

(** ** [FlatpakSource]: dependency expansion *)

Module FlatpakSource.
Section FlatpakSource.

Variable get_arch : string.
(** [cp.read_string(metadata); cp.get('Application', 'Runtime')]. *)
Variable application_runtime : string → ConfigParser.outcome.
Context {I : Type} `{SourceImage I}.

(** The first loop of [_expand_refs]. *)
Fixpoint canonicalize_refs (refs : list string) : res (list string) :=
  match refs with
  | [] => Ok []
  | r :: refs' =>
      '(_, r') ← _canonicalize_flatpak_ref get_arch r;
      rest ← canonicalize_refs refs';
      Ok (r' :: rest)
  end.

(** The body of the second loop.  [read_string] is outside the [try];
    [except (NoSectionError, KeyError)] does not catch the
    [NoOptionError] of [get]. *)
Definition expand_image (result : list string) (image : I)
  : res (list string) :=
  if negb (ref_in image result) then Ok result
  else
    match labels image !! "org.flatpak.metadata" with
    | None => Ok result
    | Some metadata =>
        match application_runtime metadata with
        | ConfigParser.ParseError => Raise ParsingError
        | ConfigParser.NoSection => Ok result
        | ConfigParser.NoOption => Raise NoOptionError
        | ConfigParser.Value runtime =>
            if bool_decide (runtime = EmptyString) then Ok result
            else
              let runtime_ref := "runtime/" +:+ runtime in
              if bool_decide (runtime_ref ∈ result) then Ok result
              else Ok (result ++ [runtime_ref])
        end
    end.

Definition expand_images (images : list I) (result : list string)
  : res (list string) :=
  for_each expand_image result images.

(** [_expand_refs], with [images] the value of [self._images]. *)
Definition _expand_refs (images : list I) (refs : list string)
  : res (list string) :=
  result ← canonicalize_refs refs;
  expand_images images result.

End FlatpakSource.
End FlatpakSource.

(** ** [FlatpakRegistrySource] *)

Module FlatpakRegistrySource.
Section FlatpakRegistrySource.

Variable get_arch : string.
Variable application_runtime : string → ConfigParser.outcome.

(** The body of the loop of [calculate_size]; the arguments of
    [log.debug] are evaluated first. *)
Definition size_image (expanded : list string) (acc : Z * Z)
    (image : RegistrySourceImage) : res (Z * Z) :=
  let '(max_download_size, installed_size_total) := acc in
  if negb (ref_in image expanded) then Ok acc
  else
    d ← download_size image;
    i ← installed_size image;
    Ok (Z.max max_download_size d, installed_size_total + i).

(** [calculate_size], with [images] the value of [self._images]. *)
Definition calculate_size (images : list RegistrySourceImage)
    (refs : list string) : res (Z * Z) :=
  expanded ← FlatpakSource._expand_refs get_arch application_runtime images refs;
  '(max_download_size, installed_size_total) ←
    for_each (size_image expanded) (0, 0) images;
  Ok (0, installed_size_total + max_download_size).

Definition download (refs : list string) (download_location : string)
  : option string := None.

End FlatpakRegistrySource.
End FlatpakRegistrySource.

(** ** [FlatpakStaticSource] *)

(** A member of the ["manifests"] list of the index document that
    [download] writes. *)
Record ManifestEntry : Type := {
  entry_mediaType : string;
  entry_digest_ : string;
  entry_size : Z
}.

(** The content of a file: bytes, or the text [json.dump] writes for the
    dict [{"schemaVersion": _, "manifests": _}] or for the dict
    [{"imageLayoutVersion": _}]. *)
Inductive file : Type :=
  | Bytes (b : string)
  | IndexJson (schemaVersion : Z) (manifests : list ManifestEntry)
  | OciLayoutJson (imageLayoutVersion : string).

(** What the downloader returns for a URL. *)
Record Response : Type := { status_code : Z; content : string }.

(** A member of [index_json["manifests"]]. *)
Record IndexEntry : Type := {
  mediaType : option string;
  entry_digest : option string
}.

Definition manifest_media_type : string :=
  "application/vnd.oci.image.manifest.v1+json".

Module FlatpakStaticSource.

(** The instance ([_url], [_cached_blobs], the cached value of
    [_images]) and what it acts on: the requests made through the
    downloader, the files and directories written, the progress
    messages reported. *)
Record state : Type := State {
  _url : string;
  _cached_blobs : gmap string string;
  _images_cache : option (list StaticSourceImage);
  requests : list string;
  files : gmap string file;
  directories : gset string;
  reported : list string
}.

Definition M (A : Type) : Type := state → state * res A.

#[global] Instance M_ret : MRet M := λ A a st, (st, Ok a).
#[global] Instance M_bind : MBind M := λ A B k c st,
  match c st with
  | (st', Ok a) => k a st'
  | (st', Raise e) => (st', Raise e)
  end.

Definition raise {A} (e : exn) : M A := λ st, (st, Raise e).
Definition lift {A} (r : res A) : M A := λ st, (st, r).
Definition get_state : M state := λ st, (st, Ok st).
Definition modify (f : state → state) : M unit := λ st, (f st, Ok tt).

(** [__init__], with [url] the value of
    [urljoin(repository_config.url + "/", relative_path)]. *)
Definition init (url : string) : state := State url ∅ None [] ∅ ∅ [].

Definition _is_local (st : state) : bool := Py.startswith "file://" (_url st).

Section FlatpakStaticSource.

Variable get_arch : string.
Variable application_runtime : string → ConfigParser.outcome.
(** The function [_downloader] yields, as a function of the URL. *)
Variable downloader : string → Response.
(** [json.loads] followed by the look-ups the source makes in the
    document; [None] when one of them raises. *)
Variable index_manifests : string → option (list IndexEntry).
Variable manifest_document : string → option Manifest.
Variable config_document : string → option (gmap string string).

Definition request (url : string) : M Response := λ st,
  (State (_url st) (_cached_blobs st) (_images_cache st)
         (requests st ++ [url]) (files st) (directories st) (reported st),
   Ok (downloader url)).

(** [response.raise_for_status()]. *)
Definition raise_for_status (response : Response) : M unit :=
  if (400 <=? status_code response) && (status_code response <? 600)
  then raise (HTTPError (status_code response))
  else mret tt.

Definition _blob_url (digest : string) : M string :=
  if negb (Py.startswith "sha256:" digest) then raise AssertionError
  else st ← get_state; mret (_url st +:+ "/blobs/sha256/" +:+ Py.drop 7 digest).

Definition store_blob (digest blob : string) : M unit :=
  modify (λ st, State (_url st) (<[digest := blob]> (_cached_blobs st))
                      (_images_cache st) (requests st) (files st)
                      (directories st) (reported st)).

Definition _get_blob (digest : string) : M string :=
  st ← get_state;
  let result := _cached_blobs st !! digest in
  match result with
  | Some (String c b) => mret (String c b)
  | _ =>
      url ← _blob_url digest;
      response ← request url;
      raise_for_status response;;
      store_blob digest (content response);;
      mret (content response)
  end.

Definition json_loads {A} (decode : string → option A) (text : string) : M A :=
  match decode text with
  | Some a => mret a
  | None => raise JSONDecodeError
  end.

Definition _get_json {A} (decode : string → option A) (digest : string) : M A :=
  blob ← _get_blob digest; json_loads decode blob.

Definition makedirs (path : string) : M unit :=
  modify (λ st, State (_url st) (_cached_blobs st) (_images_cache st)
                      (requests st) (files st) ({[path]} ∪ directories st)
                      (reported st)).

Definition write_file (path : string) (f : file) : M unit :=
  modify (λ st, State (_url st) (_cached_blobs st) (_images_cache st)
                      (requests st) (<[path := f]> (files st))
                      (directories st) (reported st)).

Definition report_progress (message : string) : M unit :=
  modify (λ st, State (_url st) (_cached_blobs st) (_images_cache st)
                      (requests st) (files st) (directories st)
                      (reported st ++ [message])).

(** [_download_blob].  Opening the file for writing empties it; the
    loop over the chunks of a streamed response writes them all, that
    is, the body. *)
Definition _download_blob (download_location digest : string) (stream : bool)
  : M Z :=
  if negb (Py.startswith "sha256:" digest) then raise AssertionError
  else
    let blobs_dir := Py.path_join download_location "blobs/sha256/" in
    makedirs blobs_dir;;
    let path := Py.path_join blobs_dir (Py.drop 7 digest) in
    write_file path (Bytes EmptyString);;
    if stream then
      url ← _blob_url digest;
      response ← request url;
      raise_for_status response;;
      write_file path (Bytes (content response));;
      mret (Py.len (content response))
    else
      blob ← _get_blob digest;
      write_file path (Bytes blob);;
      mret (Py.len blob).

(** The body of the loop of [_images].  [manifest_document] and
    [config_document] decode a document into the fields that the source
    reads from it, at load or later. *)
Definition load_image (result : list StaticSourceImage) (manifest : IndexEntry)
  : M (list StaticSourceImage) :=
  if bool_decide (mediaType manifest = Some manifest_media_type) then
    match entry_digest manifest with
    | None => raise (KeyError "digest")
    | Some digest =>
        manifest_json ← _get_json manifest_document digest;
        config_json ← _get_json config_document (config_digest manifest_json);
        mret (result ++ [Build_StaticSourceImage digest manifest_json config_json])
    end
  else mret result.

(** The body of the cached property [_images]. *)
Definition load_images : M (list StaticSourceImage) :=
  st ← get_state;
  let url := _url st +:+ "/index.json" in
  response ← request url;
  if bool_decide (status_code response = 404) then
    raise (NoSourceError ("No source found at " +:+ url))
  else
    raise_for_status response;;
    index_json ← json_loads index_manifests (content response);
    for_each load_image [] index_json.

(** [self._images]: a [cached_property] keeps the value of the first
    evaluation that returns. *)
Definition _images : M (list StaticSourceImage) :=
  st ← get_state;
  match _images_cache st with
  | Some images => mret images
  | None =>
      images ← load_images;
      modify (λ st, State (_url st) (_cached_blobs st) (Some images)
                          (requests st) (files st) (directories st)
                          (reported st));;
      mret images
  end.

(** [_expand_refs] on this source. *)
Definition _expand_refs (refs : list string) : M (list string) :=
  result ← lift (FlatpakSource.canonicalize_refs get_arch refs);
  images ← _images;
  lift (FlatpakSource.expand_images application_runtime images result).

(** The body of the loop of [calculate_size]; the arguments of
    [log.debug] are evaluated first. *)
Definition size_image (is_local : bool) (expanded : list string)
    (acc : Z * Z) (image : StaticSourceImage) : res (Z * Z) :=
  let '(download_size_total, installed_size_total) := acc in
  if negb (ref_in image expanded) then Ok acc
  else
    d ← download_size image;
    i ← installed_size image;
    Ok (download_size_total + (if is_local then 0 else d),
        installed_size_total + i).

Definition calculate_size (refs : list string) : M (Z * Z) :=
  expanded ← _expand_refs refs;
  images ← _images;
  st ← get_state;
  lift (for_each (size_image (_is_local st) expanded) (0, 0) images).

Definition index_entry (digest : string) (size : Z) : ManifestEntry :=
  {| entry_mediaType := manifest_media_type;
     entry_digest_ := digest;
     entry_size := size |}.

(** The body of the loop of [download]; [manifests] is
    [index_json["manifests"]].  The progress message is the one of the
    source before its translation by [_]. *)
Definition download_image (download_location : string) (progress : bool)
    (expanded_refs : list string) (manifests : list ManifestEntry)
    (image : StaticSourceImage) : M (list ManifestEntry) :=
  if ref_in image expanded_refs then
    (if progress
     then report_progress ("Downloading " +:+ default EmptyString (ref image))
     else mret tt);;
    manifest_len ← _download_blob download_location (digest image) false;
    _download_blob download_location (config_digest (manifest_json image)) false;;
    let manifests := manifests ++ [index_entry (digest image) manifest_len] in
    for_each (λ _ layer,
                _download_blob download_location (layer_digest layer) true;;
                mret tt)
             tt (layers (manifest_json image));;
    mret manifests
  else mret manifests.

Definition download (refs : list string) (download_location : string)
    (progress : bool) : M string :=
  st ← get_state;
  if _is_local st then mret ("oci:" +:+ Py.removeprefix "file://" (_url st))
  else
    let collection_location := Py.path_join download_location "Flatpaks" in
    expanded_refs ← _expand_refs refs;
    images ← _images;
    manifests ← for_each (download_image download_location progress expanded_refs)
                         [] images;
    makedirs collection_location;;
    write_file (Py.path_join collection_location "index.json")
               (IndexJson 2 manifests);;
    write_file (Py.path_join collection_location "oci-layout")
               (OciLayoutJson "1.0.0");;
    mret ("oci:" +:+ collection_location).

End FlatpakStaticSource.
End FlatpakStaticSource.

(** ** The container architecture and the catalog of the registry source *)

(** [_CONTAINER_ARCH_MAP]. *)
Definition _CONTAINER_ARCH_MAP : gmap string string :=
  <["x86_64" := "amd64"]> (<["aarch64" := "arm64"]> ∅).

(** [_get_container_arch]: architecture name as used by docker/podman;
    [arch] is the value of [get_arch()]. *)
Definition _get_container_arch (arch : string) : string :=
  default arch (_CONTAINER_ARCH_MAP !! arch).

(** A member of [repository["Images"]] in the index of a registry, as far
    as the source reads it. *)
Record RegistryIndexImage : Type := {
  Architecture : string;
  Labels : gmap string string
}.

Section RegistryCatalog.

Variable get_arch : string.
(** [urlparse(url).fragment] and
    [urlparse(url)._replace(fragment=None, query=None).geturl()]. *)
Variable url_fragment : string → string.
Variable url_without_fragment_and_query : string → string.
(** [session.get], as a function of the URL. *)
Variable session_get : string → Response.
(** [response.json()] and the look-ups ["Results"] and ["Images"]. *)
Variable index_results : string → option (list (list RegistryIndexImage)).

(** The URL that [FlatpakRegistrySource._images] queries. *)
Definition registry_index_url (url : string) : string :=
  let arch := _get_container_arch get_arch in
  let base_url := Py.removeprefix "oci+" url in
  let '(tag, base_url) :=
    if bool_decide (url_fragment base_url ≠ EmptyString)
    then (url_fragment base_url, url_without_fragment_and_query base_url)
    else ("latest", base_url) in
  base_url +:+ "/index/static?label:org.flatpak.ref:exists=1&architecture="
  +:+ arch +:+ "&tag=" +:+ tag.

(** The loops over the repositories and their images. *)
Definition registry_images_of (arch : string)
    (index : list (list RegistryIndexImage)) : list RegistrySourceImage :=
  foldl (λ result repository,
           foldl (λ result image,
                    if bool_decide (Architecture image ≠ arch) then result
                    else result ++ [Build_RegistrySourceImage (Labels image)])
                 result repository)
        [] index.

(** The body of the cached property [FlatpakRegistrySource._images]. *)
Definition registry_images (url : string) : res (list RegistrySourceImage) :=
  let response := session_get (registry_index_url url) in
  if (400 <=? status_code response) && (status_code response <? 600)
  then Raise (HTTPError (status_code response))
  else
    match index_results (content response) with
    | None => Raise JSONDecodeError
    | Some index => Ok (registry_images_of (_get_container_arch get_arch) index)
    end.

End RegistryCatalog.

(** ** The environment of the payloads service

    [pyanaconda/modules/payloads/__main__.py] changes [os.environ]
    before it starts the service; [system_root] is
    [conf.target.system_root]. *)

Definition payloads_environ (system_root : string) (environ : gmap string string)
  : gmap string string :=
  let environ :=
    if bool_decide (is_Some (environ !! "LD_PRELOAD"))
    then delete "LD_PRELOAD" environ else environ in
  let environ :=
    <["FLATPAK_DOWNLOAD_TMPDIR" := Py.path_join system_root "var/tmp"]> environ in
  let environ :=
    <["FLATPAK_CONFIG_DIR" := Py.path_join system_root "etc/flatpak"]> environ in
  let environ :=
    <["FLATPAK_OS_CONFIG_DIR" := Py.path_join system_root "usr/share/flatpak"]> environ in
  <["FLATPAK_SYSTEM_DIR" := Py.path_join system_root "var/lib/flatpak"]> environ.

(** * The vocabulary of the properties *)

(** Number of separators in a string. *)
Fixpoint count_sep (sep : ascii) (s : string) : nat :=
  match s with
  | EmptyString => O
  | String c s' => ((if Ascii.eqb c sep then 1 else 0) + count_sep sep s')%nat
  end.

(** The architecture segment after canonicalization. *)
Definition fill_arch (get_arch : string) (parts : list string) : list string :=
  if bool_decide (parts !! 2%nat = Some EmptyString)
  then <[2%nat := get_arch]> parts else parts.

(** Two lists of references that hold the same references. *)
Definition same_refs (l1 l2 : list string) : Prop := ∀ x, x ∈ l1 ↔ x ∈ l2.

(** Two results that raise the same exception or return related values. *)
Definition res_rel {A} (R : A → A → Prop) (r1 r2 : res A) : Prop :=
  match r1, r2 with
  | Ok a1, Ok a2 => R a1 a2
  | Raise e1, Raise e2 => e1 = e2
  | _, _ => False
  end.

(** The image's metadata declares the runtime reference [runtime_ref]. *)
Definition declares (application_runtime : string → ConfigParser.outcome)
    {I : Type} `{SourceImage I} (image : I) (runtime_ref : string) : Prop :=
  ∃ metadata runtime,
    labels image !! "org.flatpak.metadata" = Some metadata
    ∧ application_runtime metadata = ConfigParser.Value runtime
    ∧ runtime ≠ EmptyString
    ∧ runtime_ref = "runtime/" +:+ runtime.

(** The metadata the expansion tolerates: no label, or a document
    without the Application section. *)
Definition tolerated (application_runtime : string → ConfigParser.outcome)
    {I : Type} `{SourceImage I} (image : I) : Prop :=
  match labels image !! "org.flatpak.metadata" with
  | None => True
  | Some metadata => application_runtime metadata = ConfigParser.NoSection
  end.

(** The metadata label is not a document [read_string] accepts. *)
Definition unparsable (application_runtime : string → ConfigParser.outcome)
    {I : Type} `{SourceImage I} (image : I) : Prop :=
  ∃ metadata,
    labels image !! "org.flatpak.metadata" = Some metadata
    ∧ application_runtime metadata = ConfigParser.ParseError.

(** The catalog images whose ref is in the list. *)
Definition included {I : Type} `{SourceImage I} (refs : list string) (images : list I)
  : list I :=
  filter (λ image, ref_in image refs = true) images.

Definition Zsum (l : list Z) : Z := foldr Z.add 0 l.

(** The largest member of a list, 0 for the empty list. *)
Definition largest (l : list Z) : Z := foldr Z.max 0 l.

Section StaticVocabulary.
Import FlatpakStaticSource.

(** A relation between the states before and after that a computation
    maintains, however it ends. *)
Definition maintains {A} (R : state → state → Prop) (c : M A) : Prop :=
  ∀ st st' r, c st = (st', r) → R st st'.

(** The URL of a blob of the layout at [url]. *)
Definition blob_url (url digest : string) : string :=
  url +:+ "/blobs/sha256/" +:+ Py.drop 7 digest.

(** The body the downloader returns for a blob. *)
Definition remote_blob (downloader : string → Response) (url digest : string) : string :=
  content (downloader (blob_url url digest)).

(** Every cached blob is the body the downloader returns for its digest. *)
Definition cache_consistent (downloader : string → Response) (st : state) : Prop :=
  ∀ digest blob,
    _cached_blobs st !! digest = Some blob → blob = remote_blob downloader (_url st) digest.

(** What no method changes: the URL, and the consistency of the cache. *)
Definition same_source (downloader : string → Response) (st st' : state) : Prop :=
  _url st' = _url st ∧ (cache_consistent downloader st → cache_consistent downloader st').

Definition http_error (status : Z) : bool := (400 <=? status) && (status <? 600).

(** The state after a request for the blob of [digest]. *)
Definition requested (st : state) (digest : string) : state :=
  State (_url st) (_cached_blobs st) (_images_cache st)
        (requests st ++ [blob_url (_url st) digest])
        (files st) (directories st) (reported st).

(** The state after the blob of [digest] was fetched and stored. *)
Definition fetched (downloader : string → Response) (st : state) (digest : string) : state :=
  State (_url st) (<[digest := remote_blob downloader (_url st) digest]> (_cached_blobs st))
        (_images_cache st)
        (requests st ++ [blob_url (_url st) digest])
        (files st) (directories st) (reported st).

(** A digest that [_blob_url] accepts and whose blob the downloader
    returns without an error status. *)
Definition retrievable (downloader : string → Response) (url digest : string) : Prop :=
  Py.startswith "sha256:" digest = true
  ∧ http_error (status_code (downloader (blob_url url digest))) = false.

(** The blobs that [download] fetches for an image. *)
Definition blobs_of (image : StaticSourceImage) : list string :=
  digest image :: config_digest (manifest_json image)
  :: (layer_digest <$> layers (manifest_json image)).

(** The entry of an image in the index document that [download] writes. *)
Definition entry_of (downloader : string → Response) (url : string)
    (image : StaticSourceImage) : ManifestEntry :=
  {| entry_mediaType := manifest_media_type;
     entry_digest_ := digest image;
     entry_size := Py.len (remote_blob downloader url (digest image)) |}.

End StaticVocabulary.

(** The part of a reference after its collection ID. *)
Definition path_part (ref : string) : string :=
  match Py.split1 ":" ref with
  | [_; r] => r
  | _ => ref
  end.

(** The collection ID of a reference. *)
Definition collection_part (ref : string) : option string :=
  match Py.split1 ":" ref with
  | [c; _] => Some c
  | _ => None
  end.

(** The digest of an index entry that [_images] loads. *)
Definition manifest_digest (entry : IndexEntry) : option string :=
  if bool_decide (mediaType entry = Some manifest_media_type)
  then entry_digest entry else None.

(** The file [_download_blob] writes the blob of [digest] to. *)
Definition blob_path (download_location digest : string) : string :=
  Py.path_join (Py.path_join download_location "blobs/sha256/") (Py.drop 7 digest).

Section StateVocabulary.
Import FlatpakStaticSource.

(** The state only grows: the URL stays, the logs of requests and of
    progress messages are extended, no file, directory or cached blob
    goes away, and a catalog that is loaded stays. *)
Definition grows (st st' : state) : Prop :=
  _url st' = _url st
  ∧ requests st `prefix_of` requests st'
  ∧ reported st `prefix_of` reported st'
  ∧ dom (files st) ⊆ dom (files st')
  ∧ directories st ⊆ directories st'
  ∧ dom (_cached_blobs st) ⊆ dom (_cached_blobs st')
  ∧ (_images_cache st = None ∨ _images_cache st' = _images_cache st).

(** Nothing was written: the files, the directories and the progress
    messages are the same. *)
Definition quiet (st st' : state) : Prop :=
  files st' = files st
  ∧ directories st' = directories st
  ∧ reported st' = reported st.

(** The cached value of [_images] is the same. *)
Definition same_catalog (st st' : state) : Prop :=
  _images_cache st' = _images_cache st.

End StateVocabulary.

(** * Examples to run the sources on

    A catalog with an application, the runtime it depends on, and an
    SDK; unlike most runtime images, [example_platform] carries an
    Application section.  Then a remote layout that holds the catalog,
    with a downloader for it. *)

Definition newline : string := String "010" EmptyString.

Definition example_foo : StaticSourceImage := {|
  digest := "sha256:f00";
  manifest_json := {| config_digest := "sha256:f01";
                      layers := [ {| layer_digest := "sha256:f02"; layer_size := 600 |};
                                  {| layer_digest := "sha256:f03"; layer_size := 300 |} ] |};
  config_labels :=
    <["org.flatpak.ref" := "app/org.example.Foo/x86_64/stable"]>
    (<["org.flatpak.download-size" := "1000"]>
    (<["org.flatpak.installed-size" := "5000"]>
    (<["org.flatpak.metadata" :=
         "[Application]" +:+ newline +:+ "Runtime=org.example.Platform/x86_64/1.0"]> ∅)))
|}.

Definition example_platform : StaticSourceImage := {|
  digest := "sha256:a00";
  manifest_json := {| config_digest := "sha256:a01";
                      layers := [ {| layer_digest := "sha256:a02"; layer_size := 300 |} ] |};
  config_labels :=
    <["org.flatpak.ref" := "runtime/org.example.Platform/x86_64/1.0"]>
    (<["org.flatpak.installed-size" := "2000"]>
    (<["org.flatpak.metadata" :=
         "[Application]" +:+ newline +:+ "Runtime=org.example.Sdk/x86_64/1.0"]> ∅))
|}.

(** An image whose metadata is no config document. *)
Definition example_broken : StaticSourceImage := {|
  digest := "sha256:b00";
  manifest_json := {| config_digest := "sha256:b01"; layers := [] |};
  config_labels :=
    <["org.flatpak.ref" := "app/org.example.Foo/x86_64/stable"]>
    (<["org.flatpak.installed-size" := "5000"]>
    (<["org.flatpak.metadata" := "not a config document"]> ∅))
|}.

(** An image whose Application section has no Runtime key. *)
Definition example_no_runtime : StaticSourceImage := {|
  digest := "sha256:c00";
  manifest_json := {| config_digest := "sha256:c01"; layers := [] |};
  config_labels :=
    <["org.flatpak.ref" := "app/org.example.Foo/x86_64/stable"]>
    (<["org.flatpak.installed-size" := "5000"]>
    (<["org.flatpak.metadata" :=
         "[Application]" +:+ newline +:+ "name=org.example.Foo"]> ∅))
|}.

(** An image without metadata. *)
Definition example_plain : StaticSourceImage := {|
  digest := "sha256:d00";
  manifest_json := {| config_digest := "sha256:d01"; layers := [] |};
  config_labels :=
    <["org.flatpak.ref" := "app/org.example.Foo/x86_64/stable"]>
    (<["org.flatpak.installed-size" := "5000"]> ∅)
|}.

Definition foo_ref : string := "app/org.example.Foo/x86_64/stable".
Definition platform_ref : string := "runtime/org.example.Platform/x86_64/1.0".
Definition sdk_ref : string := "runtime/org.example.Sdk/x86_64/1.0".

(** The registry catalog of the examples. *)
Definition registry_foo : RegistrySourceImage :=
  {| _labels := config_labels example_foo |}.
Definition registry_platform : RegistrySourceImage :=
  {| _labels := <["org.flatpak.download-size" := "3000"]> (config_labels example_platform) |}.

Definition example_url : string := "https://example.org/repo/Flatpaks".
Definition example_local_url : string := "file:///run/install/repo/Flatpaks".

(** The documents of the layout, by path under its URL. *)
Definition example_layout : list (string * string) :=
  [ ("/index.json", "index");
    ("/blobs/sha256/f00", "manifest of Foo");
    ("/blobs/sha256/f01", "config of Foo");
    ("/blobs/sha256/f02", "first layer of Foo");
    ("/blobs/sha256/f03", "second layer of Foo");
    ("/blobs/sha256/a00", "manifest of Platform");
    ("/blobs/sha256/a01", "config of Platform");
    ("/blobs/sha256/a02", "layer of Platform") ].

Fixpoint assoc {A} (key : string) (l : list (string * A)) : option A :=
  match l with
  | [] => None
  | (k, v) :: l' => if String.eqb k key then Some v else assoc key l'
  end.

(** A downloader for the layout at [base]: 200 with the document, or 404. *)
Definition example_downloader (base url : string) : Response :=
  if Py.startswith base url then
    match assoc (Py.drop (String.length base) url) example_layout with
    | Some body => {| status_code := 200; content := body |}
    | None => {| status_code := 404; content := EmptyString |}
    end
  else {| status_code := 404; content := EmptyString |}.

Definition example_index (text : string) : option (list IndexEntry) :=
  if String.eqb text "index" then
    Some [ {| mediaType := Some manifest_media_type; entry_digest := Some "sha256:f00" |};
           {| mediaType := Some manifest_media_type; entry_digest := Some "sha256:a00" |} ]
  else None.

Definition example_manifest (text : string) : option Manifest :=
  assoc text [ ("manifest of Foo", manifest_json example_foo);
               ("manifest of Platform", manifest_json example_platform) ].

Definition example_config (text : string) : option (gmap string string) :=
  assoc text [ ("config of Foo", config_labels example_foo);
               ("config of Platform", config_labels example_platform) ].

(** A downloader that answers every request with one status and no body. *)
Definition status_downloader (status : Z) (url : string) : Response :=
  {| status_code := status; content := EmptyString |}.

(** The methods on the example layout. *)
Definition example_images (url : string) :=
  FlatpakStaticSource._images (example_downloader url) example_index
    example_manifest example_config.
Definition example_calculate_size (url : string) :=
  FlatpakStaticSource.calculate_size "x86_64" ConfigParser.application_runtime
    (example_downloader url) example_index example_manifest example_config.
Definition example_download (url : string) :=
  FlatpakStaticSource.download "x86_64" ConfigParser.application_runtime
    (example_downloader url) example_index example_manifest example_config.

(** A state that holds the manifest of Foo in its cache. *)
Definition example_cached : FlatpakStaticSource.state :=
  FlatpakStaticSource.State example_url (<["sha256:f00" := "manifest of Foo"]> ∅)
    None [] ∅ ∅ [].

(** * Properties *)

(** ** The models of the standard library on examples *)

Example cp_runtime :
  ConfigParser.application_runtime
    (String.concat (String "010" EmptyString)
       ["[Application]"; "name=org.example.Foo"; "Runtime = org.example.Platform/x86_64/1.0"; ""])
  = ConfigParser.Value "org.example.Platform/x86_64/1.0".
Proof. vm_compute. reflexivity. Qed.

Example canonicalize_doc :
  _canonicalize_flatpak_ref "x86_64"
    "org.fedoraproject.Stable:app/org.example.Foo//stable"
  = Ok (Some "org.fedoraproject.Stable", "app/org.example.Foo/x86_64/stable").
Proof. reflexivity. Qed.


(** ** Splitting and joining *)

Section Strings.
Variable sep : ascii.

Abbreviation count_sep := (count_sep sep).

Lemma split_nonempty s : ∃ h t, Py.split sep s = h :: t.
Proof.
  induction s as [|c s IH]; simpl; [by eauto|].
  destruct (Ascii.eqb c sep); [by eauto|].
  destruct IH as (h & t & ->). by eauto.
Qed.

Lemma split_length s : length (Py.split sep s) = S (count_sep s).
Proof.
  induction s as [|c s IH]; simpl; [done|].
  destruct (Ascii.eqb c sep); simpl; [by rewrite IH|].
  destruct (split_nonempty s) as (h & t & Hs).
  rewrite Hs in IH |- *. done.
Qed.

Lemma contains_count s : Py.contains sep s = false ↔ count_sep s = O.
Proof.
  induction s as [|c s IH]; simpl; [done|].
  destruct (Ascii.eqb c sep); simpl; [split; [done|lia]|done].
Qed.

Lemma split_without_sep s : Py.contains sep s = false → Py.split sep s = [s].
Proof.
  induction s as [|c s IH]; simpl; [done|].
  destruct (Ascii.eqb c sep); simpl; [done|].
  intros Hs. by rewrite IH.
Qed.

Lemma split1_without_sep s : Py.contains sep s = false → Py.split1 sep s = [s].
Proof.
  induction s as [|c s IH]; simpl; [done|].
  destruct (Ascii.eqb c sep); simpl; [done|].
  intros Hs. by rewrite IH.
Qed.

Lemma join_split s : Py.join (String sep EmptyString) (Py.split sep s) = s.
Proof.
  induction s as [|c s IH]; simpl; [done|].
  destruct (split_nonempty s) as (h & t & Hs). rewrite Hs in IH |- *.
  destruct (Ascii.eqb_spec c sep) as [->|_].
  - simpl in *. by rewrite IH.
  - destruct t; simpl in *; by rewrite <-IH.
Qed.

Lemma split_app p s :
  Py.contains sep p = false →
  Py.split sep (p +:+ String sep s) = p :: Py.split sep s.
Proof.
  induction p as [|c p IH]; simpl.
  - by rewrite Ascii.eqb_refl.
  - destruct (Ascii.eqb c sep); simpl; [done|].
    intros Hp. by rewrite IH.
Qed.

Lemma split_join parts :
  parts ≠ [] →
  Forall (λ p, Py.contains sep p = false) parts →
  Py.split sep (Py.join (String sep EmptyString) parts) = parts.
Proof.
  induction parts as [|p [|q rest] IH]; intros Hne Hall; [done|..].
  - simpl. apply split_without_sep. by inversion Hall.
  - inversion Hall as [|?? Hp Hrest]; subst.
    change (Py.join (String sep EmptyString) (p :: q :: rest))
      with (p +:+ String sep (Py.join (String sep EmptyString) (q :: rest))).
    rewrite split_app by done. by rewrite IH.
Qed.

Lemma count_sep_app s t : count_sep (s +:+ t) = (count_sep s + count_sep t)%nat.
Proof. induction s as [|c s IH]; simpl; [done|]. rewrite IH. lia. Qed.

Lemma count_sep_join parts :
  count_sep (Py.join (String sep EmptyString) parts)
  = (pred (length parts) + sum_list (count_sep <$> parts))%nat.
Proof.
  induction parts as [|p [|q rest] IH]; [done|simpl; lia|].
  change (Py.join (String sep EmptyString) (p :: q :: rest))
    with (p +:+ String sep (Py.join (String sep EmptyString) (q :: rest))).
  rewrite count_sep_app.
  change (count_sep (String sep ?x))
    with ((if Ascii.eqb sep sep then 1 else 0) + count_sep x)%nat.
  rewrite Ascii.eqb_refl, IH. simpl. lia.
Qed.

(** A joined list that splits into as many parts splits into the same. *)
Lemma split_join_same_length parts :
  parts ≠ [] →
  length (Py.split sep (Py.join (String sep EmptyString) parts)) = length parts →
  Py.split sep (Py.join (String sep EmptyString) parts) = parts.
Proof.
  intros Hne Hlen. apply split_join; [done|].
  rewrite split_length, count_sep_join in Hlen.
  assert (sum_list (count_sep <$> parts) = O) as Hsum
    by (destruct parts; simpl in *; [done|lia]).
  clear Hlen Hne. induction parts as [|p parts IH]; [done|].
  change (count_sep p + sum_list (count_sep <$> parts) = 0)%nat in Hsum.
  constructor; [|apply IH; lia].
  apply contains_count. lia.
Qed.
End Strings.

(** ** Canonicalization *)

Section CanonicalizeProperties.
Variable get_arch : string.

Abbreviation fill_arch := (fill_arch get_arch).

Lemma canonicalize_Ok ref c p :
  _canonicalize_flatpak_ref get_arch ref = Ok (c, p) →
  ∃ parts, length parts = 4%nat ∧ p = Py.join "/" (fill_arch parts).
Proof.
  unfold _canonicalize_flatpak_ref.
  destruct (match Py.split1 ":" ref with
            | [c0; r] => (Some c0, r)
            | _ => (None, ref)
            end) as [collection ref'].
  case_bool_decide as Hlen; [done|].
  intros [= _ <-]. exists (Py.split "/" ref'). split; [|done].
  destruct (decide (length (Py.split "/" ref') = 4%nat)); [done|].
  by destruct Hlen.
Qed.

Lemma canonicalize_without_collection ref :
  Py.contains ":" ref = false →
  length (Py.split "/" ref) = 4%nat →
  _canonicalize_flatpak_ref get_arch ref
  = Ok (None, Py.join "/" (fill_arch (Py.split "/" ref))).
Proof.
  intros Hcolon Hlen. unfold _canonicalize_flatpak_ref.
  rewrite (split1_without_sep ":" ref Hcolon).
  cbv beta iota zeta. rewrite bool_decide_false; [done|].
  intros Hne. by apply Hne.
Qed.

Lemma fill_arch_length parts : length (fill_arch parts) = length parts.
Proof. unfold fill_arch. case_bool_decide; [apply length_insert|done]. Qed.

Lemma fill_arch_idem parts : fill_arch (fill_arch parts) = fill_arch parts.
Proof.
  unfold fill_arch. destruct (decide (parts !! 2%nat = Some EmptyString)) as [H2|H2].
  - rewrite (bool_decide_true _ H2).
    case_bool_decide; [by rewrite list_insert_insert_eq|done].
  - by rewrite !(bool_decide_false _ H2).
Qed.

(** C6, as amended: canonicalization is idempotent on every reference
    whose canonical form is a 4-segment path without a colon; the second
    canonicalization finds no collection id. *)
Theorem canonicalize_idempotent (ref : string) (c : option string) (p : string) :
  _canonicalize_flatpak_ref get_arch ref = Ok (c, p) →
  length (Py.split "/" p) = 4%nat →
  Py.contains ":" p = false →
  _canonicalize_flatpak_ref get_arch p = Ok (None, p).
Proof.
  intros Hcanon Hsegments Hcolon.
  rewrite canonicalize_without_collection by done.
  destruct (canonicalize_Ok _ _ _ Hcanon) as (parts & Hlen & ->).
  rewrite split_join_same_length.
  - by rewrite fill_arch_idem.
  - intros Hnil. pose proof (fill_arch_length parts) as Hl.
    rewrite Hnil, Hlen in Hl. done.
  - by rewrite Hsegments, fill_arch_length.
Qed.

End CanonicalizeProperties.

(** The witness of C6: the reference of the docstring. *)
Lemma canonicalize_idempotent_witness :
  _canonicalize_flatpak_ref "x86_64" "app/org.example.Foo/x86_64/stable"
  = Ok (None, "app/org.example.Foo/x86_64/stable").
Proof.
  apply (canonicalize_idempotent "x86_64"
           "org.fedoraproject.Stable:app/org.example.Foo//stable"
           (Some "org.fedoraproject.Stable"));
    reflexivity.
Defined.

(** C6 as stated fails: a colon that remains in the canonical path is
    taken for the end of a collection id by the second canonicalization. *)
Lemma canonicalize_not_idempotent :
  let ref := "org.fedoraproject.Stable:flathub:app/org.example.Foo//stable" in
  let p := "flathub:app/org.example.Foo/x86_64/stable" in
  _canonicalize_flatpak_ref "x86_64" ref = Ok (Some "org.fedoraproject.Stable", p)
  ∧ length (Py.split "/" p) = 4%nat
  ∧ _canonicalize_flatpak_ref "x86_64" p
    = Ok (Some "flathub", "app/org.example.Foo/x86_64/stable")
  ∧ _canonicalize_flatpak_ref "x86_64" p ≠ Ok (None, p).
Proof. repeat split; done. Qed.

(** ** Dependency expansion *)

Lemma for_each_app {A B} (body : B → A → res B) (acc : B) (xs ys : list A) :
  for_each body acc (xs ++ ys) = (acc' ← for_each body acc xs; for_each body acc' ys).
Proof.
  revert acc. induction xs as [|x xs IH]; intros acc; simpl; [done|].
  destruct (body acc x) as [acc'|e]; simpl; [apply IH|done].
Qed.

Ltac expand_cases :=
  repeat first
    [ progress simplify_eq/=
    | case_bool_decide
    | match goal with
      | |- context [match ?x with _ => _ end] => destruct x eqn:?
      | H : context [match ?x with _ => _ end] |- _ => destruct x eqn:?
      end ].

Section ExpandProperties.
Variable get_arch : string.
Variable application_runtime : string → ConfigParser.outcome.
Context {I : Type} `{SourceImage I}.

Abbreviation expand_image := (FlatpakSource.expand_image application_runtime).
Abbreviation expand_images := (FlatpakSource.expand_images application_runtime).
Abbreviation canonicalize_refs := (FlatpakSource.canonicalize_refs get_arch).
Abbreviation _expand_refs := (FlatpakSource._expand_refs get_arch application_runtime).
Abbreviation declares := (declares application_runtime).
Abbreviation tolerated := (tolerated application_runtime).
Abbreviation unparsable := (unparsable application_runtime).

Lemma ref_in_mono (image : I) (l1 l2 : list string) :
  (∀ x, x ∈ l1 → x ∈ l2) → ref_in image l1 = true → ref_in image l2 = true.
Proof.
  unfold ref_in. destruct (ref image); [|done].
  intros Hsub Hin%bool_decide_eq_true. apply bool_decide_eq_true. auto.
Qed.

Lemma ref_in_same (image : I) (l1 l2 : list string) :
  same_refs l1 l2 → ref_in image l1 = ref_in image l2.
Proof.
  unfold ref_in. destruct (ref image); [|done].
  intros Hsame. apply bool_decide_ext, Hsame.
Qed.

(** One image adds at most the runtime it declares, at the end, and only
    when its ref is in the list. *)
Lemma expand_image_Ok (result result' : list string) (image : I) :
  expand_image result image = Ok result' →
  result' = result
  ∨ ∃ x, result' = result ++ [x] ∧ (x ∉ result)
         ∧ ref_in image result = true ∧ declares image x.
Proof.
  unfold FlatpakSource.expand_image, declares.
  intros Hexp. expand_cases; auto.
  right. eexists. split_and!; [done..| |by eauto 10].
  by destruct (ref_in image result).
Qed.

Lemma expand_image_declared (result result' : list string) (image : I) x :
  expand_image result image = Ok result' →
  ref_in image result = true → declares image x → x ∈ result'.
Proof.
  unfold FlatpakSource.expand_image.
  intros Hexp Hin (metadata & runtime & Hmd & Hrt & Hne & ->).
  rewrite Hin, Hmd, Hrt in Hexp. simpl in Hexp.
  rewrite bool_decide_false in Hexp by done.
  case_bool_decide; simplify_eq; [done|].
  apply elem_of_app. right. by apply list_elem_of_singleton.
Qed.

Lemma expand_images_extends (images : list I) (result result' : list string) :
  expand_images images result = Ok result' →
  ∃ added, result' = result ++ added.
Proof.
  revert result. induction images as [|image images IH]; intros result; simpl.
  - intros [= <-]. exists []. by rewrite app_nil_r.
  - unfold FlatpakSource.expand_images. simpl.
    destruct (expand_image result image) as [mid|e] eqn:Himg; simpl; [|done].
    intros (added & ->)%IH.
    destruct (expand_image_Ok _ _ _ Himg) as [->|(x & -> & _)]; [by eauto|].
    exists (x :: added). by rewrite <-app_assoc.
Qed.

Lemma expand_images_declared (images : list I) (result result' : list string)
    (image : I) x :
  expand_images images result = Ok result' →
  image ∈ images → ref_in image result = true → declares image x →
  x ∈ result'.
Proof.
  revert result. induction images as [|im images IH]; intros result Hexp Hin Href Hdecl.
  - by apply elem_of_nil in Hin.
  - unfold FlatpakSource.expand_images in Hexp. simpl in Hexp.
    destruct (expand_image result im) as [mid|e] eqn:Himg; simpl in Hexp; [|done].
    apply elem_of_cons in Hin as [<-|Hin].
    + destruct (expand_images_extends _ _ _ Hexp) as (added & ->).
      apply elem_of_app. left. by eapply expand_image_declared.
    + apply (IH mid); [done..| |done].
      eapply ref_in_mono; [|done].
      destruct (expand_image_Ok _ _ _ Himg) as [->|(y & -> & _)]; [done|].
      intros z Hz. apply elem_of_app. by left.
Qed.

(** Every reference of the expansion is in the list it started from or
    was declared by an image whose ref was in the list when the loop
    reached the image. *)
Lemma expand_images_contributor (images : list I) (result result' : list string) x :
  expand_images images result = Ok result' →
  x ∈ result' →
  x ∈ result
  ∨ ∃ before image after visited,
      images = before ++ image :: after
      ∧ expand_images before result = Ok visited
      ∧ ref_in image visited = true
      ∧ declares image x.
Proof.
  revert result result'. induction images as [|im images IH] using rev_ind;
    intros result result' Hexp Hx.
  - injection Hexp as <-. by left.
  - unfold FlatpakSource.expand_images in Hexp.
    rewrite for_each_app in Hexp.
    destruct (for_each expand_image result images) as [mid|e] eqn:Hmid;
      simpl in Hexp; [|done].
    destruct (expand_image mid im) as [final|e] eqn:Himg; simpl in Hexp; [|done].
    injection Hexp as <-.
    assert (x ∈ mid ∨ (ref_in im mid = true ∧ declares im x)) as [Hin|[Href Hdecl]].
    { destruct (expand_image_Ok _ _ _ Himg) as [->|(y & -> & _ & ? & ?)]; [by left|].
      apply elem_of_app in Hx as [?|Hx]; [by left|].
      apply list_elem_of_singleton in Hx as ->. by right. }
    + destruct (IH result mid Hmid Hin) as [?|(before & image & after & visited & -> & ? & ? & ?)];
        [by left|right].
      exists before, image, (after ++ [im]), visited.
      by rewrite <-app_assoc.
    + right. exists images, im, [], mid. done.
Qed.

(** A tolerated image is passed over. *)
Lemma expand_image_tolerated (result : list string) (image : I) :
  tolerated image → expand_image result image = Ok result.
Proof.
  unfold tolerated, FlatpakSource.expand_image.
  destruct (ref_in image result); simpl; [|done].
  destruct (labels image !! "org.flatpak.metadata"); [|done].
  by intros ->.
Qed.

Lemma expand_image_unparsable (result : list string) (image : I) :
  unparsable image → ref_in image result = true →
  expand_image result image = Raise ParsingError.
Proof.
  unfold FlatpakSource.expand_image.
  intros (metadata & Hmd & Hcp) ->. simpl. by rewrite Hmd, Hcp.
Qed.

(** Expansion sees its list of references as a set. *)
Lemma expand_image_same (r1 r2 : list string) (image : I) :
  same_refs r1 r2 →
  res_rel same_refs (expand_image r1 image) (expand_image r2 image).
Proof.
  intros Hsame. unfold FlatpakSource.expand_image.
  rewrite (ref_in_same image r1 r2 Hsame).
  destruct (ref_in image r2); simpl; [|done].
  destruct (labels image !! "org.flatpak.metadata") as [metadata|]; [|done].
  destruct (application_runtime metadata) as [| | |runtime]; try done.
  case_bool_decide; [done|].
  rewrite (bool_decide_ext _ _ (Hsame ("runtime/" +:+ runtime))).
  case_bool_decide; [done|].
  intros x. rewrite !elem_of_app. by rewrite (Hsame x).
Qed.

Lemma expand_images_same (images : list I) (r1 r2 : list string) :
  same_refs r1 r2 →
  res_rel same_refs (expand_images images r1) (expand_images images r2).
Proof.
  revert r1 r2. induction images as [|image images IH]; intros r1 r2 Hsame; [done|].
  unfold FlatpakSource.expand_images. simpl.
  pose proof (expand_image_same r1 r2 image Hsame) as Himg.
  destruct (expand_image r1 image), (expand_image r2 image); simpl in *;
    try done.
  by apply IH.
Qed.

End ExpandProperties.

Section ExpandClaims.
Variable get_arch : string.
Variable application_runtime : string → ConfigParser.outcome.
Context {I : Type} `{SourceImage I}.

Abbreviation expand_images := (FlatpakSource.expand_images application_runtime).
Abbreviation canonicalize_refs := (FlatpakSource.canonicalize_refs get_arch).
Abbreviation _expand_refs := (FlatpakSource._expand_refs get_arch application_runtime).
Abbreviation declares := (declares application_runtime).
Abbreviation tolerated := (tolerated application_runtime).
Abbreviation unparsable := (unparsable application_runtime).

Lemma canonicalize_refs_Ok (refs canon : list string) :
  canonicalize_refs refs = Ok canon →
  Forall2 (λ r p, ∃ c, _canonicalize_flatpak_ref get_arch r = Ok (c, p)) refs canon.
Proof.
  revert canon. induction refs as [|r refs IH]; intros canon; simpl.
  - intros [= <-]. constructor.
  - destruct (_canonicalize_flatpak_ref get_arch r) as [[c p]|e] eqn:Hr; simpl; [|done].
    destruct (canonicalize_refs refs) as [rest|e]; simpl; [|done].
    intros [= <-]. constructor; [by eauto|by apply IH].
Qed.

(** A reference declared by an image that the pass reaches with its
    ref in the list is in the expansion. *)
Lemma expand_images_reached (before after : list I) (image : I)
    (canon visited expanded : list string) (x : string) :
  expand_images (before ++ image :: after) canon = Ok expanded →
  expand_images before canon = Ok visited →
  ref_in image visited = true →
  declares image x →
  x ∈ expanded.
Proof.
  unfold FlatpakSource.expand_images. rewrite for_each_app.
  intros Hexp Hvisited Href Hdecl. rewrite Hvisited in Hexp. simpl in Hexp.
  destruct (FlatpakSource.expand_image application_runtime visited image)
    as [mid|e] eqn:Himage; simpl in Hexp; [|done].
  destruct (expand_images_extends _ _ _ _ Hexp) as (added & ->).
  apply elem_of_app. left. by eapply expand_image_declared.
Qed.

(** The pass over a prefix of the catalog returns when the pass over
    the catalog does. *)
Lemma expand_images_prefix (before after : list I) (canon expanded : list string) :
  expand_images (before ++ after) canon = Ok expanded →
  ∃ visited, expand_images before canon = Ok visited.
Proof.
  unfold FlatpakSource.expand_images. rewrite for_each_app.
  destruct (for_each _ canon before) as [visited|e]; [by eauto|done].
Qed.

(** C3, as amended: expansion is one pass over the catalog, in catalog
    order.  A reference is in the expanded list exactly when it is a
    canonicalized input reference, or the runtime reference declared by
    a catalog image whose ref is in the list when the pass reaches the
    image.  So a runtime image that an input image added contributes
    the runtime it declares itself when it comes later in the catalog
    than that image; and an image whose ref is no canonicalized input
    reference and is declared by no image before it in the catalog is
    passed over: the list is the same after it as before it. *)
Theorem expand_refs_single_pass (images : list I) (refs canon expanded : list string) :
  canonicalize_refs refs = Ok canon →
  _expand_refs images refs = Ok expanded →
  (∀ x, x ∈ expanded ↔
        x ∈ canon
        ∨ ∃ before image after visited,
            images = before ++ image :: after
            ∧ expand_images before canon = Ok visited
            ∧ ref_in image visited = true
            ∧ declares image x)
  ∧ (∀ before adder between image after x y,
       images = before ++ adder :: between ++ image :: after →
       ref_in adder canon = true → declares adder x →
       ref image = Some x → declares image y →
       x ∈ expanded ∧ y ∈ expanded)
  ∧ (∀ before image after r,
       images = before ++ image :: after →
       ref image = Some r →
       r ∉ canon →
       (∀ earlier, earlier ∈ before → ¬ declares earlier r) →
       expand_images (before ++ [image]) canon = expand_images before canon).
Proof.
  unfold FlatpakSource._expand_refs. intros -> Hexp. simpl in Hexp.
  split_and!.
  - intros x. split; [by eapply expand_images_contributor|].
    intros [Hx|(before & image & after & visited & -> & Hvisited & Href & Hdecl)].
    + destruct (expand_images_extends _ _ _ _ Hexp) as (added & ->).
      apply elem_of_app. by left.
    + by eapply expand_images_reached.
  - intros before adder between image after x y -> Hadder Hx Himage Hy.
    assert (x ∈ expanded) as Hin.
    { eapply expand_images_declared; [done| |done..].
      apply elem_of_app. right. by left. }
    split; [done|].
    change (before ++ adder :: between ++ image :: after)
      with (before ++ (adder :: between) ++ image :: after) in Hexp.
    rewrite app_assoc in Hexp.
    destruct (expand_images_prefix _ _ _ _ Hexp) as (visited & Hvisited).
    eapply expand_images_reached; [done..| |done].
    unfold ref_in. rewrite Himage. apply bool_decide_eq_true.
    eapply expand_images_declared; [done| |done..].
    apply elem_of_app. right. by left.
  - intros before image after r -> Hr Hcanon Hearlier.
    unfold FlatpakSource.expand_images. rewrite for_each_app.
    destruct (for_each _ canon before) as [visited|e] eqn:Hvisited; [|done].
    simpl. unfold FlatpakSource.expand_image.
    assert (ref_in image visited = false) as ->; [|done].
    unfold ref_in. rewrite Hr. apply bool_decide_eq_false. intros Hin.
    destruct (expand_images_contributor application_runtime before canon visited r
                Hvisited Hin)
      as [?|(l1 & earlier & l2 & ? & -> & _ & _ & Hdecl)]; [done|].
    apply (Hearlier earlier); [|done]. apply elem_of_app. right. by left.
Qed.

(** C4, as amended: an image without metadata label, or whose metadata
    has no Application section, has no runtime dependency and raises no
    error: the expansion is that of the catalog without the image.  An
    image whose ref is in the list and whose metadata cannot be parsed
    makes the expansion raise the error of the parser. *)
Theorem expand_refs_tolerates (before after : list I) (image : I) (refs : list string) :
  (tolerated image →
   _expand_refs (before ++ image :: after) refs = _expand_refs (before ++ after) refs)
  ∧ (unparsable image →
     ∀ canon visited,
       canonicalize_refs refs = Ok canon →
       expand_images before canon = Ok visited →
       ref_in image visited = true →
       _expand_refs (before ++ image :: after) refs = Raise ParsingError).
Proof.
  unfold FlatpakSource._expand_refs, FlatpakSource.expand_images. split.
  - intros Htol. destruct (canonicalize_refs refs) as [canon|e]; simpl; [|done].
    rewrite !for_each_app.
    destruct (for_each _ canon before) as [visited|e]; simpl; [|done].
    by rewrite (expand_image_tolerated _ _ _ Htol).
  - intros Hbad canon visited -> Hvisited Href. simpl.
    rewrite for_each_app, Hvisited. simpl.
    by rewrite (expand_image_unparsable _ _ _ Hbad Href).
Qed.

(** C7, as amended: the expanded list starts with the canonicalized input
    references, so it holds the canonical form of every input reference,
    and it holds the runtime reference declared by every input image; it
    is a strict superset when that runtime reference is not itself among
    the canonicalized input references. *)
Theorem expand_refs_superset (images : list I) (refs canon expanded : list string) :
  canonicalize_refs refs = Ok canon →
  _expand_refs images refs = Ok expanded →
  (∃ added, expanded = canon ++ added)
  ∧ (∀ r, r ∈ refs →
       ∃ c p, _canonicalize_flatpak_ref get_arch r = Ok (c, p) ∧ p ∈ expanded)
  ∧ (∀ image x,
       image ∈ images → ref_in image canon = true → declares image x →
       x ∈ expanded ∧ (x ∉ canon → ∃ y, y ∈ expanded ∧ y ∉ canon)).
Proof.
  unfold FlatpakSource._expand_refs. intros Hcanon Hexp.
  rewrite Hcanon in Hexp. simpl in Hexp.
  destruct (expand_images_extends _ _ _ _ Hexp) as (added & Hadded).
  split_and!.
  - by exists added.
  - intros r Hr. apply canonicalize_refs_Ok in Hcanon.
    destruct (proj1 (list_elem_of_lookup _ _) Hr) as (i & Hi).
    destruct (Forall2_lookup_l _ _ _ _ _ Hcanon Hi) as (p & Hp & c & Hc).
    exists c, p. split; [done|]. rewrite Hadded. apply elem_of_app. left.
    by eapply list_elem_of_lookup_2.
  - intros image x Himage Href Hdecl.
    assert (x ∈ expanded) by (by eapply expand_images_declared). eauto.
Qed.

End ExpandClaims.

(** *** The expansion on the example catalog *)

Lemma expand_refs_single_pass_witness :
  (platform_ref ∈ [foo_ref; platform_ref; sdk_ref]
   ∧ sdk_ref ∈ [foo_ref; platform_ref; sdk_ref])
  ∧ FlatpakSource.expand_images ConfigParser.application_runtime
      ([] ++ [example_platform]) [foo_ref]
    = FlatpakSource.expand_images ConfigParser.application_runtime [] [foo_ref].
Proof.
  split.
  - apply (proj1 (proj2 (expand_refs_single_pass "x86_64"
                           ConfigParser.application_runtime
                           [example_foo; example_platform]
                           ["app/org.example.Foo//stable"]
                           [foo_ref] [foo_ref; platform_ref; sdk_ref]
                           ltac:(vm_compute; reflexivity)
                           ltac:(vm_compute; reflexivity)))
             [] example_foo [] example_platform []).
    + reflexivity.
    + vm_compute. reflexivity.
    + exists (config_labels example_foo !!! "org.flatpak.metadata"),
        "org.example.Platform/x86_64/1.0".
      split_and!; [vm_compute; reflexivity..|discriminate|reflexivity].
    + vm_compute. reflexivity.
    + exists (config_labels example_platform !!! "org.flatpak.metadata"),
        "org.example.Sdk/x86_64/1.0".
      split_and!; [vm_compute; reflexivity..|discriminate|reflexivity].
  - apply (proj2 (proj2 (expand_refs_single_pass "x86_64"
                           ConfigParser.application_runtime
                           [example_platform; example_foo]
                           ["app/org.example.Foo//stable"]
                           [foo_ref] [foo_ref; platform_ref]
                           ltac:(vm_compute; reflexivity)
                           ltac:(vm_compute; reflexivity)))
             [] example_platform [example_foo] platform_ref).
    + reflexivity.
    + vm_compute. reflexivity.
    + intros Hin. by apply (bool_decide_pack _) in Hin.
    + intros earlier Hearlier. by apply elem_of_nil in Hearlier.
Defined.

(** C3 as stated fails: the runtime image that the expansion added
    contributes the runtime it declares itself, because it comes after
    the application in the catalog; in the other catalog order it does
    not. *)
Lemma expand_refs_not_single_level :
  let refs := ["app/org.example.Foo//stable"] in
  FlatpakSource.canonicalize_refs "x86_64" refs = Ok [foo_ref]
  ∧ ref_in example_platform [foo_ref] = false
  ∧ FlatpakSource._expand_refs "x86_64" ConfigParser.application_runtime
      [example_foo; example_platform] refs
    = Ok [foo_ref; platform_ref; sdk_ref]
  ∧ FlatpakSource._expand_refs "x86_64" ConfigParser.application_runtime
      [example_platform; example_foo] refs
    = Ok [foo_ref; platform_ref].
Proof. split_and!; vm_compute; reflexivity. Qed.

Lemma expand_refs_tolerates_witness :
  let refs := ["app/org.example.Foo//stable"] in
  FlatpakSource._expand_refs "x86_64" ConfigParser.application_runtime
    ([example_platform] ++ example_plain :: [example_foo]) refs
  = FlatpakSource._expand_refs "x86_64" ConfigParser.application_runtime
      ([example_platform] ++ [example_foo]) refs
  ∧ FlatpakSource._expand_refs "x86_64" ConfigParser.application_runtime
      ([example_foo] ++ example_broken :: [example_platform]) refs
    = Raise ParsingError.
Proof.
  split.
  - apply (expand_refs_tolerates "x86_64" ConfigParser.application_runtime).
    vm_compute. exact I.
  - apply (proj2 (expand_refs_tolerates "x86_64" ConfigParser.application_runtime
                    [example_foo] [example_platform] example_broken
                    ["app/org.example.Foo//stable"]))
      with (canon := [foo_ref]) (visited := [foo_ref; platform_ref]).
    + exists "not a config document". split; vm_compute; reflexivity.
    + vm_compute. reflexivity.
    + vm_compute. reflexivity.
    + vm_compute. reflexivity.
Defined.

(** C4 as stated fails: metadata that is no config document makes the
    expansion raise. *)
Lemma expand_refs_raises_on_unparsable_metadata :
  labels example_broken !! "org.flatpak.metadata" = Some "not a config document"
  ∧ FlatpakSource._expand_refs "x86_64" ConfigParser.application_runtime
      [example_broken] ["app/org.example.Foo//stable"]
    = Raise ParsingError.
Proof. split; vm_compute; reflexivity. Qed.

(** An Application section without Runtime key: [get] raises
    [NoOptionError], which the [except] clause does not name. *)
Example expand_refs_raises_on_missing_runtime_key :
  FlatpakSource._expand_refs "x86_64" ConfigParser.application_runtime
    [example_no_runtime] ["app/org.example.Foo//stable"]
  = Raise NoOptionError.
Proof. vm_compute. reflexivity. Qed.

Lemma expand_refs_superset_witness :
  let refs := ["app/org.example.Foo//stable"] in
  let expanded := [foo_ref; platform_ref; sdk_ref] in
  (∃ added, expanded = [foo_ref] ++ added)
  ∧ (∀ r, r ∈ refs →
       ∃ c p, _canonicalize_flatpak_ref "x86_64" r = Ok (c, p) ∧ p ∈ expanded)
  ∧ (∀ image x,
       image ∈ [example_foo; example_platform] →
       ref_in image [foo_ref] = true →
       declares ConfigParser.application_runtime image x →
       x ∈ expanded ∧ (x ∉ [foo_ref] → ∃ y, y ∈ expanded ∧ y ∉ [foo_ref])).
Proof.
  apply (expand_refs_superset "x86_64" ConfigParser.application_runtime
           [example_foo; example_platform] ["app/org.example.Foo//stable"]).
  - vm_compute. reflexivity.
  - vm_compute. reflexivity.
Defined.

(** C7 as stated fails: the input image declares a runtime, but the
    runtime is among the input references already, and the expansion adds
    nothing. *)
Lemma expand_refs_not_strict_superset :
  let refs := ["app/org.example.Foo//stable"; platform_ref] in
  let canon := [foo_ref; platform_ref] in
  FlatpakSource.canonicalize_refs "x86_64" refs = Ok canon
  ∧ ref_in example_foo canon = true
  ∧ declares ConfigParser.application_runtime example_foo platform_ref
  ∧ FlatpakSource._expand_refs "x86_64" ConfigParser.application_runtime
      [example_foo] refs
    = Ok canon.
Proof.
  split_and!; try (vm_compute; reflexivity).
  exists ("[Application]" +:+ newline +:+ "Runtime=org.example.Platform/x86_64/1.0"),
    "org.example.Platform/x86_64/1.0".
  split_and!; try (vm_compute; reflexivity). done.
Qed.

(** ** Sizes *)

Lemma layers_size_sum (m : Manifest) : layers_size m = Zsum (layer_size <$> layers m).
Proof.
  unfold layers_size.
  enough (∀ ls acc, foldl (λ acc layer, acc + layer_size layer) acc ls
                    = acc + Zsum (layer_size <$> ls)) as Hfold
    by (rewrite Hfold; lia).
  induction ls as [|layer ls IH]; intros acc; csimpl; [lia|].
  rewrite IH. lia.
Qed.

Lemma largest_upper (l : list Z) (x : Z) : x ∈ l → x ≤ largest l.
Proof.
  induction l as [|y l IH]; [by intros ?%elem_of_nil|].
  intros [->|Hx]%elem_of_cons; simpl; [lia|]. specialize (IH Hx). lia.
Qed.

Lemma largest_nonneg (l : list Z) : 0 ≤ largest l.
Proof. induction l as [|y l IH]; simpl; lia. Qed.

Lemma largest_attained (l : list Z) :
  Forall (λ x, 0 ≤ x) l → l ≠ [] → largest l ∈ l.
Proof.
  induction l as [|y l IH]; [done|]. intros Hpos _.
  inversion Hpos as [|?? Hy Hl]; subst. simpl.
  destruct l as [|z l].
  - simpl. rewrite Z.max_l by done. by left.
  - destruct (Z.max_spec y (largest (z :: l))) as [[_ ->]|[_ ->]].
    + right. by apply IH.
    + by left.
Qed.

Lemma included_cons_in {I : Type} `{SourceImage I} refs (image : I) images :
  ref_in image refs = true → included refs (image :: images) = image :: included refs images.
Proof. intros Hin. unfold included. by rewrite filter_cons_True. Qed.

Lemma included_cons_out {I : Type} `{SourceImage I} refs (image : I) images :
  ref_in image refs = false → included refs (image :: images) = included refs images.
Proof.
  intros Hout. unfold included. rewrite filter_cons_False; [done|]. by rewrite Hout.
Qed.

Lemma included_same {I : Type} `{SourceImage I} refs1 refs2 (images : list I) :
  same_refs refs1 refs2 → included refs1 images = included refs2 images.
Proof.
  intros Hsame. induction images as [|image images IH]; [done|].
  pose proof (ref_in_same image refs1 refs2 Hsame) as Himage.
  destruct (ref_in image refs1) eqn:Hin.
  - rewrite !included_cons_in by done. by rewrite IH.
  - rewrite !included_cons_out by done. done.
Qed.

(** The loop of the registry source. *)
Lemma registry_sizes (expanded : list string) (images : list RegistrySourceImage)
    (sizes : list (Z * Z)) (m i : Z) :
  0 ≤ m →
  Forall2 (λ image s, download_size image = Ok s.1 ∧ installed_size image = Ok s.2)
          (included expanded images) sizes →
  for_each (FlatpakRegistrySource.size_image expanded) (m, i) images
  = Ok (Z.max m (largest sizes.*1), i + Zsum sizes.*2).
Proof.
  revert sizes m i. induction images as [|image images IH]; intros sizes m i Hm Hsizes.
  - inversion Hsizes; subst. csimpl. f_equal. f_equal; lia.
  - simpl. destruct (ref_in image expanded) eqn:Hin; simpl.
    + rewrite included_cons_in in Hsizes by done.
      inversion Hsizes as [|? [d n] ? rest [Hd Hn] Hrest]; subst. csimpl in *.
      rewrite Hd, Hn. csimpl. rewrite (IH rest) by (done || lia).
      f_equal. f_equal; lia.
    + rewrite included_cons_out in Hsizes by done. by apply IH.
Qed.

(** The loop of the static source. *)
Lemma static_sizes (is_local : bool) (expanded : list string)
    (images : list StaticSourceImage) (sizes : list Z) (d i : Z) :
  Forall2 (λ image n, installed_size image = Ok n) (included expanded images) sizes →
  for_each (FlatpakStaticSource.size_image is_local expanded) (d, i) images
  = Ok (d + (if is_local then 0
             else Zsum ((λ image, layers_size (manifest_json image))
                          <$> included expanded images)),
        i + Zsum sizes).
Proof.
  revert sizes d i. induction images as [|image images IH]; intros sizes d i Hsizes.
  - inversion Hsizes; subst. csimpl. destruct is_local; f_equal; f_equal; csimpl; lia.
  - simpl. destruct (ref_in image expanded) eqn:Hin; simpl.
    + rewrite included_cons_in in Hsizes |- * by done.
      inversion Hsizes as [|? n ? rest Hn Hrest]; subst.
      rewrite Hn. csimpl. rewrite (IH rest) by done.
      destruct is_local; f_equal; f_equal; csimpl; lia.
    + rewrite included_cons_out in Hsizes |- * by done. by apply IH.
Qed.

(** The loops return only when the size labels of the included images
    can be read. *)
Lemma for_each_cons_Ok {A B} (body : B → A → res B) (acc acc' : B) (x : A)
    (xs : list A) :
  for_each body acc (x :: xs) = Ok acc' →
  ∃ mid, body acc x = Ok mid ∧ for_each body mid xs = Ok acc'.
Proof. simpl. destruct (body acc x) as [mid|e]; [by eauto|done]. Qed.

Lemma registry_sizes_Ok (expanded : list string) (images : list RegistrySourceImage)
    (acc acc' : Z * Z) :
  for_each (FlatpakRegistrySource.size_image expanded) acc images = Ok acc' →
  ∃ sizes,
    Forall2 (λ image s, download_size image = Ok s.1 ∧ installed_size image = Ok s.2)
            (included expanded images) sizes.
Proof.
  revert acc. induction images as [|image images IH]; intros [m i].
  - intros _. exists []. constructor.
  - intros (mid & Himage & (sizes & Hsizes)%IH)%for_each_cons_Ok.
    unfold FlatpakRegistrySource.size_image in Himage.
    destruct (ref_in image expanded) eqn:Hin.
    + destruct (download_size image) as [d|e] eqn:Hd; [|done].
      destruct (installed_size image) as [n|e] eqn:Hn; [|done].
      exists ((d, n) :: sizes). rewrite included_cons_in by done. by constructor.
    + exists sizes. by rewrite included_cons_out.
Qed.

Lemma static_sizes_Ok (is_local : bool) (expanded : list string)
    (images : list StaticSourceImage) (acc acc' : Z * Z) :
  for_each (FlatpakStaticSource.size_image is_local expanded) acc images = Ok acc' →
  ∃ sizes,
    Forall2 (λ image n, installed_size image = Ok n) (included expanded images) sizes.
Proof.
  revert acc. induction images as [|image images IH]; intros [d i].
  - intros _. exists []. constructor.
  - intros (mid & Himage & (sizes & Hsizes)%IH)%for_each_cons_Ok.
    unfold FlatpakStaticSource.size_image in Himage.
    destruct (ref_in image expanded) eqn:Hin.
    + destruct (installed_size image) as [n|e] eqn:Hn; [|done].
      exists (n :: sizes). rewrite included_cons_in by done. by constructor.
    + exists sizes. by rewrite included_cons_out.
Qed.

Section RegistryClaims.
Variable get_arch : string.
Variable application_runtime : string → ConfigParser.outcome.

(** C2: the registry source returns 0 as download size, and as installed
    size the largest download size of the catalog images in the expanded
    list (0 when there is none) plus the sum of their installed sizes.
    It returns whenever the references expand and the size labels of
    those images can be read, and only then. *)
Theorem registry_calculate_size (images : list RegistrySourceImage)
    (refs : list string) :
  (∀ expanded sizes,
     FlatpakSource._expand_refs get_arch application_runtime images refs = Ok expanded →
     Forall2 (λ image s, download_size image = Ok s.1 ∧ installed_size image = Ok s.2)
             (included expanded images) sizes →
     FlatpakRegistrySource.calculate_size get_arch application_runtime images refs
     = Ok (0, largest sizes.*1 + Zsum sizes.*2)
     ∧ (sizes = [] → largest sizes.*1 = 0)
     ∧ (Forall (λ s, 0 ≤ s.1) sizes →
        (∀ s, s ∈ sizes → s.1 ≤ largest sizes.*1)
        ∧ (sizes ≠ [] → largest sizes.*1 ∈ sizes.*1)))
  ∧ (∀ d t,
       FlatpakRegistrySource.calculate_size get_arch application_runtime images refs
       = Ok (d, t) →
       d = 0
       ∧ ∃ expanded sizes,
           FlatpakSource._expand_refs get_arch application_runtime images refs
           = Ok expanded
           ∧ Forall2 (λ image s,
                        download_size image = Ok s.1 ∧ installed_size image = Ok s.2)
                     (included expanded images) sizes
           ∧ t = largest sizes.*1 + Zsum sizes.*2).
Proof.
  assert (∀ expanded sizes,
            Forall2 (λ image s,
                       download_size image = Ok s.1 ∧ installed_size image = Ok s.2)
                    (included expanded images) sizes →
            for_each (FlatpakRegistrySource.size_image expanded) (0, 0) images
            = Ok (largest sizes.*1, Zsum sizes.*2)) as Hloop.
  { intros expanded sizes Hsizes.
    rewrite (registry_sizes expanded images sizes) by done.
    f_equal. f_equal. pose proof (largest_nonneg sizes.*1). lia. }
  split.
  - intros expanded sizes Hexp Hsizes. split_and!.
    + unfold FlatpakRegistrySource.calculate_size. rewrite Hexp. simpl.
      rewrite (Hloop expanded sizes) by done. simpl. f_equal. f_equal. lia.
    + by intros ->.
    + intros Hpos. split.
      * intros s Hs. apply largest_upper. by apply list_elem_of_fmap_2.
      * intros Hne. apply largest_attained.
        -- apply Forall_fmap. by eapply Forall_impl.
        -- by destruct sizes.
  - intros d t. unfold FlatpakRegistrySource.calculate_size.
    destruct (FlatpakSource._expand_refs _ _ images refs) as [expanded|e]; [|done].
    simpl.
    destruct (for_each _ (0, 0) images) as [[m i]|e] eqn:Hrun; [|done].
    simpl. intros [= <- <-]. split; [done|].
    destruct (registry_sizes_Ok _ _ _ _ Hrun) as (sizes & Hsizes).
    exists expanded, sizes. split_and!; [done..|].
    rewrite (Hloop expanded sizes Hsizes) in Hrun. injection Hrun as <- <-. lia.
Qed.

End RegistryClaims.

Lemma registry_calculate_size_witness :
  let sizes := [(1000, 5000); (3000, 2000)] in
  FlatpakRegistrySource.calculate_size "x86_64" ConfigParser.application_runtime
    [registry_foo; registry_platform] ["app/org.example.Foo//stable"]
  = Ok (0, 10000)
  ∧ (sizes = [] → largest sizes.*1 = 0)
  ∧ (Forall (λ s, 0 ≤ s.1) sizes →
     (∀ s, s ∈ sizes → s.1 ≤ largest sizes.*1)
     ∧ (sizes ≠ [] → largest sizes.*1 ∈ sizes.*1)).
Proof.
  apply (proj1 (registry_calculate_size "x86_64" ConfigParser.application_runtime
                  [registry_foo; registry_platform] ["app/org.example.Foo//stable"])
           [foo_ref; platform_ref; sdk_ref] [(1000, 5000); (3000, 2000)]).
  - vm_compute. reflexivity.
  - vm_compute. repeat constructor.
Defined.

(** ** The state monad of the static source *)

Section Monad.
Import FlatpakStaticSource.

Lemma run_bind {A B} (c : M A) (k : A → M B) (st : state) :
  (c ≫= k) st
  = match c st with
    | (st', Ok a) => k a st'
    | (st', Raise e) => (st', Raise e)
    end.
Proof. reflexivity. Qed.

Lemma bind_Ok {A B} (c : M A) (k : A → M B) (st st' : state) (b : B) :
  (c ≫= k) st = (st', Ok b) →
  ∃ a st1, c st = (st1, Ok a) ∧ k a st1 = (st', Ok b).
Proof.
  rewrite run_bind. destruct (c st) as [st1 [a|e]]; [by eauto|done].
Qed.

Lemma lift_Ok {A} (r : res A) (st st' : state) (a : A) :
  lift r st = (st', Ok a) → st' = st ∧ r = Ok a.
Proof. by intros [= -> ->]. Qed.

Context (R : state → state → Prop) `{!Reflexive R, !Transitive R}.

Lemma maintains_ret {A} (a : A) : maintains R (mret a : M A).
Proof. by intros st st' r [= <- _]. Qed.

Lemma maintains_raise {A} (e : exn) : maintains R (raise e : M A).
Proof. by intros st st' r [= <- _]. Qed.

Lemma maintains_lift {A} (x : res A) : maintains R (lift x).
Proof. by intros st st' r [= <- _]. Qed.

Lemma maintains_get_state : maintains R get_state.
Proof. by intros st st' r [= <- _]. Qed.

Lemma maintains_modify (f : state → state) :
  (∀ st, R st (f st)) → maintains R (modify f).
Proof. intros Hf st st' r [= <- _]. apply Hf. Qed.

Lemma maintains_bind {A B} (c : M A) (k : A → M B) :
  maintains R c → (∀ a, maintains R (k a)) → maintains R (c ≫= k).
Proof.
  intros Hc Hk st st' r. rewrite run_bind.
  destruct (c st) as [st1 [a|e]] eqn:Hrun.
  - intros Hrest. transitivity st1; [by eapply Hc|by eapply Hk].
  - intros [= <- _]. by eapply Hc.
Qed.

Lemma maintains_for_each {A B} (body : B → A → M B) (acc : B) (xs : list A) :
  (∀ acc x, maintains R (body acc x)) → maintains R (for_each body acc xs).
Proof.
  intros Hbody. revert acc. induction xs as [|x xs IH]; intros acc; simpl.
  - apply maintains_ret.
  - apply maintains_bind; [apply Hbody|apply IH].
Qed.

End Monad.

(** ** The static source *)

Ltac maintain_step :=
  first
    [ match goal with
      | |- Reflexive _ => exact _
      | |- Transitive _ => exact _
      end
    | apply maintains_ret
    | apply maintains_raise
    | apply maintains_lift
    | apply maintains_get_state
    | apply maintains_bind; [exact _| |intros ?]
    | apply maintains_for_each; [exact _..|intros ? ?]
    | apply maintains_modify; intros ?
    | match goal with
      | |- maintains _ (if ?b then _ else _) => destruct b
      | |- maintains _ (match ?x with _ => _ end) => destruct x
      end ].

(** Run the primitive steps of a computation of the state monad. *)
Ltac run :=
  cbv [mbind mret FlatpakStaticSource.M_bind FlatpakStaticSource.M_ret
       FlatpakStaticSource.get_state FlatpakStaticSource.request
       FlatpakStaticSource.store_blob FlatpakStaticSource.modify
       FlatpakStaticSource.raise FlatpakStaticSource.lift
       FlatpakStaticSource.makedirs FlatpakStaticSource.write_file
       FlatpakStaticSource.report_progress].

Section StaticProperties.
Import FlatpakStaticSource.

Variable get_arch : string.
Variable application_runtime : string → ConfigParser.outcome.
Variable downloader : string → Response.
Variable index_manifests : string → option (list IndexEntry).
Variable manifest_document : string → option Manifest.
Variable config_document : string → option (gmap string string).

Abbreviation _get_blob := (_get_blob downloader).
Abbreviation _download_blob := (_download_blob downloader).
Abbreviation _images :=
  (_images downloader index_manifests manifest_document config_document).
Abbreviation calculate_size :=
  (calculate_size get_arch application_runtime downloader index_manifests
     manifest_document config_document).
Abbreviation download :=
  (download get_arch application_runtime downloader index_manifests
     manifest_document config_document).
Abbreviation remote_blob := (remote_blob downloader).
Abbreviation cache_consistent := (cache_consistent downloader).
Abbreviation same_source := (same_source downloader).
Abbreviation fetched := (fetched downloader).
Abbreviation entry_of := (entry_of downloader).
Abbreviation retrievable := (retrievable downloader).

#[local] Instance same_source_refl : Reflexive same_source.
Proof. by intros st. Qed.

#[local] Instance same_source_trans : Transitive same_source.
Proof.
  intros st1 st2 st3 [Hurl12 Hc12] [Hurl23 Hc23]. split; [congruence|auto].
Qed.

Lemma init_consistent (url : string) : cache_consistent (init url).
Proof. intros digest blob Hblob. simpl in Hblob. by rewrite lookup_empty in Hblob. Qed.

Lemma same_source_other_fields (st : state) requests' files' directories' reported' images' :
  same_source st (State (_url st) (_cached_blobs st) images' requests' files'
                        directories' reported').
Proof. done. Qed.

Lemma maintains_request (url : string) : maintains same_source (request downloader url).
Proof. intros st st' r [= <- _]. apply same_source_other_fields. Qed.

Lemma maintains_raise_for_status (response : Response) :
  maintains same_source (raise_for_status response).
Proof. unfold raise_for_status. repeat maintain_step. Qed.

Lemma maintains_blob_url (digest : string) : maintains same_source (_blob_url digest).
Proof. unfold _blob_url. repeat maintain_step. Qed.

Lemma maintains_makedirs (path : string) : maintains same_source (makedirs path).
Proof. unfold makedirs. repeat maintain_step. apply same_source_other_fields. Qed.

Lemma maintains_write_file (path : string) (f : file) :
  maintains same_source (write_file path f).
Proof. unfold write_file. repeat maintain_step. apply same_source_other_fields. Qed.

Lemma maintains_report_progress (message : string) :
  maintains same_source (report_progress message).
Proof. unfold report_progress. repeat maintain_step. apply same_source_other_fields. Qed.

(** What [_get_blob] does, by cases on the cache. *)
Lemma get_blob_hit (digest blob : string) (st : state) :
  _cached_blobs st !! digest = Some blob → blob ≠ EmptyString →
  _get_blob digest st = (st, Ok blob).
Proof.
  intros Hblob Hne. unfold FlatpakStaticSource._get_blob.
  rewrite run_bind. simpl. rewrite Hblob. by destruct blob.
Qed.

Lemma get_blob_miss (digest : string) (st : state) :
  _cached_blobs st !! digest = None ∨ _cached_blobs st !! digest = Some EmptyString →
  _get_blob digest st
  = if negb (Py.startswith "sha256:" digest) then (st, Raise AssertionError)
    else
      let status := status_code (downloader (blob_url (_url st) digest)) in
      if http_error status then (requested st digest, Raise (HTTPError status))
      else (fetched st digest, Ok (remote_blob (_url st) digest)).
Proof.
  intros Hmiss. unfold FlatpakStaticSource._get_blob.
  rewrite run_bind. simpl.
  assert (∀ k : M string,
            match _cached_blobs st !! digest with
            | Some (String c b) => mret (String c b)
            | _ => k
            end = k) as -> by (by destruct Hmiss as [-> | ->]).
  unfold _blob_url, raise_for_status, http_error, remote_blob, blob_url.
  destruct (Py.startswith "sha256:" digest); simpl; [|done].
  run. simpl. by destruct (_ && _).
Qed.

Lemma get_blob_cases (digest : string) (st : state) :
  (∃ blob, _cached_blobs st !! digest = Some blob ∧ blob ≠ EmptyString)
  ∨ (_cached_blobs st !! digest = None ∨ _cached_blobs st !! digest = Some EmptyString).
Proof.
  destruct (_cached_blobs st !! digest) as [[|c b]|]; [by auto..| |by auto].
  left. by eexists.
Qed.

Lemma fetched_consistent (digest : string) (st : state) :
  cache_consistent st → cache_consistent (fetched st digest).
Proof.
  intros Hst d blob. unfold fetched. simpl.
  destruct (decide (digest = d)) as [->|Hne].
  - rewrite lookup_insert_eq. by intros [= <-].
  - rewrite lookup_insert_ne by done. apply Hst.
Qed.

Lemma maintains_get_blob (digest : string) : maintains same_source (_get_blob digest).
Proof.
  intros st st' r. destruct (get_blob_cases digest st) as [(blob & Hblob & Hne)|Hmiss].
  - rewrite (get_blob_hit _ _ _ Hblob Hne). by intros [= <- _].
  - rewrite (get_blob_miss _ _ Hmiss).
    destruct (negb _); [by intros [= <- _]|]. simpl.
    destruct (http_error _); intros [= <- _]; [done|].
    split; [done|apply fetched_consistent].
Qed.

Ltac maintain_with known :=
  repeat first
    [ known
    | apply maintains_request
    | apply maintains_raise_for_status
    | apply maintains_blob_url
    | apply maintains_makedirs
    | apply maintains_write_file
    | apply maintains_report_progress
    | apply maintains_get_blob
    | apply same_source_other_fields
    | maintain_step ].

Ltac maintain := maintain_with fail.

Lemma maintains_json_loads {A} (decode : string → option A) (text : string) :
  maintains same_source (json_loads decode text).
Proof. unfold json_loads. maintain. Qed.

Lemma maintains_get_json {A} (decode : string → option A) (digest : string) :
  maintains same_source (_get_json downloader decode digest).
Proof. unfold _get_json. maintain. apply maintains_json_loads. Qed.

Lemma maintains_download_blob (download_location digest : string) (stream : bool) :
  maintains same_source (_download_blob download_location digest stream).
Proof. unfold FlatpakStaticSource._download_blob. maintain. Qed.

Ltac maintain_calls :=
  maintain_with
    ltac:(first [ apply maintains_json_loads
                | apply maintains_get_json
                | apply maintains_download_blob ]).

Lemma maintains_images : maintains same_source _images.
Proof.
  unfold FlatpakStaticSource._images, load_images, load_image. maintain_calls.
Qed.

Lemma maintains_download (refs : list string) (download_location : string)
    (progress : bool) :
  maintains same_source (download refs download_location progress).
Proof.
  unfold FlatpakStaticSource.download, _expand_refs, download_image.
  maintain_with ltac:(first [apply maintains_images | apply maintains_download_blob]).
Qed.

Lemma maintains_calculate_size (refs : list string) :
  maintains same_source (calculate_size refs).
Proof.
  unfold FlatpakStaticSource.calculate_size, _expand_refs.
  maintain_with ltac:(apply maintains_images).
Qed.

(** Once [_images] has returned, it returns the same list and does
    nothing. *)
Lemma images_cached (st st' : state) (images : list StaticSourceImage) :
  _images st = (st', Ok images) → _images st' = (st', Ok images).
Proof.
  unfold FlatpakStaticSource._images. rewrite run_bind.
  change (get_state st) with (st, Ok st). cbv beta iota.
  destruct (_images_cache st) as [cached|] eqn:Hcache.
  - intros [= <- <-]. rewrite run_bind.
    change (get_state st) with (st, Ok st). cbv beta iota. by rewrite Hcache.
  - intros (loaded & st1 & _ & Hrest)%bind_Ok.
    apply bind_Ok in Hrest as ([] & st2 & [= <-] & [= <- <-]).
    reflexivity.
Qed.

Lemma expand_refs_Ok (refs expanded : list string) (st st' : state) :
  _expand_refs get_arch application_runtime downloader index_manifests
    manifest_document config_document refs st = (st', Ok expanded) →
  ∃ images,
    _images st = (st', Ok images)
    ∧ FlatpakSource._expand_refs get_arch application_runtime images refs = Ok expanded.
Proof.
  unfold _expand_refs, FlatpakSource._expand_refs.
  intros (canon & st0 & [-> Hcanon]%lift_Ok & Hrest)%bind_Ok.
  apply bind_Ok in Hrest as (images & st1 & Himages & [-> Hexp]%lift_Ok).
  exists images. by rewrite Hcanon.
Qed.

(** C9, as amended: a blob that the cache holds with a body that is not
    empty is returned without a retrieval; for a digest that the cache
    does not hold, or holds with an empty body, one retrieval is made,
    an error status raises and leaves the cache as it was, and any other
    status stores and returns the body; a fetch that returned a body
    that is not empty is followed by a fetch that returns the same bytes
    and makes no retrieval. *)
Theorem get_blob_cache (digest : string) (st : state) :
  (∀ blob,
     _cached_blobs st !! digest = Some blob → blob ≠ EmptyString →
     _get_blob digest st = (st, Ok blob))
  ∧ (_cached_blobs st !! digest = None ∨ _cached_blobs st !! digest = Some EmptyString →
     Py.startswith "sha256:" digest = true →
     let url := blob_url (_url st) digest in
     let response := downloader url in
     ∃ st',
       requests st' = requests st ++ [url]
       ∧ if http_error (status_code response)
         then _get_blob digest st = (st', Raise (HTTPError (status_code response)))
              ∧ _cached_blobs st' = _cached_blobs st
         else _get_blob digest st = (st', Ok (content response))
              ∧ _cached_blobs st' = <[digest := content response]> (_cached_blobs st))
  ∧ (∀ st1 blob,
       _get_blob digest st = (st1, Ok blob) → blob ≠ EmptyString →
       _get_blob digest st1 = (st1, Ok blob)).
Proof.
  split_and!.
  - intros blob. apply get_blob_hit.
  - intros Hmiss Hprefix. rewrite (get_blob_miss _ _ Hmiss), Hprefix. simpl.
    destruct (http_error _).
    + by exists (requested st digest).
    + by exists (fetched st digest).
  - intros st1 blob Hfetch Hne.
    destruct (get_blob_cases digest st) as [(cached & Hcached & Hne')|Hmiss].
    + rewrite (get_blob_hit _ _ _ Hcached Hne') in Hfetch.
      injection Hfetch as <- <-. by apply get_blob_hit.
    + rewrite (get_blob_miss _ _ Hmiss) in Hfetch.
      destruct (negb _); [done|]. simpl in Hfetch.
      destruct (http_error _); [done|]. injection Hfetch as <- <-.
      apply get_blob_hit; [|done]. simpl. apply lookup_insert_eq.
Qed.

(** C8: when the catalog is loaded for the first time, a 404 for the
    index raises [NoSourceError] and any other error status raises the
    HTTP error; either way one request was made, and the catalog stays
    unloaded. *)
Theorem images_not_found (st : state) :
  _images_cache st = None →
  let url := _url st +:+ "/index.json" in
  let status := status_code (downloader url) in
  (status = 404 →
   ∃ st', _images st = (st', Raise (NoSourceError ("No source found at " +:+ url)))
          ∧ requests st' = requests st ++ [url]
          ∧ _images_cache st' = None)
  ∧ (status ≠ 404 → http_error status = true →
     ∃ st', _images st = (st', Raise (HTTPError status))
            ∧ requests st' = requests st ++ [url]
            ∧ _images_cache st' = None).
Proof.
  intros Hcache url status.
  assert (∀ st1 e,
            load_images downloader index_manifests manifest_document
              config_document st = (st1, Raise e) →
            _images st = (st1, Raise e)) as Hload.
  { intros st1 e Hrun. unfold FlatpakStaticSource._images. rewrite run_bind.
    change (get_state st) with (st, Ok st). cbv beta iota.
    by rewrite Hcache, run_bind, Hrun. }
  split.
  - intros H404. eexists. split; [apply Hload|].
    + unfold load_images. run. fold url. fold status.
      rewrite bool_decide_true by done. reflexivity.
    + done.
  - intros Hother Herror. eexists. split; [apply Hload|].
    + unfold load_images, raise_for_status. run. fold url. fold status.
      rewrite bool_decide_false by done.
      unfold http_error in Herror. rewrite Herror. reflexivity.
    + done.
Qed.

Lemma for_each_ext {A B} (body1 body2 : B → A → res B) (acc : B) (xs : list A) :
  (∀ acc x, body1 acc x = body2 acc x) →
  for_each body1 acc xs = for_each body2 acc xs.
Proof.
  intros Hext. revert acc. induction xs as [|x xs IH]; intros acc; simpl; [done|].
  rewrite Hext. destruct (body2 acc x); simpl; [apply IH|done].
Qed.

Lemma images_same_url (st st' : state) (r : res (list StaticSourceImage)) :
  _images st = (st', r) → _is_local st' = _is_local st.
Proof.
  intros [Hurl _]%maintains_images. unfold _is_local. by rewrite Hurl.
Qed.

(** [calculate_size] once the catalog is known. *)
Lemma calculate_size_run (refs canon : list string) (st st' : state)
    (images : list StaticSourceImage) :
  FlatpakSource.canonicalize_refs get_arch refs = Ok canon →
  _images st = (st', Ok images) →
  calculate_size refs st
  = (st', expanded ← FlatpakSource.expand_images application_runtime images canon;
          for_each (size_image (_is_local st) expanded) (0, 0) images).
Proof.
  intros Hcanon Himages.
  unfold FlatpakStaticSource.calculate_size, _expand_refs.
  rewrite !run_bind. unfold lift at 1. rewrite Hcanon. cbv beta iota.
  rewrite run_bind, Himages. cbv beta iota. unfold lift at 1.
  destruct (FlatpakSource.expand_images _ images canon) as [expanded|e]; [|done].
  cbv beta iota. rewrite run_bind, (images_cached _ _ _ Himages). cbv beta iota.
  rewrite run_bind. change (get_state st') with (st', Ok st'). cbv beta iota.
  by rewrite (images_same_url _ _ _ Himages).
Qed.

Lemma calculate_size_run_raise (refs canon : list string) (st st' : state) (e : exn) :
  FlatpakSource.canonicalize_refs get_arch refs = Ok canon →
  _images st = (st', Raise e) →
  calculate_size refs st = (st', Raise e).
Proof.
  intros Hcanon Himages.
  unfold FlatpakStaticSource.calculate_size, _expand_refs.
  rewrite !run_bind. unfold lift at 1. rewrite Hcanon. cbv beta iota.
  by rewrite run_bind, Himages.
Qed.

(** C1: the static source returns the sum of the layer sizes of the
    catalog images in the expanded list, or 0 when its URL is a [file://]
    URL, and the sum of their installed-size labels.  It returns whenever
    the catalog loads, the references expand and the installed-size
    labels of those images can be read, and only then. *)
Theorem static_calculate_size (refs : list string) (st st' : state) :
  (∀ images expanded sizes,
     _images st = (st', Ok images) →
     FlatpakSource._expand_refs get_arch application_runtime images refs = Ok expanded →
     Forall2 (λ image n, installed_size image = Ok n) (included expanded images) sizes →
     calculate_size refs st
     = (st', Ok (if Py.startswith "file://" (_url st) then 0
                 else Zsum ((λ image, Zsum (layer_size <$> layers (manifest_json image)))
                              <$> included expanded images),
                 Zsum sizes)))
  ∧ (∀ d i,
       calculate_size refs st = (st', Ok (d, i)) →
       ∃ images expanded sizes,
         _images st = (st', Ok images)
         ∧ FlatpakSource._expand_refs get_arch application_runtime images refs
           = Ok expanded
         ∧ Forall2 (λ image n, installed_size image = Ok n)
                   (included expanded images) sizes
         ∧ d = (if Py.startswith "file://" (_url st) then 0
                else Zsum ((λ image, Zsum (layer_size <$> layers (manifest_json image)))
                             <$> included expanded images))
         ∧ i = Zsum sizes).
Proof.
  assert (∀ images expanded sizes,
            _images st = (st', Ok images) →
            FlatpakSource._expand_refs get_arch application_runtime images refs
            = Ok expanded →
            Forall2 (λ image n, installed_size image = Ok n)
                    (included expanded images) sizes →
            calculate_size refs st
            = (st', Ok (if Py.startswith "file://" (_url st) then 0
                        else Zsum ((λ image,
                                      Zsum (layer_size <$> layers (manifest_json image)))
                                     <$> included expanded images),
                        Zsum sizes))) as Hreturns.
  { unfold FlatpakSource._expand_refs. intros images expanded sizes Himages Hexp Hsizes.
    destruct (FlatpakSource.canonicalize_refs get_arch refs) as [canon|e] eqn:Hcanon;
      [|done].
    simpl in Hexp. rewrite (calculate_size_run refs canon st st' images) by done.
    rewrite Hexp. simpl. rewrite (static_sizes _ _ _ sizes) by done.
    unfold _is_local. do 3 f_equal.
    destruct (Py.startswith "file://" (_url st)); [done|].
    rewrite Z.add_0_l. f_equal. apply list_fmap_ext. intros _ image _.
    apply layers_size_sum. }
  split; [done|].
  intros d i Hrun. pose proof Hrun as Hrun'.
  unfold FlatpakStaticSource.calculate_size in Hrun'.
  apply bind_Ok in Hrun' as (expanded & st1 & Hexp & Hrest).
  apply bind_Ok in Hrest as (images & st2 & Himages & Hrest).
  apply bind_Ok in Hrest as (st3 & st4 & [= <- <-] & [-> Hloop]%lift_Ok).
  apply expand_refs_Ok in Hexp as (images0 & Himages0 & Hexp).
  rewrite (images_cached _ _ _ Himages0) in Himages. injection Himages as <- <-.
  destruct (static_sizes_Ok _ _ _ _ _ Hloop) as (sizes & Hsizes).
  exists images0, expanded, sizes.
  rewrite (Hreturns images0 expanded sizes) in Hrun by done.
  injection Hrun as <- <-. done.
Qed.

(** C10: the sizes depend on the input list through the set of its
    canonical references only, for the static and for the registry
    source. *)
Theorem calculate_size_of_set (refs1 refs2 canon1 canon2 : list string) :
  FlatpakSource.canonicalize_refs get_arch refs1 = Ok canon1 →
  FlatpakSource.canonicalize_refs get_arch refs2 = Ok canon2 →
  same_refs canon1 canon2 →
  (∀ st, calculate_size refs1 st = calculate_size refs2 st)
  ∧ (∀ images,
       FlatpakRegistrySource.calculate_size get_arch application_runtime images refs1
       = FlatpakRegistrySource.calculate_size get_arch application_runtime images refs2).
Proof.
  intros Hcanon1 Hcanon2 Hsame. split.
  - intros st. destruct (_images st) as [st' [images|e]] eqn:Himages.
    + rewrite (calculate_size_run refs1 canon1 st st' images) by done.
      rewrite (calculate_size_run refs2 canon2 st st' images) by done.
      f_equal.
      pose proof (expand_images_same application_runtime images _ _ Hsame) as Hexp.
      destruct (FlatpakSource.expand_images _ images canon1) as [e1|x1],
               (FlatpakSource.expand_images _ images canon2) as [e2|x2];
        simpl in *; try done; [|by subst].
      apply for_each_ext. intros [d i] image. unfold size_image.
      by rewrite (ref_in_same image e1 e2 Hexp).
    + rewrite (calculate_size_run_raise refs1 canon1 st st' e) by done.
      by rewrite (calculate_size_run_raise refs2 canon2 st st' e).
  - intros images. unfold FlatpakRegistrySource.calculate_size, FlatpakSource._expand_refs.
    rewrite Hcanon1, Hcanon2. simpl.
    pose proof (expand_images_same application_runtime images _ _ Hsame) as Hexp.
    destruct (FlatpakSource.expand_images _ images canon1) as [e1|x1],
             (FlatpakSource.expand_images _ images canon2) as [e2|x2];
      simpl in *; try done; [|by subst].
    rewrite (for_each_ext (FlatpakRegistrySource.size_image e1)
               (FlatpakRegistrySource.size_image e2)); [done|].
    intros [m i] image. unfold FlatpakRegistrySource.size_image.
    by rewrite (ref_in_same image e1 e2 Hexp).
Qed.

(** *** Download *)

Lemma append_inj_l (p x y : string) : p +:+ x = p +:+ y → x = y.
Proof. induction p as [|c p IH]; [done|]. intros [= Heq]. by apply IH. Qed.

Lemma index_path_not_layout_path (collection_location : string) :
  Py.path_join collection_location "index.json"
  ≠ Py.path_join collection_location "oci-layout".
Proof.
  unfold Py.path_join.
  change (Py.startswith "/" "index.json") with false.
  change (Py.startswith "/" "oci-layout") with false. cbv iota.
  destruct (_ || _); intros Heq%append_inj_l; [done|].
  by apply (append_inj_l "/") in Heq.
Qed.

Lemma get_blob_Ok (digest blob : string) (st st' : state) :
  cache_consistent st →
  _get_blob digest st = (st', Ok blob) →
  blob = remote_blob (_url st) digest.
Proof.
  intros Hst. destruct (get_blob_cases digest st) as [(cached & Hcached & Hne)|Hmiss].
  - rewrite (get_blob_hit _ _ _ Hcached Hne). intros [= _ <-]. by apply Hst.
  - rewrite (get_blob_miss _ _ Hmiss). destruct (negb _); [done|]. simpl.
    destruct (http_error _); [done|]. by intros [= _ <-].
Qed.

(** A blob that is not streamed has the length of the remote blob. *)
Lemma download_blob_Ok (download_location digest : string) (st st' : state) (n : Z) :
  cache_consistent st →
  _download_blob download_location digest false st = (st', Ok n) →
  n = Py.len (remote_blob (_url st) digest).
Proof.
  intros Hst. unfold FlatpakStaticSource._download_blob.
  destruct (negb _); [done|]. cbv zeta.
  intros ([] & st1 & Hdirs & Hrest)%bind_Ok.
  apply bind_Ok in Hrest as ([] & st2 & Hopen & Hrest).
  apply bind_Ok in Hrest as (blob & st3 & Hblob & Hrest).
  apply bind_Ok in Hrest as ([] & st4 & _ & [= _ <-]).
  apply maintains_makedirs in Hdirs as [Hurl1 Hc1].
  apply maintains_write_file in Hopen as [Hurl2 Hc2].
  rewrite (get_blob_Ok _ _ _ _ (Hc2 (Hc1 Hst)) Hblob).
  by rewrite Hurl2, Hurl1.
Qed.

Lemma maintains_download_image (download_location : string) (progress : bool)
    (expanded_refs : list string) (manifests : list ManifestEntry)
    (image : StaticSourceImage) :
  maintains same_source
    (download_image downloader download_location progress expanded_refs manifests image).
Proof.
  unfold download_image. maintain_with ltac:(apply maintains_download_blob).
Qed.

Lemma download_image_Ok (download_location : string) (progress : bool)
    (expanded_refs : list string) (manifests manifests' : list ManifestEntry)
    (image : StaticSourceImage) (st st' : state) :
  cache_consistent st →
  download_image downloader download_location progress expanded_refs manifests image st
  = (st', Ok manifests') →
  manifests' = manifests ++ (entry_of (_url st) <$> included expanded_refs [image]).
Proof.
  intros Hst. unfold download_image.
  destruct (ref_in image expanded_refs) eqn:Hin.
  - rewrite included_cons_in by done.
    intros ([] & st1 & Hreport & Hrest)%bind_Ok.
    apply bind_Ok in Hrest as (manifest_len & st2 & Hlen & Hrest).
    apply bind_Ok in Hrest as (config_len & st3 & _ & Hrest).
    apply bind_Ok in Hrest as ([] & st4 & _ & [= _ <-]).
    assert (same_source st st1) as [Hurl1 Hc1].
    { destruct progress; [by apply maintains_report_progress in Hreport|].
      by injection Hreport as <-. }
    apply download_blob_Ok in Hlen; [|by auto]. subst manifest_len.
    by rewrite Hurl1.
  - rewrite included_cons_out by done. intros [= _ <-]. by rewrite app_nil_r.
Qed.

Lemma download_images_Ok (download_location : string) (progress : bool)
    (expanded_refs : list string) (images : list StaticSourceImage)
    (manifests manifests' : list ManifestEntry) (st st' : state) :
  cache_consistent st →
  for_each (download_image downloader download_location progress expanded_refs)
           manifests images st
  = (st', Ok manifests') →
  manifests' = manifests ++ (entry_of (_url st) <$> included expanded_refs images).
Proof.
  revert manifests st. induction images as [|image images IH]; intros manifests st Hst.
  - intros [= _ <-]. by rewrite app_nil_r.
  - simpl. intros (mid & st1 & Himage & Hrest)%bind_Ok.
    pose proof (maintains_download_image _ _ _ _ _ _ _ _ Himage) as [Hurl Hc].
    apply download_image_Ok in Himage; [|done].
    apply IH in Hrest; [|by auto]. subst. rewrite Hurl, <-app_assoc. f_equal.
    destruct (ref_in image expanded_refs) eqn:Hin.
    + by rewrite !included_cons_in.
    + by rewrite !included_cons_out.
Qed.

(** *** When the download returns *)

Lemma bind_returns {A B} (c : M A) (k : A → M B) (st st1 st' : state) (a : A) (b : B) :
  c st = (st1, Ok a) → k a st1 = (st', Ok b) → (c ≫= k) st = (st', Ok b).
Proof. intros Hc Hk. by rewrite run_bind, Hc. Qed.

Lemma get_blob_returns (digest : string) (st : state) :
  retrievable (_url st) digest →
  ∃ st' blob, _get_blob digest st = (st', Ok blob).
Proof.
  intros [Hprefix Hstatus].
  destruct (get_blob_cases digest st) as [(blob & Hblob & Hne)|Hmiss].
  - exists st, blob. by apply get_blob_hit.
  - rewrite (get_blob_miss _ _ Hmiss), Hprefix. simpl. rewrite Hstatus. by eauto.
Qed.

Lemma download_blob_returns (download_location digest : string) (stream : bool)
    (st : state) :
  retrievable (_url st) digest →
  ∃ st' n, _download_blob download_location digest stream st = (st', Ok n).
Proof.
  intros Hgood. pose proof Hgood as [Hprefix Hstatus].
  unfold FlatpakStaticSource._download_blob. rewrite Hprefix.
  change (negb true) with false. cbv zeta iota.
  destruct (makedirs (Py.path_join download_location "blobs/sha256/") st)
    as [st1 [[]|e]] eqn:Hdirs; [|done].
  pose proof (maintains_makedirs _ _ _ _ Hdirs) as [Hurl1 _].
  destruct (write_file
              (Py.path_join (Py.path_join download_location "blobs/sha256/")
                 (Py.drop 7 digest))
              (Bytes EmptyString) st1) as [st2 [[]|e]] eqn:Hopen; [|done].
  pose proof (maintains_write_file _ _ _ _ _ Hopen) as [Hurl2 _].
  destruct stream.
  - eexists _, _.
    eapply bind_returns; [exact Hdirs|]. eapply bind_returns; [exact Hopen|].
    unfold _blob_url, raise_for_status. rewrite Hprefix. run. simpl.
    rewrite Hurl2, Hurl1. unfold http_error, blob_url in Hstatus.
    rewrite Hstatus. reflexivity.
  - destruct (get_blob_returns digest st2) as (st3 & blob & Hblob);
      [by rewrite Hurl2, Hurl1|].
    eexists _, _.
    eapply bind_returns; [exact Hdirs|]. eapply bind_returns; [exact Hopen|].
    eapply bind_returns; [exact Hblob|]. reflexivity.
Qed.

Lemma layers_return (download_location : string) (layers : list Layer) (st : state) :
  Forall (retrievable (_url st)) (layer_digest <$> layers) →
  ∃ st',
    for_each (λ (_ : ()) layer,
                _download_blob download_location (layer_digest layer) true;;
                mret ())
             () layers st
    = (st', Ok ()).
Proof.
  revert st. induction layers as [|layer layers IH]; intros st Hgood.
  - by exists st.
  - rewrite fmap_cons in Hgood. inversion Hgood as [|?? Hlayer Hrest]; subst.
    destruct (download_blob_returns download_location _ true st Hlayer)
      as (st1 & n & Hblob).
    pose proof (maintains_download_blob _ _ _ _ _ _ Hblob) as [Hurl _].
    destruct (IH st1) as (st' & Hloop); [by rewrite Hurl|].
    exists st'. simpl. rewrite run_bind, run_bind, Hblob. exact Hloop.
Qed.

Lemma download_image_returns (download_location : string) (progress : bool)
    (expanded_refs : list string) (manifests : list ManifestEntry)
    (image : StaticSourceImage) (st : state) :
  (ref_in image expanded_refs = true → Forall (retrievable (_url st)) (blobs_of image)) →
  ∃ st' manifests',
    download_image downloader download_location progress expanded_refs manifests image st
    = (st', Ok manifests').
Proof.
  intros Hgood. unfold download_image.
  destruct (ref_in image expanded_refs); [|by eexists _, _].
  specialize (Hgood eq_refl).
  inversion Hgood as [|?? Hmanifest Hgood']; subst.
  inversion Hgood' as [|?? Hconfig Hlayers]; subst.
  assert (∃ st0, (if progress
                  then report_progress
                         ("Downloading " +:+ default EmptyString (ref image))
                  else mret ()) st = (st0, Ok ()) ∧ _url st0 = _url st)
    as (st0 & Hreport & Hurl0) by (destruct progress; by eexists).
  destruct (download_blob_returns download_location (digest image) false st0)
    as (st1 & n1 & Hblob1); [by rewrite Hurl0|].
  pose proof (maintains_download_blob _ _ _ _ _ _ Hblob1) as [Hurl1 _].
  destruct (download_blob_returns download_location
              (config_digest (manifest_json image)) false st1)
    as (st2 & n2 & Hblob2); [by rewrite Hurl1, Hurl0|].
  pose proof (maintains_download_blob _ _ _ _ _ _ Hblob2) as [Hurl2 _].
  destruct (layers_return download_location (layers (manifest_json image)) st2)
    as (st3 & Hloop); [by rewrite Hurl2, Hurl1, Hurl0|].
  eexists _, _.
  eapply bind_returns; [exact Hreport|].
  eapply bind_returns; [exact Hblob1|].
  eapply bind_returns; [exact Hblob2|].
  cbv zeta. eapply bind_returns; [exact Hloop|]. reflexivity.
Qed.

Lemma download_images_return (download_location : string) (progress : bool)
    (expanded_refs : list string) (images : list StaticSourceImage)
    (manifests : list ManifestEntry) (st : state) :
  Forall (λ image, Forall (retrievable (_url st)) (blobs_of image))
         (included expanded_refs images) →
  ∃ st' manifests',
    for_each (download_image downloader download_location progress expanded_refs)
             manifests images st
    = (st', Ok manifests').
Proof.
  revert manifests st. induction images as [|image images IH]; intros manifests st Hgood.
  - by eexists _, _.
  - destruct (download_image_returns download_location progress expanded_refs
                manifests image st) as (st1 & mid & Himage).
    { intros Hin. rewrite included_cons_in in Hgood by done. by inversion Hgood. }
    pose proof (maintains_download_image _ _ _ _ _ _ _ _ Himage) as [Hurl _].
    destruct (IH mid st1) as (st' & manifests' & Hloop).
    { rewrite Hurl. destruct (ref_in image expanded_refs) eqn:Hin.
      - rewrite included_cons_in in Hgood by done. by inversion Hgood.
      - by rewrite included_cons_out in Hgood. }
    exists st', manifests'. simpl. by rewrite run_bind, Himage.
Qed.

Lemma expand_refs_returns (refs expanded : list string) (st st' : state)
    (images : list StaticSourceImage) :
  _images st = (st', Ok images) →
  FlatpakSource._expand_refs get_arch application_runtime images refs = Ok expanded →
  _expand_refs get_arch application_runtime downloader index_manifests
    manifest_document config_document refs st = (st', Ok expanded).
Proof.
  unfold _expand_refs, FlatpakSource._expand_refs. intros Himages Hexp.
  destruct (FlatpakSource.canonicalize_refs get_arch refs) as [canon|e]; [|done].
  simpl in Hexp. rewrite run_bind. unfold lift at 1. cbv beta iota.
  rewrite run_bind, Himages. unfold lift. by rewrite Hexp.
Qed.

(** C5: a local source returns the path of its layout and does nothing
    else.  The download of a remote source returns when the catalog
    loads, the references expand and the blobs of the included images
    can be retrieved; whenever it returns, it returns the staging
    directory [Flatpaks] of the destination, the index document there
    lists one entry (media type, digest, length of the manifest blob)
    for each catalog image in the expanded list, in catalog order, and
    the layout version document is there. *)
Theorem download_index (refs : list string) (download_location : string)
    (progress : bool) (st : state) :
  let collection_location := Py.path_join download_location "Flatpaks" in
  (Py.startswith "file://" (_url st) = true →
   download refs download_location progress st
   = (st, Ok ("oci:" +:+ Py.removeprefix "file://" (_url st))))
  ∧ (Py.startswith "file://" (_url st) = false →
     ∀ st1 images expanded,
       _images st = (st1, Ok images) →
       FlatpakSource._expand_refs get_arch application_runtime images refs
       = Ok expanded →
       Forall (λ image, Forall (retrievable (_url st)) (blobs_of image))
              (included expanded images) →
       ∃ st', download refs download_location progress st
              = (st', Ok ("oci:" +:+ collection_location)))
  ∧ (Py.startswith "file://" (_url st) = false →
     cache_consistent st →
     ∀ st' result,
       download refs download_location progress st = (st', Ok result) →
       result = "oci:" +:+ collection_location
       ∧ ∃ st1 images expanded,
           _images st = (st1, Ok images)
           ∧ FlatpakSource._expand_refs get_arch application_runtime images refs
             = Ok expanded
           ∧ files st' !! Py.path_join collection_location "index.json"
             = Some (IndexJson 2 (entry_of (_url st) <$> included expanded images))
           ∧ files st' !! Py.path_join collection_location "oci-layout"
             = Some (OciLayoutJson "1.0.0")).
Proof.
  intros collection_location. unfold FlatpakStaticSource.download. split_and!.
  - intros Hlocal. rewrite run_bind. change (get_state st) with (st, Ok st).
    cbv beta iota. unfold _is_local. by rewrite Hlocal.
  - intros Hremote st1 images expanded Himages Hexp Hgood.
    rewrite run_bind. change (get_state st) with (st, Ok st). cbv beta iota zeta.
    unfold _is_local. rewrite Hremote.
    pose proof (maintains_images _ _ _ Himages) as [Hurl _].
    destruct (download_images_return download_location progress expanded images [] st1)
      as (st2 & manifests & Hloop); [by rewrite Hurl|].
    eexists.
    eapply bind_returns; [by apply (expand_refs_returns refs expanded st st1 images)|].
    eapply bind_returns; [by apply (images_cached st st1 images)|].
    eapply bind_returns; [exact Hloop|].
    reflexivity.
  - intros Hremote Hst st' result. rewrite run_bind.
    change (get_state st) with (st, Ok st). cbv beta iota zeta.
    unfold _is_local. rewrite Hremote.
    intros (expanded & st1 & Hexp & Hrest)%bind_Ok.
    apply bind_Ok in Hrest as (images & st2 & Himages & Hrest).
    apply bind_Ok in Hrest as (manifests & st3 & Hloop & Hrest).
    apply bind_Ok in Hrest as ([] & st4 & [= <-] & Hrest).
    apply bind_Ok in Hrest as ([] & st5 & [= <-] & Hrest).
    apply bind_Ok in Hrest as ([] & st6 & [= <-] & [= <- <-]).
    apply expand_refs_Ok in Hexp as (images0 & Himages0 & Hexp).
    rewrite (images_cached _ _ _ Himages0) in Himages.
    injection Himages as <- <-.
    pose proof (maintains_images _ _ _ Himages0) as [Hurl Hc].
    apply download_images_Ok in Hloop; [|by auto]. rewrite Hurl in Hloop.
    subst manifests. split; [done|].
    exists st1, images0, expanded. split_and!; [done..| |].
    + simpl. rewrite lookup_insert_ne by (symmetry; apply index_path_not_layout_path).
      by rewrite lookup_insert_eq.
    + simpl. by rewrite lookup_insert_eq.
Qed.

End StaticProperties.

Example example_catalog :
  (example_images example_url (FlatpakStaticSource.init example_url)).2
  = Ok [example_foo; example_platform].
Proof. vm_compute. reflexivity. Qed.

(** An application of 900 bytes in layers and 5000 bytes installed, the
    runtime it names (300 and 2000) and the SDK the runtime names, which
    is not in the catalog; remote, then local. *)
Lemma static_calculate_size_witness :
  example_calculate_size example_url ["app/org.example.Foo//stable"]
    (FlatpakStaticSource.init example_url)
  = ((example_images example_url (FlatpakStaticSource.init example_url)).1,
     Ok (1200, 7000))
  ∧ example_calculate_size example_local_url ["app/org.example.Foo//stable"]
      (FlatpakStaticSource.init example_local_url)
    = ((example_images example_local_url (FlatpakStaticSource.init example_local_url)).1,
       Ok (0, 7000)).
Proof.
  split.
  - apply (proj1 (static_calculate_size "x86_64" ConfigParser.application_runtime
                    (example_downloader example_url) example_index example_manifest
                    example_config ["app/org.example.Foo//stable"]
                    (FlatpakStaticSource.init example_url) _)
             [example_foo; example_platform]
             [foo_ref; platform_ref; sdk_ref] [5000; 2000]).
    + vm_compute. reflexivity.
    + vm_compute. reflexivity.
    + vm_compute. repeat constructor.
  - apply (proj1 (static_calculate_size "x86_64" ConfigParser.application_runtime
                    (example_downloader example_local_url) example_index
                    example_manifest example_config ["app/org.example.Foo//stable"]
                    (FlatpakStaticSource.init example_local_url) _)
             [example_foo; example_platform]
             [foo_ref; platform_ref; sdk_ref] [5000; 2000]).
    + vm_compute. reflexivity.
    + vm_compute. reflexivity.
    + vm_compute. repeat constructor.
Defined.

Lemma download_index_witness :
  let st := FlatpakStaticSource.init example_url in
  let local := FlatpakStaticSource.init example_local_url in
  let st' := (example_download example_url ["app/org.example.Foo//stable"] "/tmp/dl"
                true st).1 in
  example_download example_local_url ["app/org.example.Foo//stable"] "/tmp/dl" true local
  = (local, Ok "oci:/run/install/repo/Flatpaks")
  ∧ (∃ st2, example_download example_url ["app/org.example.Foo//stable"] "/tmp/dl"
              true st
            = (st2, Ok ("oci:" +:+ Py.path_join "/tmp/dl" "Flatpaks")))
  ∧ ("oci:/tmp/dl/Flatpaks" = "oci:" +:+ Py.path_join "/tmp/dl" "Flatpaks"
     ∧ ∃ st1 images expanded,
         example_images example_url st = (st1, Ok images)
         ∧ FlatpakSource._expand_refs "x86_64" ConfigParser.application_runtime images
             ["app/org.example.Foo//stable"] = Ok expanded
         ∧ FlatpakStaticSource.files st'
             !! Py.path_join (Py.path_join "/tmp/dl" "Flatpaks") "index.json"
           = Some (IndexJson 2
                     (entry_of (example_downloader example_url) example_url
                        <$> included expanded images))
         ∧ FlatpakStaticSource.files st'
             !! Py.path_join (Py.path_join "/tmp/dl" "Flatpaks") "oci-layout"
           = Some (OciLayoutJson "1.0.0")).
Proof.
  split; [|split].
  - apply (download_index "x86_64" ConfigParser.application_runtime
             (example_downloader example_local_url) example_index example_manifest
             example_config).
    vm_compute. reflexivity.
  - apply (proj1 (proj2 (download_index "x86_64" ConfigParser.application_runtime
                           (example_downloader example_url) example_index
                           example_manifest example_config
                           ["app/org.example.Foo//stable"] "/tmp/dl" true
                           (FlatpakStaticSource.init example_url))))
      with (st1 := (example_images example_url (FlatpakStaticSource.init example_url)).1)
           (images := [example_foo; example_platform])
           (expanded := [foo_ref; platform_ref; sdk_ref]).
    + vm_compute. reflexivity.
    + vm_compute. reflexivity.
    + vm_compute. reflexivity.
    + repeat constructor; vm_compute; reflexivity.
  - apply (proj2 (proj2 (download_index "x86_64" ConfigParser.application_runtime
                           (example_downloader example_url) example_index
                           example_manifest example_config
                           ["app/org.example.Foo//stable"] "/tmp/dl" true
                           (FlatpakStaticSource.init example_url)))).
    + vm_compute. reflexivity.
    + apply init_consistent.
    + vm_compute. reflexivity.
Defined.

(** The index document of the example: two entries, in catalog order. *)
Example example_index_document :
  FlatpakStaticSource.files
    (example_download example_url ["app/org.example.Foo//stable"] "/tmp/dl" true
       (FlatpakStaticSource.init example_url)).1
    !! "/tmp/dl/Flatpaks/index.json"
  = Some (IndexJson 2
            [ {| entry_mediaType := manifest_media_type;
                 entry_digest_ := "sha256:f00"; entry_size := 15 |};
              {| entry_mediaType := manifest_media_type;
                 entry_digest_ := "sha256:a00"; entry_size := 20 |} ]).
Proof. vm_compute. reflexivity. Qed.

Lemma images_not_found_witness :
  let st := FlatpakStaticSource.init example_url in
  let url := example_url +:+ "/index.json" in
  (∃ st', FlatpakStaticSource._images (status_downloader 404) example_index
            example_manifest example_config st
          = (st', Raise (NoSourceError ("No source found at " +:+ url)))
          ∧ FlatpakStaticSource.requests st' = [] ++ [url]
          ∧ FlatpakStaticSource._images_cache st' = None)
  ∧ (∃ st', FlatpakStaticSource._images (status_downloader 503) example_index
              example_manifest example_config st
            = (st', Raise (HTTPError 503))
            ∧ FlatpakStaticSource.requests st' = [] ++ [url]
            ∧ FlatpakStaticSource._images_cache st' = None).
Proof.
  split.
  - apply (images_not_found (status_downloader 404) example_index example_manifest
             example_config (FlatpakStaticSource.init example_url));
      reflexivity.
  - apply (proj2 (images_not_found (status_downloader 503) example_index
                    example_manifest example_config
                    (FlatpakStaticSource.init example_url) eq_refl)).
    + vm_compute. discriminate.
    + reflexivity.
Defined.

Lemma get_blob_cache_witness :
  let st := FlatpakStaticSource.init example_url in
  let url := blob_url example_url "sha256:f00" in
  FlatpakStaticSource._get_blob (example_downloader example_url) "sha256:f00"
    example_cached
  = (example_cached, Ok "manifest of Foo")
  ∧ (∃ st',
       FlatpakStaticSource.requests st' = [] ++ [url]
       ∧ FlatpakStaticSource._get_blob (example_downloader example_url) "sha256:f00" st
         = (st', Ok "manifest of Foo")
       ∧ FlatpakStaticSource._cached_blobs st' = <["sha256:f00" := "manifest of Foo"]> ∅)
  ∧ (let st1 := (FlatpakStaticSource._get_blob (example_downloader example_url)
                   "sha256:f00" st).1 in
     FlatpakStaticSource._get_blob (example_downloader example_url) "sha256:f00" st1
     = (st1, Ok "manifest of Foo")).
Proof.
  split_and!.
  - apply (get_blob_cache (example_downloader example_url) "sha256:f00" example_cached).
    + vm_compute. reflexivity.
    + discriminate.
  - apply (proj1 (proj2 (get_blob_cache (example_downloader example_url) "sha256:f00"
                           (FlatpakStaticSource.init example_url)))).
    + left. vm_compute. reflexivity.
    + vm_compute. reflexivity.
  - apply (proj2 (proj2 (get_blob_cache (example_downloader example_url) "sha256:f00"
                           (FlatpakStaticSource.init example_url)))).
    + vm_compute. reflexivity.
    + discriminate.
Defined.

(** C9 as stated fails: a blob with an empty body is stored, but the
    next fetch of its digest takes the empty body for a miss and makes a
    second retrieval. *)
Lemma get_blob_refetches_empty_body :
  let get := FlatpakStaticSource._get_blob (status_downloader 200) "sha256:e00" in
  let url := example_url +:+ "/blobs/sha256/e00" in
  let st1 := (get (FlatpakStaticSource.init example_url)).1 in
  get (FlatpakStaticSource.init example_url) = (st1, Ok EmptyString)
  ∧ FlatpakStaticSource._cached_blobs st1 !! "sha256:e00" = Some EmptyString
  ∧ FlatpakStaticSource.requests st1 = [url]
  ∧ (get st1).2 = Ok EmptyString
  ∧ FlatpakStaticSource.requests (get st1).1 = [url; url].
Proof. split_and!; vm_compute; reflexivity. Qed.

Lemma calculate_size_of_set_witness :
  let refs1 := [ "app/org.example.Foo//stable";
                 "org.fedoraproject.Stable:app/org.example.Foo/x86_64/stable";
                 "app/org.example.Foo//stable" ] in
  let refs2 := ["app/org.example.Foo//stable"] in
  (∀ st, example_calculate_size example_url refs1 st
         = example_calculate_size example_url refs2 st)
  ∧ (∀ images,
       FlatpakRegistrySource.calculate_size "x86_64" ConfigParser.application_runtime
         images refs1
       = FlatpakRegistrySource.calculate_size "x86_64" ConfigParser.application_runtime
           images refs2).
Proof.
  apply (calculate_size_of_set "x86_64" ConfigParser.application_runtime
           (example_downloader example_url) example_index example_manifest
           example_config _ _ [foo_ref; foo_ref; foo_ref] [foo_ref]).
  - vm_compute. reflexivity.
  - vm_compute. reflexivity.
  - intros x. rewrite !elem_of_cons. tauto.
Defined.

(** * Further properties of the source *)

(** ** Canonicalization of a reference *)

Lemma split_segments_without_sep (sep : ascii) (s : string) :
  Forall (λ p, Py.contains sep p = false) (Py.split sep s).
Proof.
  induction s as [|c s IH]; simpl; [by repeat constructor|].
  destruct (Ascii.eqb c sep) eqn:Hc; [by constructor|].
  destruct (split_nonempty sep s) as (h & t & Hs). rewrite Hs in IH |- *.
  inversion IH; subst. constructor; [|done]. simpl. by rewrite Hc.
Qed.

Lemma split1_app (sep : ascii) (c r : string) :
  Py.contains sep c = false →
  Py.split1 sep (c +:+ String sep r) = [c; r].
Proof.
  induction c as [|a c IH]; simpl.
  - by rewrite Ascii.eqb_refl.
  - destruct (Ascii.eqb a sep); simpl; [done|]. intros Hc.
    change (String a c +:+ String sep r) with (String a (c +:+ String sep r)).
    simpl. destruct (Ascii.eqb a sep) eqn:Ha; [|by rewrite IH].
    by rewrite IH.
Qed.

Section CanonicalizeFurther.
Variable get_arch : string.

Abbreviation fill_arch := (fill_arch get_arch).

(** The function in terms of the two parts of the reference. *)
Lemma canonicalize_parts (ref : string) :
  _canonicalize_flatpak_ref get_arch ref
  = if bool_decide (length (Py.split "/" (path_part ref)) ≠ 4%nat)
    then Raise (RuntimeError "Can't parse reference")
    else Ok (collection_part ref,
             Py.join "/" (fill_arch (Py.split "/" (path_part ref)))).
Proof.
  unfold _canonicalize_flatpak_ref, path_part, collection_part, fill_arch.
  destruct (Py.split1 ":" ref) as [|c [|r [|? ?]]]; reflexivity.
Qed.

(** X1: a reference is accepted exactly when the part after its
    collection ID has four segments; any other reference raises the
    one format error. *)
Theorem canonicalize_segments (ref : string) :
  (length (Py.split "/" (path_part ref)) = 4%nat →
   ∃ p, _canonicalize_flatpak_ref get_arch ref = Ok (collection_part ref, p))
  ∧ (length (Py.split "/" (path_part ref)) ≠ 4%nat →
     _canonicalize_flatpak_ref get_arch ref
     = Raise (RuntimeError "Can't parse reference")).
Proof.
  rewrite canonicalize_parts. split; intros Hlen.
  - rewrite bool_decide_false by (by intros []). by eexists.
  - by rewrite bool_decide_true.
Qed.

(** X2: canonicalization returns the collection ID and the path; a path
    that names its architecture is returned as it is, and in a path
    that does not, the architecture of the machine takes the place of
    the empty segment and nothing else changes. *)
Theorem canonicalize_keeps_segments (ref : string) (c : option string) (p : string) :
  _canonicalize_flatpak_ref get_arch ref = Ok (c, p) →
  c = collection_part ref
  ∧ (Py.split "/" (path_part ref) !! 2%nat ≠ Some EmptyString → p = path_part ref)
  ∧ (Py.split "/" (path_part ref) !! 2%nat = Some EmptyString →
     p = Py.join "/" (<[2%nat := get_arch]> (Py.split "/" (path_part ref)))).
Proof.
  rewrite canonicalize_parts. case_bool_decide; [done|]. intros [= <- <-].
  unfold fill_arch. split_and!; [done|..]; intros H2.
  - rewrite bool_decide_false by done. apply join_split.
  - by rewrite bool_decide_true.
Qed.

(** X3: when the architecture of the machine is a name without slash,
    a canonical path has exactly four segments, the third of which is
    not empty, and the three others are those of the reference. *)
Theorem canonicalize_well_formed (ref : string) (c : option string) (p : string) :
  get_arch ≠ EmptyString →
  Py.contains "/" get_arch = false →
  _canonicalize_flatpak_ref get_arch ref = Ok (c, p) →
  ∃ kind name arch arch' branch,
    Py.split "/" (path_part ref) = [kind; name; arch; branch]
    ∧ Py.split "/" p = [kind; name; arch'; branch]
    ∧ arch' ≠ EmptyString
    ∧ (arch ≠ EmptyString → arch' = arch).
Proof.
  intros Hne Hslash. rewrite canonicalize_parts. case_bool_decide as Hlen; [done|].
  intros [= _ <-].
  pose proof (split_segments_without_sep "/" (path_part ref)) as Hparts.
  destruct (Py.split "/" (path_part ref)) as [|kind [|name [|arch [|branch [|? ?]]]]];
    try (simpl in Hlen; lia).
  apply Forall_cons in Hparts as [Hk Hparts].
  apply Forall_cons in Hparts as [Hn Hparts].
  apply Forall_cons in Hparts as [Ha Hparts].
  apply Forall_cons in Hparts as [Hb _].
  unfold fill_arch.
  destruct (decide (arch = EmptyString)) as [->|Harch].
  - exists kind, name, EmptyString, get_arch, branch.
    rewrite bool_decide_true by done.
    change (<[2%nat:=get_arch]> [kind; name; EmptyString; branch])
      with [kind; name; get_arch; branch].
    rewrite (split_join "/" [kind; name; get_arch; branch]);
      [done|done|by repeat first [apply Forall_nil | apply Forall_cons_2]].
  - exists kind, name, arch, arch, branch.
    rewrite bool_decide_false by (intros [= ?]; done).
    rewrite (split_join "/" [kind; name; arch; branch]);
      [done|done|by repeat first [apply Forall_nil | apply Forall_cons_2]].
Qed.

(** X4: a collection ID in front of a reference changes the collection
    that is returned and nothing else: the path, or the error. *)
Theorem canonicalize_collection_prefix (collection ref : string) :
  Py.contains ":" collection = false →
  Py.contains ":" ref = false →
  _canonicalize_flatpak_ref get_arch (collection +:+ ":" +:+ ref)
  = match _canonicalize_flatpak_ref get_arch ref with
    | Ok (_, p) => Ok (Some collection, p)
    | Raise e => Raise e
    end.
Proof.
  intros Hcollection Href. rewrite !canonicalize_parts.
  unfold path_part, collection_part.
  change (collection +:+ ":" +:+ ref) with (collection +:+ String ":" ref).
  rewrite (split1_app ":" collection ref Hcollection).
  rewrite (split1_without_sep ":" ref Href).
  by case_bool_decide.
Qed.

End CanonicalizeFurther.

Lemma canonicalize_segments_witness :
  (∃ p, _canonicalize_flatpak_ref "x86_64" "app/org.example.Foo//stable"
        = Ok (None, p))
  ∧ _canonicalize_flatpak_ref "x86_64" "app/org.example.Foo/stable"
    = Raise (RuntimeError "Can't parse reference").
Proof.
  split.
  - apply (proj1 (canonicalize_segments "x86_64" "app/org.example.Foo//stable")).
    reflexivity.
  - apply (proj2 (canonicalize_segments "x86_64" "app/org.example.Foo/stable")).
    vm_compute. discriminate.
Defined.

Lemma canonicalize_keeps_segments_witness :
  Some "org.fedoraproject.Stable"
  = collection_part "org.fedoraproject.Stable:app/org.example.Foo//stable"
  ∧ (Py.split "/" (path_part "org.fedoraproject.Stable:app/org.example.Foo//stable")
       !! 2%nat ≠ Some EmptyString →
     "app/org.example.Foo/x86_64/stable"
     = path_part "org.fedoraproject.Stable:app/org.example.Foo//stable")
  ∧ (Py.split "/" (path_part "org.fedoraproject.Stable:app/org.example.Foo//stable")
       !! 2%nat = Some EmptyString →
     "app/org.example.Foo/x86_64/stable"
     = Py.join "/" (<[2%nat := "x86_64"]>
                      (Py.split "/"
                         (path_part "org.fedoraproject.Stable:app/org.example.Foo//stable")))).
Proof.
  apply (canonicalize_keeps_segments "x86_64"
           "org.fedoraproject.Stable:app/org.example.Foo//stable").
  reflexivity.
Defined.

Lemma canonicalize_well_formed_witness :
  ∃ kind name arch arch' branch,
    Py.split "/" (path_part "app/org.example.Foo//stable") = [kind; name; arch; branch]
    ∧ Py.split "/" "app/org.example.Foo/x86_64/stable" = [kind; name; arch'; branch]
    ∧ arch' ≠ EmptyString
    ∧ (arch ≠ EmptyString → arch' = arch).
Proof.
  apply (canonicalize_well_formed "x86_64" "app/org.example.Foo//stable" None).
  - discriminate.
  - reflexivity.
  - reflexivity.
Defined.

Lemma canonicalize_collection_prefix_witness :
  _canonicalize_flatpak_ref "x86_64"
    ("org.fedoraproject.Stable" +:+ ":" +:+ "app/org.example.Foo//stable")
  = match _canonicalize_flatpak_ref "x86_64" "app/org.example.Foo//stable" with
    | Ok (_, p) => Ok (Some "org.fedoraproject.Stable", p)
    | Raise e => Raise e
    end.
Proof.
  apply (canonicalize_collection_prefix "x86_64" "org.fedoraproject.Stable"
           "app/org.example.Foo//stable"); reflexivity.
Defined.

(** ** Dependency expansion *)

Lemma startswith_app (p s : string) : Py.startswith p (p +:+ s) = true.
Proof.
  induction p as [|a p IH]; [done|].
  change (Py.startswith (String a p) (String a p +:+ s))
    with (Ascii.eqb a a && Py.startswith p (p +:+ s)).
  by rewrite Ascii.eqb_refl, IH.
Qed.

Section ExpandFurther.
Variable get_arch : string.
Variable application_runtime : string → ConfigParser.outcome.
Context {I : Type} `{SourceImage I}.

Abbreviation expand_image := (FlatpakSource.expand_image application_runtime).
Abbreviation expand_images := (FlatpakSource.expand_images application_runtime).
Abbreviation canonicalize_refs := (FlatpakSource.canonicalize_refs get_arch).
Abbreviation _expand_refs := (FlatpakSource._expand_refs get_arch application_runtime).
Abbreviation declares := (declares application_runtime).

Lemma expand_image_skipped (result : list string) (image : I) :
  ref_in image result = false → expand_image result image = Ok result.
Proof. unfold FlatpakSource.expand_image. by intros ->. Qed.

Lemma expand_images_skipped (images : list I) (result : list string) :
  Forall (λ image, ref_in image result = false) images →
  expand_images images result = Ok result.
Proof.
  unfold FlatpakSource.expand_images.
  induction 1 as [|image images Himage _ IH]; [done|].
  simpl. by rewrite (expand_image_skipped _ _ Himage).
Qed.

Lemma ref_in_nil (image : I) : ref_in image [] = false.
Proof.
  unfold ref_in. destruct (ref image); [|done].
  apply bool_decide_eq_false. by intros ?%elem_of_nil.
Qed.

Lemma declared_runtime_prefix (image : I) (x : string) :
  declares image x → Py.startswith "runtime/" x = true.
Proof. intros (metadata & runtime & _ & _ & _ & ->). apply startswith_app. Qed.

(** What the pass over the catalog adds to the list. *)
Lemma expand_images_added (images : list I) (result result' : list string) :
  expand_images images result = Ok result' →
  ∃ added,
    result' = result ++ added
    ∧ NoDup added
    ∧ (length added ≤ length images)%nat
    ∧ ∀ x, x ∈ added → (x ∉ result) ∧ Py.startswith "runtime/" x = true.
Proof.
  unfold FlatpakSource.expand_images. revert result.
  induction images as [|image images IH]; intros result.
  - intros [= <-]. exists []. rewrite app_nil_r.
    split_and!; [done|constructor|done|by intros x ?%elem_of_nil].
  - intros (mid & Himage & Hrest)%for_each_cons_Ok.
    destruct (IH mid Hrest) as (added & -> & Hnodup & Hlen & Hadded).
    destruct (expand_image_Ok application_runtime _ _ _ Himage)
      as [->|(x & -> & Hx & _ & Hdecl)].
    + exists added. split_and!; [done|done|simpl; lia|done].
    + exists (x :: added). rewrite <-app_assoc. split_and!; [done| |simpl; lia|].
      * constructor; [|done]. intros Hin. apply Hadded in Hin as [Hin _].
        apply Hin, elem_of_app. right. by left.
      * intros y [->|Hy]%elem_of_cons.
        -- split; [done|by eapply declared_runtime_prefix].
        -- apply Hadded in Hy as [Hy ?]. split; [|done].
           intros Hin. apply Hy, elem_of_app. by left.
Qed.

Lemma canonicalize_refs_malformed (refs : list string) (r : string) :
  r ∈ refs →
  length (Py.split "/" (path_part r)) ≠ 4%nat →
  canonicalize_refs refs = Raise (RuntimeError "Can't parse reference").
Proof.
  intros Hr Hlen. induction refs as [|r' refs IH]; [by apply elem_of_nil in Hr|].
  simpl. rewrite (canonicalize_parts get_arch r').
  case_bool_decide as Hlen'; [done|]. simpl.
  apply elem_of_cons in Hr as [->|Hr]; [done|]. by rewrite IH.
Qed.

Lemma expand_refs_nil (images : list I) : _expand_refs images [] = Ok [].
Proof.
  unfold FlatpakSource._expand_refs. simpl. apply expand_images_skipped.
  apply Forall_forall. intros image _. apply ref_in_nil.
Qed.

(** X5: the expansion adds, after the canonical references, runtime
    references only: each starts with [runtime/], none is among the
    canonical references, none is added twice, and there are no more of
    them than images in the catalog. *)
Theorem expand_refs_added (images : list I) (refs canon expanded : list string) :
  canonicalize_refs refs = Ok canon →
  _expand_refs images refs = Ok expanded →
  ∃ added,
    expanded = canon ++ added
    ∧ NoDup added
    ∧ (length added ≤ length images)%nat
    ∧ ∀ x, x ∈ added → (x ∉ canon) ∧ Py.startswith "runtime/" x = true.
Proof.
  unfold FlatpakSource._expand_refs. intros -> Hexp. simpl in Hexp.
  by apply expand_images_added.
Qed.

(** X6: when no image of the catalog has one of the canonical
    references, the expansion is the list of the canonical references,
    and no metadata is read. *)
Theorem expand_refs_no_match (images : list I) (refs canon : list string) :
  canonicalize_refs refs = Ok canon →
  Forall (λ image, ref_in image canon = false) images →
  _expand_refs images refs = Ok canon.
Proof.
  unfold FlatpakSource._expand_refs. intros -> Hnone. simpl.
  by apply expand_images_skipped.
Qed.

(** X7: one reference that cannot be parsed fails the expansion of the
    whole list with the format error, before the catalog is looked at. *)
Theorem expand_refs_malformed (images : list I) (refs : list string) (r : string) :
  r ∈ refs →
  length (Py.split "/" (path_part r)) ≠ 4%nat →
  _expand_refs images refs = Raise (RuntimeError "Can't parse reference").
Proof.
  intros Hr Hlen. unfold FlatpakSource._expand_refs.
  by rewrite (canonicalize_refs_malformed refs r Hr Hlen).
Qed.

End ExpandFurther.

Lemma expand_refs_added_witness :
  ∃ added,
    [foo_ref; platform_ref; sdk_ref] = [foo_ref] ++ added
    ∧ NoDup added
    ∧ (length added ≤ length [example_foo; example_platform])%nat
    ∧ ∀ x, x ∈ added → (x ∉ [foo_ref]) ∧ Py.startswith "runtime/" x = true.
Proof.
  apply (expand_refs_added "x86_64" ConfigParser.application_runtime
           [example_foo; example_platform] ["app/org.example.Foo//stable"]).
  - vm_compute. reflexivity.
  - vm_compute. reflexivity.
Defined.

Lemma expand_refs_no_match_witness :
  FlatpakSource._expand_refs "x86_64" ConfigParser.application_runtime
    [example_platform; example_broken] ["app/org.example.Bar//stable"]
  = Ok ["app/org.example.Bar/x86_64/stable"].
Proof.
  apply (expand_refs_no_match "x86_64" ConfigParser.application_runtime).
  - vm_compute. reflexivity.
  - repeat constructor; vm_compute; reflexivity.
Defined.

Lemma expand_refs_malformed_witness :
  FlatpakSource._expand_refs "x86_64" ConfigParser.application_runtime
    [example_foo; example_platform]
    ["app/org.example.Foo//stable"; "org.example.Foo"]
  = Raise (RuntimeError "Can't parse reference").
Proof.
  apply (expand_refs_malformed "x86_64" ConfigParser.application_runtime
           [example_foo; example_platform] _ "org.example.Foo").
  - apply (bool_decide_unpack _). vm_compute. exact I.
  - vm_compute. discriminate.
Defined.

(** ** Sizes *)

Lemma for_each_skipped {A B} (body : B → A → res B) (acc : B) (xs : list A) :
  Forall (λ x, body acc x = Ok acc) xs → for_each body acc xs = Ok acc.
Proof. induction 1 as [|x xs Hx _ IH]; [done|]. simpl. by rewrite Hx. Qed.

Lemma ref_in_without_ref {I : Type} `{SourceImage I} (image : I) (refs : list string) :
  ref image = None → ref_in image refs = false.
Proof. unfold ref_in. by intros ->. Qed.

Section SizesFurther.
Variable get_arch : string.
Variable application_runtime : string → ConfigParser.outcome.

Abbreviation registry_calculate_size_of :=
  (FlatpakRegistrySource.calculate_size get_arch application_runtime).

(** X8: an image without reference label, that is, an image that is no
    Flatpak, is passed over by the expansion and by the sizes of the
    registry source, whatever its other labels. *)
Theorem image_without_ref_ignored (before after : list RegistrySourceImage)
    (image : RegistrySourceImage) (refs : list string) :
  ref image = None →
  FlatpakSource._expand_refs get_arch application_runtime
    (before ++ image :: after) refs
  = FlatpakSource._expand_refs get_arch application_runtime (before ++ after) refs
  ∧ registry_calculate_size_of (before ++ image :: after) refs
    = registry_calculate_size_of (before ++ after) refs.
Proof.
  intros Href.
  assert (FlatpakSource._expand_refs get_arch application_runtime
            (before ++ image :: after) refs
          = FlatpakSource._expand_refs get_arch application_runtime
              (before ++ after) refs) as Hexp.
  { unfold FlatpakSource._expand_refs, FlatpakSource.expand_images.
    destruct (FlatpakSource.canonicalize_refs get_arch refs) as [canon|e]; [|done].
    simpl. rewrite !for_each_app.
    destruct (for_each _ canon before) as [visited|e]; [|done]. simpl.
    by rewrite (expand_image_skipped application_runtime visited image
                  (ref_in_without_ref image visited Href)). }
  split; [done|].
  unfold FlatpakRegistrySource.calculate_size. rewrite Hexp.
  destruct (FlatpakSource._expand_refs _ _ (before ++ after) refs) as [expanded|e];
    [|done].
  simpl. rewrite !for_each_app.
  destruct (for_each _ (0, 0) before) as [[m i]|e]; [|done]. simpl.
  unfold FlatpakRegistrySource.size_image at 1.
  by rewrite (ref_in_without_ref image expanded Href).
Qed.

(** X9: the figure of the registry source leaves room, on top of all
    that is installed, for the download of any one image. *)
Theorem registry_room_for_a_download (images : list RegistrySourceImage)
    (refs expanded : list string) (d t : Z) :
  FlatpakSource._expand_refs get_arch application_runtime images refs = Ok expanded →
  registry_calculate_size_of images refs = Ok (d, t) →
  ∃ sizes,
    Forall2 (λ image s, download_size image = Ok s.1 ∧ installed_size image = Ok s.2)
            (included expanded images) sizes
    ∧ Zsum sizes.*2 ≤ t
    ∧ ∀ s, s ∈ sizes → s.1 + Zsum sizes.*2 ≤ t.
Proof.
  intros Hexp. unfold FlatpakRegistrySource.calculate_size. rewrite Hexp. simpl.
  destruct (for_each _ (0, 0) images) as [[m i]|e] eqn:Hrun; [|done].
  simpl. intros [= <- <-].
  destruct (registry_sizes_Ok _ _ _ _ Hrun) as (sizes & Hsizes).
  exists sizes. split; [done|].
  rewrite (registry_sizes expanded images sizes 0 0) in Hrun by done.
  injection Hrun as <- <-.
  pose proof (largest_nonneg sizes.*1). split; [lia|].
  intros s Hs. pose proof (largest_upper sizes.*1 s.1) as Hle.
  specialize (Hle (list_elem_of_fmap_2 fst sizes s Hs)). lia.
Qed.

Lemma registry_calculate_size_of_nothing (images : list RegistrySourceImage) :
  registry_calculate_size_of images [] = Ok (0, 0).
Proof.
  unfold FlatpakRegistrySource.calculate_size.
  rewrite (expand_refs_nil get_arch application_runtime images). simpl.
  rewrite for_each_skipped; [done|].
  apply Forall_forall. intros image _. unfold FlatpakRegistrySource.size_image.
  by rewrite ref_in_nil.
Qed.

End SizesFurther.

Lemma image_without_ref_ignored_witness :
  let other := {| _labels := <["org.flatpak.installed-size" := "many"]> ∅ |} in
  FlatpakSource._expand_refs "x86_64" ConfigParser.application_runtime
    ([registry_foo] ++ other :: [registry_platform]) ["app/org.example.Foo//stable"]
  = FlatpakSource._expand_refs "x86_64" ConfigParser.application_runtime
      ([registry_foo] ++ [registry_platform]) ["app/org.example.Foo//stable"]
  ∧ FlatpakRegistrySource.calculate_size "x86_64" ConfigParser.application_runtime
      ([registry_foo] ++ other :: [registry_platform]) ["app/org.example.Foo//stable"]
    = FlatpakRegistrySource.calculate_size "x86_64" ConfigParser.application_runtime
        ([registry_foo] ++ [registry_platform]) ["app/org.example.Foo//stable"].
Proof.
  apply (image_without_ref_ignored "x86_64" ConfigParser.application_runtime).
  vm_compute. reflexivity.
Defined.

Lemma registry_room_for_a_download_witness :
  ∃ sizes,
    Forall2 (λ image s, download_size image = Ok s.1 ∧ installed_size image = Ok s.2)
            (included [foo_ref; platform_ref; sdk_ref] [registry_foo; registry_platform])
            sizes
    ∧ Zsum sizes.*2 ≤ 10000
    ∧ ∀ s, s ∈ sizes → s.1 + Zsum sizes.*2 ≤ 10000.
Proof.
  apply (registry_room_for_a_download "x86_64" ConfigParser.application_runtime
           [registry_foo; registry_platform] ["app/org.example.Foo//stable"]
           [foo_ref; platform_ref; sdk_ref] 0 10000).
  - vm_compute. reflexivity.
  - vm_compute. reflexivity.
Defined.

(** ** What the methods of the static source do to its state *)

Ltac state_step :=
  first
    [ match goal with
      | |- Reflexive _ => exact _
      | |- Transitive _ => exact _
      end
    | assumption
    | maintain_step ].

Section InvariantsOfLoading.
Import FlatpakStaticSource.

Variable downloader : string → Response.
Variable index_manifests : string → option (list IndexEntry).
Variable manifest_document : string → option Manifest.
Variable config_document : string → option (gmap string string).

Context (R : state → state → Prop) `{!Reflexive R, !Transitive R}.
Hypothesis R_request : ∀ st url,
  R st (State (_url st) (_cached_blobs st) (_images_cache st) (requests st ++ [url])
              (files st) (directories st) (reported st)).
Hypothesis R_store : ∀ st digest blob,
  R st (State (_url st) (<[digest := blob]> (_cached_blobs st)) (_images_cache st)
              (requests st) (files st) (directories st) (reported st)).

Lemma kept_by_request (url : string) : maintains R (request downloader url).
Proof. intros st st' r [= <- _]. apply R_request. Qed.

Lemma kept_by_get_blob (digest : string) : maintains R (_get_blob downloader digest).
Proof.
  unfold _get_blob, _blob_url, raise_for_status, store_blob.
  repeat first [apply kept_by_request | apply R_store | state_step].
Qed.

Lemma kept_by_get_json {A} (decode : string → option A) (digest : string) :
  maintains R (_get_json downloader decode digest).
Proof.
  unfold _get_json, json_loads.
  repeat first [apply kept_by_get_blob | state_step].
Qed.

Lemma kept_by_load_images :
  maintains R (load_images downloader index_manifests manifest_document config_document).
Proof.
  unfold load_images, load_image, raise_for_status, json_loads.
  repeat first [apply kept_by_request | apply kept_by_get_json | state_step].
Qed.

End InvariantsOfLoading.

Section InvariantsOfMethods.
Import FlatpakStaticSource.

Variable get_arch : string.
Variable application_runtime : string → ConfigParser.outcome.
Variable downloader : string → Response.
Variable index_manifests : string → option (list IndexEntry).
Variable manifest_document : string → option Manifest.
Variable config_document : string → option (gmap string string).

Abbreviation _images :=
  (_images downloader index_manifests manifest_document config_document).
Abbreviation calculate_size :=
  (calculate_size get_arch application_runtime downloader index_manifests
     manifest_document config_document).
Abbreviation download :=
  (download get_arch application_runtime downloader index_manifests
     manifest_document config_document).

(** Loading the catalog leaves the cached value as it is. *)
Lemma load_images_same_catalog (st st' : state) (r : res (list StaticSourceImage)) :
  load_images downloader index_manifests manifest_document config_document st = (st', r) →
  _images_cache st' = _images_cache st.
Proof.
  intros Hload.
  assert (Reflexive same_catalog) by (by intros ?).
  assert (Transitive same_catalog)
    by (intros ???; unfold same_catalog; congruence).
  by apply (kept_by_load_images downloader index_manifests manifest_document
              config_document same_catalog (λ _ _, eq_refl) (λ _ _ _, eq_refl)
              st st' r).
Qed.

Context (R : state → state → Prop) `{!Reflexive R, !Transitive R}.
Hypothesis R_request : ∀ st url,
  R st (State (_url st) (_cached_blobs st) (_images_cache st) (requests st ++ [url])
              (files st) (directories st) (reported st)).
Hypothesis R_store : ∀ st digest blob,
  R st (State (_url st) (<[digest := blob]> (_cached_blobs st)) (_images_cache st)
              (requests st) (files st) (directories st) (reported st)).
Hypothesis R_catalog : ∀ st images,
  _images_cache st = None →
  R st (State (_url st) (_cached_blobs st) (Some images) (requests st) (files st)
              (directories st) (reported st)).

Lemma kept_by_images : maintains R _images.
Proof.
  intros st st' r. unfold FlatpakStaticSource._images. rewrite run_bind.
  change (get_state st) with (st, Ok st). cbv beta iota.
  destruct (_images_cache st) as [cached|] eqn:Hcache.
  - by intros [= <- _].
  - rewrite run_bind.
    destruct (load_images _ _ _ _ st) as [st1 [images|e]] eqn:Hload.
    + pose proof (load_images_same_catalog _ _ _ Hload) as Hsame.
      pose proof (kept_by_load_images _ _ _ _ R R_request R_store _ _ _ Hload) as Hst1.
      intros [= <- _]. transitivity st1; [done|].
      apply R_catalog. by rewrite Hsame.
    + intros [= <- _].
      by apply (kept_by_load_images _ _ _ _ R R_request R_store _ _ _ Hload).
Qed.

Lemma kept_by_calculate_size (refs : list string) : maintains R (calculate_size refs).
Proof.
  unfold FlatpakStaticSource.calculate_size, _expand_refs.
  repeat first [apply kept_by_images | state_step].
Qed.

Hypothesis R_makedirs : ∀ st path,
  R st (State (_url st) (_cached_blobs st) (_images_cache st) (requests st) (files st)
              ({[path]} ∪ directories st) (reported st)).
Hypothesis R_write : ∀ st path f,
  R st (State (_url st) (_cached_blobs st) (_images_cache st) (requests st)
              (<[path := f]> (files st)) (directories st) (reported st)).
Hypothesis R_report : ∀ st message,
  R st (State (_url st) (_cached_blobs st) (_images_cache st) (requests st) (files st)
              (directories st) (reported st ++ [message])).

Lemma kept_by_download_blob (download_location digest : string) (stream : bool) :
  maintains R (_download_blob downloader download_location digest stream).
Proof.
  unfold _download_blob, _blob_url, raise_for_status, makedirs, write_file.
  repeat first [ apply (kept_by_request downloader R R_request)
               | apply (kept_by_get_blob downloader R R_request R_store)
               | apply R_makedirs | apply R_write | state_step ].
Qed.

Lemma kept_by_download (refs : list string) (download_location : string)
    (progress : bool) :
  maintains R (download refs download_location progress).
Proof.
  unfold FlatpakStaticSource.download, _expand_refs, download_image, makedirs,
    write_file, report_progress.
  repeat first [ apply kept_by_images | apply kept_by_download_blob
               | apply R_makedirs | apply R_write | apply R_report | state_step ].
Qed.

End InvariantsOfMethods.

Section StateFacts.
Import FlatpakStaticSource.

#[global] Instance grows_refl : Reflexive grows.
Proof. intros st. unfold grows. split_and!; auto. Qed.

#[global] Instance grows_trans : Transitive grows.
Proof.
  intros st1 st2 st3 (Hu12 & Hr12 & Hp12 & Hf12 & Hd12 & Hc12 & Hi12)
    (Hu23 & Hr23 & Hp23 & Hf23 & Hd23 & Hc23 & Hi23).
  unfold grows. split_and!.
  - congruence.
  - by transitivity (requests st2).
  - by transitivity (reported st2).
  - by transitivity (dom (files st2)).
  - by transitivity (directories st2).
  - by transitivity (dom (_cached_blobs st2)).
  - destruct Hi12 as [?|Hi12]; [by left|].
    destruct Hi23 as [Hi23|Hi23]; [left; congruence|right; congruence].
Qed.

#[global] Instance quiet_refl : Reflexive quiet.
Proof. by intros st. Qed.

#[global] Instance quiet_trans : Transitive quiet.
Proof.
  intros st1 st2 st3 (? & ? & ?) (? & ? & ?). unfold quiet. split_and!; congruence.
Qed.

Ltac grows_field :=
  intros; unfold grows; simpl; split_and!;
  first [ done | by apply prefix_app_r | by right | set_solver ].

Lemma grows_request (st : state) (url : string) :
  grows st (State (_url st) (_cached_blobs st) (_images_cache st) (requests st ++ [url])
                  (files st) (directories st) (reported st)).
Proof. grows_field. Qed.

Lemma grows_store (st : state) (digest blob : string) :
  grows st (State (_url st) (<[digest := blob]> (_cached_blobs st)) (_images_cache st)
                  (requests st) (files st) (directories st) (reported st)).
Proof. grows_field. Qed.

Lemma grows_catalog (st : state) (images : list StaticSourceImage) :
  _images_cache st = None →
  grows st (State (_url st) (_cached_blobs st) (Some images) (requests st) (files st)
                  (directories st) (reported st)).
Proof. intros Hnone. unfold grows. simpl. split_and!; auto. Qed.

Lemma grows_makedirs (st : state) (path : string) :
  grows st (State (_url st) (_cached_blobs st) (_images_cache st) (requests st)
                  (files st) ({[path]} ∪ directories st) (reported st)).
Proof. grows_field. Qed.

Lemma grows_write (st : state) (path : string) (f : file) :
  grows st (State (_url st) (_cached_blobs st) (_images_cache st) (requests st)
                  (<[path := f]> (files st)) (directories st) (reported st)).
Proof. grows_field. Qed.

Lemma grows_report (st : state) (message : string) :
  grows st (State (_url st) (_cached_blobs st) (_images_cache st) (requests st)
                  (files st) (directories st) (reported st ++ [message])).
Proof. grows_field. Qed.

End StateFacts.

Section StateFurther.
Import FlatpakStaticSource.

Variable get_arch : string.
Variable application_runtime : string → ConfigParser.outcome.
Variable downloader : string → Response.
Variable index_manifests : string → option (list IndexEntry).
Variable manifest_document : string → option Manifest.
Variable config_document : string → option (gmap string string).

Abbreviation _images :=
  (_images downloader index_manifests manifest_document config_document).
Abbreviation load_images :=
  (load_images downloader index_manifests manifest_document config_document).
Abbreviation calculate_size :=
  (calculate_size get_arch application_runtime downloader index_manifests
     manifest_document config_document).
Abbreviation download :=
  (download get_arch application_runtime downloader index_manifests
     manifest_document config_document).

(** X10: sizing only reads: however [calculate_size] ends, it has
    written no file, created no directory and reported no progress. *)
Theorem calculate_size_reads_only (refs : list string) (st st' : state)
    (r : res (Z * Z)) :
  calculate_size refs st = (st', r) →
  files st' = files st ∧ directories st' = directories st ∧ reported st' = reported st.
Proof.
  apply (kept_by_calculate_size get_arch application_runtime downloader
           index_manifests manifest_document config_document quiet);
    by intros.
Qed.

(** X11: however the methods end, the state has only grown: the URL is
    the same, the requests and the progress messages made before are
    the first of those made, every file, directory and cached blob that
    was there is there, and a catalog that was loaded is the catalog. *)
Theorem methods_only_grow (refs : list string) (download_location : string)
    (progress : bool) (st st' : state) :
  (∀ r, _images st = (st', r) → grows st st')
  ∧ (∀ r, calculate_size refs st = (st', r) → grows st st')
  ∧ (∀ r, download refs download_location progress st = (st', r) → grows st st').
Proof.
  split_and!; intros r.
  - apply (kept_by_images downloader index_manifests manifest_document
             config_document grows grows_request grows_store grows_catalog).
  - apply (kept_by_calculate_size get_arch application_runtime downloader
             index_manifests manifest_document config_document grows grows_request
             grows_store grows_catalog).
  - apply (kept_by_download get_arch application_runtime downloader index_manifests
             manifest_document config_document grows grows_request grows_store
             grows_catalog grows_makedirs grows_write grows_report).
Qed.

End StateFurther.

Lemma calculate_size_reads_only_witness :
  let st := FlatpakStaticSource.init example_url in
  let st' := (example_calculate_size example_url ["app/org.example.Foo//stable"] st).1 in
  FlatpakStaticSource.files st' = FlatpakStaticSource.files st
  ∧ FlatpakStaticSource.directories st' = FlatpakStaticSource.directories st
  ∧ FlatpakStaticSource.reported st' = FlatpakStaticSource.reported st.
Proof.
  intros st st'.
  apply (calculate_size_reads_only "x86_64" ConfigParser.application_runtime
           (example_downloader example_url) example_index example_manifest
           example_config ["app/org.example.Foo//stable"] st st'
           (example_calculate_size example_url ["app/org.example.Foo//stable"] st).2).
  apply surjective_pairing.
Defined.

Lemma methods_only_grow_witness :
  let st := FlatpakStaticSource.init example_url in
  grows st (example_images example_url st).1
  ∧ grows st (example_calculate_size example_url ["app/org.example.Foo//stable"] st).1
  ∧ grows st (example_download example_url ["app/org.example.Foo//stable"] "/tmp/dl"
                true st).1.
Proof.
  intros st. split_and!.
  - apply (proj1 (methods_only_grow "x86_64" ConfigParser.application_runtime
                    (example_downloader example_url) example_index example_manifest
                    example_config [] "/tmp/dl" true st _)
             (example_images example_url st).2).
    apply surjective_pairing.
  - apply (proj1 (proj2 (methods_only_grow "x86_64" ConfigParser.application_runtime
                    (example_downloader example_url) example_index example_manifest
                    example_config ["app/org.example.Foo//stable"] "/tmp/dl" true st _))
             (example_calculate_size example_url ["app/org.example.Foo//stable"] st).2).
    apply surjective_pairing.
  - apply (proj2 (proj2 (methods_only_grow "x86_64" ConfigParser.application_runtime
                    (example_downloader example_url) example_index example_manifest
                    example_config ["app/org.example.Foo//stable"] "/tmp/dl" true st _))
             (example_download example_url ["app/org.example.Foo//stable"] "/tmp/dl"
                true st).2).
    apply surjective_pairing.
Defined.

(** ** The catalog, the blobs and the sizes of the static source *)

Section StaticFurther.
Import FlatpakStaticSource.

Variable get_arch : string.
Variable application_runtime : string → ConfigParser.outcome.
Variable downloader : string → Response.
Variable index_manifests : string → option (list IndexEntry).
Variable manifest_document : string → option Manifest.
Variable config_document : string → option (gmap string string).

Abbreviation _images :=
  (_images downloader index_manifests manifest_document config_document).
Abbreviation load_images :=
  (load_images downloader index_manifests manifest_document config_document).
Abbreviation load_image :=
  (load_image downloader manifest_document config_document).
Abbreviation _get_blob := (_get_blob downloader).
Abbreviation _download_blob := (_download_blob downloader).
Abbreviation calculate_size :=
  (calculate_size get_arch application_runtime downloader index_manifests
     manifest_document config_document).
Abbreviation download :=
  (download get_arch application_runtime downloader index_manifests
     manifest_document config_document).

Lemma images_run (st : state) :
  _images_cache st = None →
  _images st
  = match load_images st with
    | (st1, Ok images) =>
        (State (_url st1) (_cached_blobs st1) (Some images) (requests st1) (files st1)
               (directories st1) (reported st1), Ok images)
    | (st1, Raise e) => (st1, Raise e)
    end.
Proof.
  intros Hnone. unfold FlatpakStaticSource._images. rewrite run_bind.
  change (get_state st) with (st, Ok st). cbv beta iota. rewrite Hnone.
  rewrite run_bind. by destruct (load_images st) as [st1 [images|e]].
Qed.

Lemma images_loaded (st : state) (images : list StaticSourceImage) :
  _images_cache st = Some images → _images st = (st, Ok images).
Proof.
  intros Hsome. unfold FlatpakStaticSource._images. rewrite run_bind.
  change (get_state st) with (st, Ok st). cbv beta iota. by rewrite Hsome.
Qed.

(** X12: the catalog is loaded once.  When [_images] returns a list, the
    instance holds that list, and every later access returns it and
    leaves the state as it is: no request is made again. *)
Theorem images_loaded_once (st st' : state) (images : list StaticSourceImage) :
  _images st = (st', Ok images) →
  _images_cache st' = Some images ∧ _images st' = (st', Ok images).
Proof.
  intros Himages.
  assert (_images_cache st' = Some images) as Hcache.
  { destruct (_images_cache st) as [cached|] eqn:Hst.
    - rewrite (images_loaded _ _ Hst) in Himages. by injection Himages as <- <-.
    - rewrite (images_run _ Hst) in Himages.
      destruct (load_images st) as [st1 [loaded|e]]; [|done].
      by injection Himages as <- <-. }
  split; [done|by apply images_loaded].
Qed.

Lemma load_images_requests (st st' : state) (r : res (list StaticSourceImage)) :
  load_images st = (st', r) →
  (requests st ++ [_url st +:+ "/index.json"]) `prefix_of` requests st'.
Proof.
  unfold FlatpakStaticSource.load_images. rewrite run_bind.
  change (get_state st) with (st, Ok st). cbv beta iota zeta.
  rewrite run_bind. unfold request at 1. cbv beta iota.
  set (st1 := State _ _ _ _ _ _ _).
  change (requests st ++ _) with (requests st1).
  intros Hrest.
  
  
  enough (grows st1 st') as (_ & Hreq & _) by done.
  revert Hrest. generalize st1 st' r. clear st1.
  change (maintains grows
            (if bool_decide (status_code (downloader (_url st +:+ "/index.json")) = 404)
             then raise (NoSourceError ("No source found at " +:+ (_url st +:+ "/index.json")))
             else raise_for_status (downloader (_url st +:+ "/index.json"));;
                  index_json ← json_loads index_manifests
                                 (content (downloader (_url st +:+ "/index.json")));
                  for_each load_image [] index_json)).
  unfold raise_for_status, json_loads, FlatpakStaticSource.load_image.
  repeat first
    [ apply (kept_by_get_json downloader grows grows_request grows_store)
    | state_step ].
Qed.

(** X13: a load that fails is not kept.  When [_images] raises, the
    instance still has no catalog, and the next access asks for the
    index again. *)
Theorem images_failure_not_kept (st st' : state) (e : exn) :
  _images st = (st', Raise e) →
  _images_cache st' = None
  ∧ ∀ st'' r, _images st' = (st'', r) →
      (requests st' ++ [_url st +:+ "/index.json"]) `prefix_of` requests st''.
Proof.
  intros Himages.
  destruct (_images_cache st) as [cached|] eqn:Hst;
    [by rewrite (images_loaded _ _ Hst) in Himages|].
  rewrite (images_run _ Hst) in Himages.
  destruct (load_images st) as [st1 [loaded|e1]] eqn:Hload; [done|].
  injection Himages as -> ->.
  assert (_images_cache st' = None) as Hnone
    by (by rewrite (load_images_same_catalog _ _ _ _ _ _ _ Hload)).
  split; [done|]. intros st'' r. rewrite (images_run _ Hnone).
  assert (_url st' = _url st) as <-.
  { apply (kept_by_load_images downloader index_manifests manifest_document
             config_document grows grows_request grows_store) in Hload;
      apply Hload. }
  destruct (load_images st') as [st2 [loaded|e2]] eqn:Hagain;
    intros [= <- _]; by apply load_images_requests in Hagain.
Qed.

Lemma load_image_digest (acc acc' : list StaticSourceImage) (entry : IndexEntry)
    (st st' : state) :
  load_image acc entry st = (st', Ok acc') →
  digest <$> acc' = (digest <$> acc) ++ option_list (manifest_digest entry)
  ∧ (mediaType entry = Some manifest_media_type → is_Some (entry_digest entry)).
Proof.
  unfold FlatpakStaticSource.load_image, manifest_digest.
  case_bool_decide as Htype.
  - destruct (entry_digest entry) as [d|]; [|done].
    intros (m & st1 & _ & Hrest)%bind_Ok.
    apply bind_Ok in Hrest as (c & st2 & _ & [= _ <-]).
    by rewrite fmap_app.
  - intros [= _ <-]. by rewrite app_nil_r.
Qed.

Lemma load_images_digests (entries : list IndexEntry) (acc images : list StaticSourceImage)
    (st st' : state) :
  for_each load_image acc entries st = (st', Ok images) →
  digest <$> images = (digest <$> acc) ++ omap manifest_digest entries
  ∧ Forall (λ entry, mediaType entry = Some manifest_media_type →
                     is_Some (entry_digest entry)) entries.
Proof.
  revert acc st. induction entries as [|entry entries IH]; intros acc st.
  - intros [= _ <-]. by rewrite app_nil_r.
  - change (for_each load_image acc (entry :: entries))
      with (load_image acc entry ≫= λ acc', for_each load_image acc' entries).
    intros (mid & st1 & [Hmid Hentry]%load_image_digest & [Himages Hrest]%IH)%bind_Ok.
    split; [|by constructor].
    rewrite Himages, Hmid, <- app_assoc. f_equal. simpl.
    by destruct (manifest_digest entry).
Qed.

(** X14: the catalog follows the index.  When [_images] loads a catalog,
    the index document has a list of manifests; the images of the
    catalog are, in the order of the index, those of its entries that
    have the media type of an image manifest, each with the digest of
    its entry; and every such entry has a digest. *)
Theorem images_follow_index (st st' : state) (images : list StaticSourceImage) :
  _images_cache st = None →
  _images st = (st', Ok images) →
  ∃ entries,
    index_manifests (content (downloader (_url st +:+ "/index.json"))) = Some entries
    ∧ digest <$> images = omap manifest_digest entries
    ∧ Forall (λ entry, mediaType entry = Some manifest_media_type →
                       is_Some (entry_digest entry)) entries.
Proof.
  intros Hnone. rewrite (images_run _ Hnone).
  destruct (load_images st) as [st1 [loaded|e]] eqn:Hload; [|done].
  intros [= _ <-]. revert Hload.
  unfold FlatpakStaticSource.load_images. rewrite run_bind.
  change (get_state st) with (st, Ok st). cbv beta iota zeta.
  rewrite run_bind. unfold request at 1. cbv beta iota.
  case_bool_decide; [done|].
  intros ([] & st2 & _ & Hrest)%bind_Ok.
  apply bind_Ok in Hrest as (entries & st3 & Hindex & Hloop).
  exists entries. unfold json_loads in Hindex.
  destruct (index_manifests _) as [decoded|]; [|done].
  injection Hindex as _ ->. split; [done|].
  by apply load_images_digests in Hloop.
Qed.

(** X15: sizes can be asked again.  When [calculate_size] has returned,
    asking again for the same references returns the same sizes and
    leaves the state as it is, and asking for any references leaves the
    state as it is: no request is made. *)
Theorem calculate_size_again (refs : list string) (st st' : state) (sizes : Z * Z) :
  calculate_size refs st = (st', Ok sizes) →
  calculate_size refs st' = (st', Ok sizes)
  ∧ ∀ refs', (calculate_size refs' st').1 = st'.
Proof.
  intros Hsize.
  assert (∃ images, _images st = (st', Ok images)) as [images Himages].
  { apply bind_Ok in Hsize as (expanded & st1 & Hexp & Hrest).
    apply (expand_refs_Ok get_arch application_runtime) in Hexp as (images & Himages & _).
    apply bind_Ok in Hrest as (images' & st2 & Himages' & Hrest).
    rewrite (images_cached _ _ _ _ _ _ _ Himages) in Himages'.
    injection Himages' as <- <-.
    apply bind_Ok in Hrest as (? & st3 & [= <- _] & [-> _]%lift_Ok).
    by exists images. }
  pose proof (images_cached _ _ _ _ _ _ _ Himages) as Hagain.
  split.
  - destruct (FlatpakSource.canonicalize_refs get_arch refs) as [canon|e] eqn:Hcanon.
    + rewrite (calculate_size_run _ _ _ _ _ _ _ _ _ _ _ Hcanon Himages) in Hsize.
      rewrite (calculate_size_run _ _ _ _ _ _ _ _ _ _ _ Hcanon Hagain).
      rewrite (images_same_url _ _ _ _ _ _ _ Himages). by injection Hsize as ->.
    + unfold FlatpakStaticSource.calculate_size, FlatpakStaticSource._expand_refs in Hsize.
      rewrite !run_bind in Hsize. unfold lift at 1 in Hsize. by rewrite Hcanon in Hsize.
  - intros refs'.
    destruct (FlatpakSource.canonicalize_refs get_arch refs') as [canon|e] eqn:Hcanon.
    + by rewrite (calculate_size_run _ _ _ _ _ _ _ _ _ _ _ Hcanon Hagain).
    + unfold FlatpakStaticSource.calculate_size, FlatpakStaticSource._expand_refs.
      rewrite !run_bind. unfold lift at 1. by rewrite Hcanon.
Qed.

(** X16: a reference that cannot be parsed is found before the source is
    touched: [calculate_size], and [download] from a remote source,
    raise the error with the state as it was, so without a request. *)
Theorem malformed_reference_first (refs : list string) (r download_location : string)
    (progress : bool) (st : state) :
  r ∈ refs →
  length (Py.split "/" (path_part r)) ≠ 4%nat →
  calculate_size refs st = (st, Raise (RuntimeError "Can't parse reference"))
  ∧ (_is_local st = false →
     download refs download_location progress st
     = (st, Raise (RuntimeError "Can't parse reference"))).
Proof.
  intros Hr Hlen.
  pose proof (canonicalize_refs_malformed get_arch refs r Hr Hlen) as Hcanon.
  split.
  - unfold FlatpakStaticSource.calculate_size, FlatpakStaticSource._expand_refs.
    rewrite !run_bind. unfold lift at 1. by rewrite Hcanon.
  - intros Hremote. unfold FlatpakStaticSource.download. rewrite run_bind.
    change (get_state st) with (st, Ok st). cbv beta iota zeta. rewrite Hremote.
    unfold FlatpakStaticSource._expand_refs.
    rewrite !run_bind. unfold lift at 1. by rewrite Hcanon.
Qed.

(** X17: nothing requested, nothing needed.  For the catalog of a
    registry, whose images hold their labels, the expansion of no
    reference is empty and the source needs no space, whatever the
    labels of the images are: no size and no metadata is read. *)
Theorem nothing_requested (registry : list RegistrySourceImage) :
  FlatpakSource._expand_refs get_arch application_runtime registry [] = Ok []
  ∧ FlatpakRegistrySource.calculate_size get_arch application_runtime registry []
    = Ok (0, 0).
Proof.
  split.
  - apply expand_refs_nil.
  - apply registry_calculate_size_of_nothing.
Qed.

Lemma get_blob_quiet (digest : string) (st st' : state) (r : res string) :
  _get_blob digest st = (st', r) → quiet st st'.
Proof. apply (kept_by_get_blob downloader quiet); by intros. Qed.

Lemma download_blob_Ok_files (download_location digest : string) (stream : bool)
    (st st' : state) (n : Z) :
  _download_blob download_location digest stream st = (st', Ok n) →
  ∃ body,
    n = Py.len body
    ∧ files st' = <[blob_path download_location digest := Bytes body]> (files st)
    ∧ directories st'
      = {[Py.path_join download_location "blobs/sha256/"]} ∪ directories st.
Proof.
  unfold FlatpakStaticSource._download_blob, blob_path.
  destruct (negb _); [done|]. cbv zeta.
  intros ([] & st1 & Hdirs & Hrest)%bind_Ok.
  apply bind_Ok in Hrest as ([] & st2 & Hopen & Hrest).
  unfold makedirs, modify in Hdirs. injection Hdirs as <-.
  unfold write_file at 1, modify in Hopen. injection Hopen as <-.
  destruct stream.
  - apply bind_Ok in Hrest as (url & st3 & Hurl & Hrest).
    apply bind_Ok in Hrest as (response & st4 & Hresponse & Hrest).
    apply bind_Ok in Hrest as ([] & st5 & Hstatus & Hrest).
    apply bind_Ok in Hrest as ([] & st6 & Hwrite & [= <- <-]).
    unfold _blob_url in Hurl. destruct (negb _); [done|].
    injection Hurl as <- <-. unfold request in Hresponse. injection Hresponse as <- <-.
    unfold raise_for_status in Hstatus. destruct (_ && _); [done|].
    injection Hstatus as <-. unfold write_file, modify in Hwrite. injection Hwrite as <-.
    eexists. split; [done|]. simpl. by rewrite insert_insert_eq.
  - apply bind_Ok in Hrest as (blob & st3 & Hblob & Hrest).
    apply bind_Ok in Hrest as ([] & st4 & Hwrite & [= <- <-]).
    unfold write_file, modify in Hwrite. injection Hwrite as <-.
    apply get_blob_quiet in Hblob as (Hfiles & Hdirs & _).
    exists blob. split; [done|]. simpl. rewrite Hfiles, Hdirs. simpl.
    by rewrite insert_insert_eq.
Qed.

(** X18: a blob that was downloaded is in its file.  When
    [_download_blob] returns, the directory of the blobs is there, the
    file of the blob holds a body, the number returned is the length of
    that body, and no other file has changed. *)
Theorem download_blob_written (download_location digest : string) (stream : bool)
    (st st' : state) (n : Z) :
  _download_blob download_location digest stream st = (st', Ok n) →
  ∃ body,
    n = Py.len body
    ∧ files st' = <[blob_path download_location digest := Bytes body]> (files st)
    ∧ directories st'
      = {[Py.path_join download_location "blobs/sha256/"]} ∪ directories st.
Proof. apply download_blob_Ok_files. Qed.

(** X19: a download that fails leaves an empty file.  A digest without
    the prefix of SHA-256 is refused before anything is touched.
    Otherwise, the downloader answering and the file system taking the
    writes, the only error of [_download_blob] is the HTTP error of the
    request, and then the file of the blob has been created, or
    emptied, and is left with nothing in it. *)
Theorem download_blob_failed (download_location digest : string) (stream : bool)
    (st st' : state) (e : exn) :
  _download_blob download_location digest stream st = (st', Raise e) →
  (Py.startswith "sha256:" digest = false ∧ e = AssertionError ∧ st' = st)
  ∨ (Py.startswith "sha256:" digest = true
     ∧ e = HTTPError (status_code (downloader (blob_url (_url st) digest)))
     ∧ files st'
       = <[blob_path download_location digest := Bytes EmptyString]> (files st)
     ∧ directories st'
       = {[Py.path_join download_location "blobs/sha256/"]} ∪ directories st).
Proof.
  unfold FlatpakStaticSource._download_blob, blob_path.
  destruct (Py.startswith "sha256:" digest) eqn:Hprefix; cbv [negb]; cbv iota zeta;
    [|intros [= <- <-]; by left].
  intros Hrun. right. split; [done|]. revert Hrun.
  rewrite run_bind. unfold makedirs at 1, modify at 1. cbv beta iota.
  rewrite run_bind. unfold write_file at 1, modify at 1. cbv beta iota.
  set (st2 := State _ _ _ _ _ _ _).
  destruct stream.
  - rewrite run_bind. unfold _blob_url. rewrite Hprefix. cbv [negb]. cbv iota.
    rewrite run_bind. change (get_state st2) with (st2, Ok st2). cbv beta iota.
    unfold mret at 1, M_ret at 1. cbv beta iota.
    rewrite run_bind. unfold request at 1. cbv beta iota.
    rewrite run_bind. unfold raise_for_status.
    destruct (_ && _).
    + by intros [= <- <-].
    + cbv [mret M_ret]. cbv beta iota. rewrite run_bind.
      unfold write_file, modify. cbv beta iota. done.
  - rewrite run_bind.
    destruct (get_blob_cases digest st2) as [(blob & Hblob & Hne)|Hmiss].
    + rewrite (get_blob_hit _ _ _ _ Hblob Hne). cbv beta iota.
      rewrite run_bind. unfold write_file, modify. done.
    + rewrite (get_blob_miss _ _ _ Hmiss). rewrite Hprefix. cbv [negb]. cbv iota zeta.
      unfold http_error. destruct (_ && _).
      * by intros [= <- <-].
      * cbv beta iota. rewrite run_bind. unfold write_file, modify. done.
Qed.

(** X20: an error is not cached.  When [_get_blob] raises, the cache is
    as it was; either the digest lacks the prefix of SHA-256 and nothing
    was requested, or the request for the blob was made and answered
    with the error status that is raised. *)
Theorem get_blob_errors (digest : string) (st st' : state) (e : exn) :
  _get_blob digest st = (st', Raise e) →
  _cached_blobs st' = _cached_blobs st
  ∧ ((Py.startswith "sha256:" digest = false ∧ e = AssertionError ∧ st' = st)
     ∨ (Py.startswith "sha256:" digest = true
        ∧ e = HTTPError (status_code (downloader (blob_url (_url st) digest)))
        ∧ requests st' = requests st ++ [blob_url (_url st) digest])).
Proof.
  destruct (get_blob_cases digest st) as [(blob & Hblob & Hne)|Hmiss].
  - by rewrite (get_blob_hit _ _ _ _ Hblob Hne).
  - rewrite (get_blob_miss _ _ _ Hmiss).
    destruct (Py.startswith "sha256:" digest); cbv [negb]; cbv iota zeta.
    + destruct (http_error _); [|done]. intros [= <- <-]. split; [done|]. by right.
    + intros [= <- <-]. split; [done|]. by left.
Qed.

(** X21: layers are always fetched, manifests and configs are taken from
    the cache.  A streamed download makes its request whatever the
    cache holds, and leaves the cache as it is; a download that is not
    streamed, of a blob that the cache holds with a body, makes no
    request and returns the length of that body. *)
Theorem download_blob_requests (download_location digest : string) (stream : bool)
    (st st' : state) (r : res Z) :
  Py.startswith "sha256:" digest = true →
  _download_blob download_location digest stream st = (st', r) →
  (stream = true →
   requests st' = requests st ++ [blob_url (_url st) digest]
   ∧ _cached_blobs st' = _cached_blobs st)
  ∧ (stream = false →
     ∀ blob, _cached_blobs st !! digest = Some blob → blob ≠ EmptyString →
       requests st' = requests st ∧ _cached_blobs st' = _cached_blobs st
       ∧ r = Ok (Py.len blob)).
Proof.
  intros Hprefix.
  unfold FlatpakStaticSource._download_blob.
  rewrite Hprefix. cbv [negb]. cbv iota zeta.
  rewrite run_bind. unfold makedirs at 1, modify at 1. cbv beta iota.
  rewrite run_bind. unfold write_file at 1, modify at 1. cbv beta iota.
  set (st2 := State _ _ _ _ _ _ _).
  destruct stream.
  - rewrite run_bind. unfold _blob_url. rewrite Hprefix. cbv [negb]. cbv iota.
    rewrite run_bind. change (get_state st2) with (st2, Ok st2). cbv beta iota.
    unfold mret at 1, M_ret at 1. cbv beta iota.
    rewrite run_bind. unfold request at 1. cbv beta iota.
    rewrite run_bind. unfold raise_for_status.
    intros Hrun. split; [intros _|done]. revert Hrun.
    destruct (_ && _).
    + by intros [= <- _].
    + cbv [mret M_ret]. cbv beta iota. rewrite run_bind.
      unfold write_file, modify. cbv beta iota. by intros [= <- _].
  - intros Hrun. split; [done|intros _ blob Hblob Hne]. revert Hrun.
    rewrite run_bind.
    rewrite (get_blob_hit downloader digest blob st2 Hblob Hne). cbv beta iota.
    rewrite run_bind. unfold write_file, modify. cbv beta iota.
    cbv [mret M_ret]. by intros [= <- <-].
Qed.

Lemma append_assoc (s t u : string) : (s +:+ t) +:+ u = s +:+ (t +:+ u).
Proof.
  induction s as [|a s IH]; [done|].
  change ((String a s +:+ t) +:+ u) with (String a ((s +:+ t) +:+ u)). by rewrite IH.
Qed.

Lemma endswith_app (c : ascii) (s t : string) :
  t ≠ EmptyString → Py.endswith c (s +:+ t) = Py.endswith c t.
Proof.
  intros Ht. induction s as [|a s IH]; [done|].
  change (String a s +:+ t) with (String a (s +:+ t)). simpl.
  destruct (s +:+ t) as [|b u] eqn:Hst; [|done].
  destruct s; [|done]. by destruct t.
Qed.

(** X22: where a blob is written.  The file of a blob is the directory
    of the blobs followed by the part of the digest after its prefix,
    and so under the download location, unless that part begins with a
    slash: then it is that part itself, wherever it points. *)
Theorem blob_path_cases (download_location digest : string) :
  (Py.startswith "/" (Py.drop 7 digest) = false →
   blob_path download_location digest
   = Py.path_join download_location "blobs/sha256/" +:+ Py.drop 7 digest
   ∧ Py.startswith download_location (blob_path download_location digest) = true)
  ∧ (Py.startswith "/" (Py.drop 7 digest) = true →
     blob_path download_location digest = Py.drop 7 digest).
Proof.
  unfold blob_path.
  assert (Py.endswith "/" (Py.path_join download_location "blobs/sha256/") = true) as Hdir.
  { unfold Py.path_join. change (Py.startswith "/" "blobs/sha256/") with false.
    cbv iota. destruct (_ || _); by rewrite ?endswith_app. }
  split; intros Hhex.
  - assert (Py.path_join (Py.path_join download_location "blobs/sha256/")
              (Py.drop 7 digest)
            = Py.path_join download_location "blobs/sha256/" +:+ Py.drop 7 digest) as ->.
    { unfold Py.path_join at 1. rewrite Hhex, Hdir. by rewrite orb_true_r. }
    split; [done|].
    unfold Py.path_join. change (Py.startswith "/" "blobs/sha256/") with false.
    cbv iota. destruct (_ || _); rewrite append_assoc; apply startswith_app.
  - unfold Py.path_join at 1. by rewrite Hhex.
Qed.

Lemma download_blob_grows (download_location digest : string) (stream : bool) :
  maintains grows (_download_blob download_location digest stream).
Proof.
  apply (kept_by_download_blob downloader grows grows_request grows_store
           grows_makedirs grows_write).
Qed.

Lemma layers_grow (download_location : string) (layers : list Layer) :
  maintains grows
    (for_each (λ (_ : ()) layer,
                 _download_blob download_location (layer_digest layer) true;;
                 mret ())
              () layers).
Proof. repeat first [apply download_blob_grows | state_step]. Qed.

Lemma grows_files (st st' : state) (path : string) :
  grows st st' → path ∈ dom (files st) → path ∈ dom (files st').
Proof. intros (_ & _ & _ & Hfiles & _). set_solver. Qed.

Lemma download_blob_file (download_location digest : string) (stream : bool)
    (st st' : state) (n : Z) :
  _download_blob download_location digest stream st = (st', Ok n) →
  blob_path download_location digest ∈ dom (files st').
Proof.
  intros (body & _ & -> & _)%download_blob_Ok_files. set_solver.
Qed.

Lemma layers_written (download_location : string) (layers : list Layer)
    (st st' : state) :
  for_each (λ (_ : ()) layer,
              _download_blob download_location (layer_digest layer) true;;
              mret ())
           () layers st
  = (st', Ok ()) →
  ∀ layer, layer ∈ layers →
    blob_path download_location (layer_digest layer) ∈ dom (files st').
Proof.
  revert st. induction layers as [|layer0 layers IH]; intros st Hrun layer Hin;
    [by apply elem_of_nil in Hin|].
  apply bind_Ok in Hrun as ([] & st1 & Hfirst & Hrest).
  apply elem_of_cons in Hin as [->|Hin]; [|by apply (IH st1 Hrest layer)].
  apply bind_Ok in Hfirst as (n & st0 & Hblob%download_blob_file & [= <-]).
  by apply (grows_files st0 st'); [apply (layers_grow _ _ _ _ _ Hrest)|].
Qed.

Lemma download_image_grows (download_location : string) (progress : bool)
    (expanded_refs : list string) (manifests : list ManifestEntry)
    (image : StaticSourceImage) :
  maintains grows
    (download_image downloader download_location progress expanded_refs manifests image).
Proof.
  unfold download_image, report_progress.
  repeat first [apply download_blob_grows | apply grows_report | state_step].
Qed.

Lemma download_image_written (download_location : string) (progress : bool)
    (expanded_refs : list string) (manifests manifests' : list ManifestEntry)
    (image : StaticSourceImage) (st st' : state) :
  download_image downloader download_location progress expanded_refs manifests image st
  = (st', Ok manifests') →
  ref_in image expanded_refs = true →
  ∀ d, d ∈ blobs_of image → blob_path download_location d ∈ dom (files st').
Proof.
  unfold download_image. intros Hrun Href. rewrite Href in Hrun.
  apply bind_Ok in Hrun as ([] & st1 & _ & Hrest).
  apply bind_Ok in Hrest as (len & st2 & Hmanifest & Hrest).
  apply bind_Ok in Hrest as (n & st3 & Hconfig & Hrest).
  apply bind_Ok in Hrest as ([] & st4 & Hlayers & [= <- _]).
  pose proof (download_blob_grows _ _ _ _ _ _ Hconfig) as Hgrows23.
  pose proof (layers_grow _ _ _ _ _ Hlayers) as Hgrows34.
  intros d [->|[->|Hd]%elem_of_cons]%elem_of_cons.
  - apply (grows_files st3 st4), (grows_files st2 st3); [done..|].
    by apply download_blob_file in Hmanifest.
  - apply (grows_files st3 st4); [done|]. by apply download_blob_file in Hconfig.
  - apply list_elem_of_fmap in Hd as (layer & -> & Hlayer).
    by apply (layers_written _ _ _ _ Hlayers).
Qed.

Lemma download_images_written (download_location : string) (progress : bool)
    (expanded_refs : list string) (images : list StaticSourceImage)
    (manifests manifests' : list ManifestEntry) (st st' : state) :
  for_each (download_image downloader download_location progress expanded_refs)
           manifests images st
  = (st', Ok manifests') →
  ∀ image d, image ∈ included expanded_refs images → d ∈ blobs_of image →
    blob_path download_location d ∈ dom (files st').
Proof.
  revert manifests st. induction images as [|image0 images IH];
    intros manifests st Hrun image d Himage Hd; [by apply elem_of_nil in Himage|].
  apply bind_Ok in Hrun as (mid & st1 & Hfirst & Hrest).
  destruct (ref_in image0 expanded_refs) eqn:Href.
  - rewrite (included_cons_in _ _ _ Href) in Himage.
    apply elem_of_cons in Himage as [->|Himage]; [|by apply (IH mid st1 Hrest image d)].
    apply (grows_files st1 st').
    + revert Hrest. generalize st1 st' (Ok (A:=list ManifestEntry) manifests').
      change (maintains grows
                (for_each (download_image downloader download_location progress
                             expanded_refs) mid images)).
      repeat first [apply download_image_grows | state_step].
    + by apply (download_image_written _ _ _ _ _ _ _ _ Hfirst Href).
  - rewrite (included_cons_out _ _ _ Href) in Himage. by apply (IH mid st1 Hrest image d).
Qed.

(** X23: a download brings every blob.  When [download] from a remote
    source returns, the directory of the collection is there, and for
    every image of the catalog that the expansion of the references
    includes there is a file for its manifest, for its config and for
    each of its layers. *)
Theorem download_writes_blobs (refs : list string) (download_location : string)
    (progress : bool) (st st' : state) (result : string) :
  _is_local st = false →
  download refs download_location progress st = (st', Ok result) →
  Py.path_join download_location "Flatpaks" ∈ directories st'
  ∧ ∃ st1 images expanded,
      _images st = (st1, Ok images)
      ∧ FlatpakSource._expand_refs get_arch application_runtime images refs = Ok expanded
      ∧ ∀ image d, image ∈ included expanded images → d ∈ blobs_of image →
          is_Some (files st' !! blob_path download_location d).
Proof.
  intros Hremote. unfold FlatpakStaticSource.download. rewrite run_bind.
  change (get_state st) with (st, Ok st). cbv beta iota zeta. rewrite Hremote.
  intros (expanded & st1 & Hexp & Hrest)%bind_Ok.
  apply (expand_refs_Ok get_arch application_runtime) in Hexp as (images & Himages & Hexp).
  apply bind_Ok in Hrest as (images' & st2 & Himages' & Hrest).
  rewrite (images_cached _ _ _ _ _ _ _ Himages) in Himages'.
  injection Himages' as <- <-.
  apply bind_Ok in Hrest as (manifests & st3 & Hloop & Hrest).
  apply bind_Ok in Hrest as ([] & st4 & Hdirs & Hrest).
  apply bind_Ok in Hrest as ([] & st5 & Hindex & Hrest).
  apply bind_Ok in Hrest as ([] & st6 & Hlayout & [= <- _]).
  unfold makedirs, modify in Hdirs. injection Hdirs as <-.
  unfold write_file, modify in Hindex, Hlayout.
  injection Hindex as <-. injection Hlayout as <-.
  split; [simpl; set_solver|].
  exists st1, images, expanded. split_and!; [done..|].
  intros image d Himage Hd. simpl. rewrite !lookup_insert_is_Some'.
  right. right. apply elem_of_dom.
  apply (download_images_written _ _ _ _ _ _ _ _ Hloop image d Himage Hd).
Qed.

End StaticFurther.

Lemma images_loaded_once_witness :
  let st' := (example_images example_url (FlatpakStaticSource.init example_url)).1 in
  FlatpakStaticSource._images_cache st' = Some [example_foo; example_platform]
  ∧ example_images example_url st' = (st', Ok [example_foo; example_platform]).
Proof.
  intros st'.
  apply (images_loaded_once (example_downloader example_url) example_index
           example_manifest example_config (FlatpakStaticSource.init example_url)).
  vm_compute. reflexivity.
Defined.

Lemma images_failure_not_kept_witness :
  let st := FlatpakStaticSource.init example_url in
  let st' := FlatpakStaticSource.State example_url ∅ None [example_url +:+ "/index.json"]
               ∅ ∅ [] in
  FlatpakStaticSource._images_cache st' = None
  ∧ ∀ st'' r,
      FlatpakStaticSource._images (status_downloader 503) example_index example_manifest
        example_config st' = (st'', r) →
      (FlatpakStaticSource.requests st' ++ [example_url +:+ "/index.json"])
        `prefix_of` FlatpakStaticSource.requests st''.
Proof.
  intros st st'.
  apply (images_failure_not_kept (status_downloader 503) example_index example_manifest
           example_config st st' (HTTPError 503)).
  vm_compute. reflexivity.
Defined.

Lemma images_follow_index_witness :
  ∃ entries,
    example_index
      (content (example_downloader example_url (example_url +:+ "/index.json")))
    = Some entries
    ∧ digest <$> [example_foo; example_platform] = omap manifest_digest entries
    ∧ Forall (λ entry, mediaType entry = Some manifest_media_type →
                       is_Some (entry_digest entry)) entries.
Proof.
  apply (images_follow_index (example_downloader example_url) example_index
           example_manifest example_config (FlatpakStaticSource.init example_url)
           (example_images example_url (FlatpakStaticSource.init example_url)).1).
  - reflexivity.
  - vm_compute. reflexivity.
Defined.

Lemma calculate_size_again_witness :
  let st' := (example_calculate_size example_url ["app/org.example.Foo//stable"]
                (FlatpakStaticSource.init example_url)).1 in
  example_calculate_size example_url ["app/org.example.Foo//stable"] st'
  = (st', Ok (1200, 7000))
  ∧ ∀ refs', (example_calculate_size example_url refs' st').1 = st'.
Proof.
  intros st'.
  apply (calculate_size_again "x86_64" ConfigParser.application_runtime
           (example_downloader example_url) example_index example_manifest
           example_config ["app/org.example.Foo//stable"]
           (FlatpakStaticSource.init example_url)).
  vm_compute. reflexivity.
Defined.

Lemma malformed_reference_first_witness :
  let st := FlatpakStaticSource.init example_url in
  example_calculate_size example_url ["app/org.example.Foo//stable"; "org.example.Foo"] st
  = (st, Raise (RuntimeError "Can't parse reference"))
  ∧ (FlatpakStaticSource._is_local st = false →
     example_download example_url ["app/org.example.Foo//stable"; "org.example.Foo"]
       "/tmp/dl" true st
     = (st, Raise (RuntimeError "Can't parse reference"))).
Proof.
  intros st.
  apply (malformed_reference_first "x86_64" ConfigParser.application_runtime
           (example_downloader example_url) example_index example_manifest
           example_config _ "org.example.Foo").
  - apply (bool_decide_unpack _). vm_compute. exact I.
  - vm_compute. discriminate.
Defined.

Lemma nothing_requested_witness :
  FlatpakSource._expand_refs "x86_64" ConfigParser.application_runtime
    [registry_foo; {| _labels := config_labels example_broken |}] [] = Ok []
  ∧ FlatpakRegistrySource.calculate_size "x86_64" ConfigParser.application_runtime
      [registry_foo; {| _labels := config_labels example_broken |}] [] = Ok (0, 0).
Proof.
  apply (nothing_requested "x86_64" ConfigParser.application_runtime
           [registry_foo; {| _labels := config_labels example_broken |}]).
Defined.

Lemma download_blob_written_witness :
  let st := FlatpakStaticSource.init example_url in
  let st' := (FlatpakStaticSource._download_blob (example_downloader example_url)
                "/tmp/dl" "sha256:f02" true st).1 in
  ∃ body,
    18 = Py.len body
    ∧ FlatpakStaticSource.files st'
      = <[blob_path "/tmp/dl" "sha256:f02" := Bytes body]> (FlatpakStaticSource.files st)
    ∧ FlatpakStaticSource.directories st'
      = {[Py.path_join "/tmp/dl" "blobs/sha256/"]} ∪ FlatpakStaticSource.directories st.
Proof.
  intros st st'.
  apply (download_blob_written (example_downloader example_url) "/tmp/dl" "sha256:f02"
           true st st' 18).
  vm_compute. reflexivity.
Defined.

Lemma download_blob_failed_witness :
  let st := FlatpakStaticSource.init example_url in
  let st' := (FlatpakStaticSource._download_blob (example_downloader example_url)
                "/tmp/dl" "sha256:fff" true st).1 in
  (Py.startswith "sha256:" "sha256:fff" = false ∧ HTTPError 404 = AssertionError ∧ st' = st)
  ∨ (Py.startswith "sha256:" "sha256:fff" = true
     ∧ HTTPError 404
       = HTTPError (status_code (example_downloader example_url
                                   (blob_url example_url "sha256:fff")))
     ∧ FlatpakStaticSource.files st'
       = <[blob_path "/tmp/dl" "sha256:fff" := Bytes EmptyString]>
           (FlatpakStaticSource.files st)
     ∧ FlatpakStaticSource.directories st'
       = {[Py.path_join "/tmp/dl" "blobs/sha256/"]} ∪ FlatpakStaticSource.directories st).
Proof.
  intros st st'.
  apply (download_blob_failed (example_downloader example_url) "/tmp/dl" "sha256:fff"
           true st st' (HTTPError 404)).
  vm_compute. reflexivity.
Defined.

Lemma get_blob_errors_witness :
  let st := FlatpakStaticSource.init example_url in
  let st' := (FlatpakStaticSource._get_blob (example_downloader example_url)
                "sha256:fff" st).1 in
  FlatpakStaticSource._cached_blobs st' = FlatpakStaticSource._cached_blobs st
  ∧ ((Py.startswith "sha256:" "sha256:fff" = false ∧ HTTPError 404 = AssertionError
      ∧ st' = st)
     ∨ (Py.startswith "sha256:" "sha256:fff" = true
        ∧ HTTPError 404
          = HTTPError (status_code (example_downloader example_url
                                      (blob_url example_url "sha256:fff")))
        ∧ FlatpakStaticSource.requests st'
          = FlatpakStaticSource.requests st ++ [blob_url example_url "sha256:fff"])).
Proof.
  intros st st'.
  apply (get_blob_errors (example_downloader example_url) "sha256:fff" st st'
           (HTTPError 404)).
  vm_compute. reflexivity.
Defined.

Lemma download_blob_requests_witness :
  let st' := (FlatpakStaticSource._download_blob (example_downloader example_url)
                "/tmp/dl" "sha256:f00" false example_cached).1 in
  FlatpakStaticSource.requests st' = FlatpakStaticSource.requests example_cached
  ∧ FlatpakStaticSource._cached_blobs st'
    = FlatpakStaticSource._cached_blobs example_cached
  ∧ (FlatpakStaticSource._download_blob (example_downloader example_url)
       "/tmp/dl" "sha256:f00" false example_cached).2
    = Ok (Py.len "manifest of Foo").
Proof.
  intros st'.
  apply (proj2 (download_blob_requests (example_downloader example_url) "/tmp/dl"
                  "sha256:f00" false example_cached st' _ eq_refl
                  (surjective_pairing _)) eq_refl "manifest of Foo").
  - vm_compute. reflexivity.
  - discriminate.
Defined.

Lemma blob_path_cases_witness :
  (blob_path "/tmp/dl" "sha256:f02" = Py.path_join "/tmp/dl" "blobs/sha256/" +:+ "f02"
   ∧ Py.startswith "/tmp/dl" (blob_path "/tmp/dl" "sha256:f02") = true)
  ∧ blob_path "/tmp/dl" "sha256:/etc/f02" = "/etc/f02".
Proof.
  split.
  - apply (proj1 (blob_path_cases "/tmp/dl" "sha256:f02")). vm_compute. reflexivity.
  - apply (proj2 (blob_path_cases "/tmp/dl" "sha256:/etc/f02")). vm_compute. reflexivity.
Defined.

Lemma download_writes_blobs_witness :
  let st := FlatpakStaticSource.init example_url in
  let st' := (example_download example_url ["app/org.example.Foo//stable"] "/tmp/dl"
                true st).1 in
  Py.path_join "/tmp/dl" "Flatpaks" ∈ FlatpakStaticSource.directories st'
  ∧ ∃ st1 images expanded,
      example_images example_url st = (st1, Ok images)
      ∧ FlatpakSource._expand_refs "x86_64" ConfigParser.application_runtime images
          ["app/org.example.Foo//stable"] = Ok expanded
      ∧ ∀ image d, image ∈ included expanded images → d ∈ blobs_of image →
          is_Some (FlatpakStaticSource.files st' !! blob_path "/tmp/dl" d).
Proof.
  intros st st'.
  apply (download_writes_blobs "x86_64" ConfigParser.application_runtime
           (example_downloader example_url) example_index example_manifest
           example_config ["app/org.example.Foo//stable"] "/tmp/dl" true st st'
           ("oci:" +:+ Py.path_join "/tmp/dl" "Flatpaks")).
  - vm_compute. reflexivity.
  - vm_compute. reflexivity.
Defined.

(** ** The architecture of containers and the catalog of a registry *)

(** X24: the container architecture is the architecture of the machine
    unless that is x86_64 or aarch64, which have names of their own;
    the name it returns is kept when given again. *)
Theorem container_arch_names (arch : string) :
  (_get_container_arch arch = arch ↔ arch ≠ "x86_64" ∧ arch ≠ "aarch64")
  ∧ _get_container_arch (_get_container_arch arch) = _get_container_arch arch.
Proof.
  unfold _get_container_arch, _CONTAINER_ARCH_MAP.
  destruct (decide (arch = "x86_64")) as [->|Hx86].
  { split; [|done]. rewrite lookup_insert_eq. simpl. split; [done|by intros []]. }
  destruct (decide (arch = "aarch64")) as [->|Harm].
  { split; [|done]. split; [done|by intros []]. }
  rewrite !lookup_insert_ne, lookup_empty by done. simpl.
  by rewrite lookup_empty.
Qed.

Section RegistryFurther.

Variable get_arch : string.
Variable url_fragment : string → string.
Variable url_without_fragment_and_query : string → string.
Variable session_get : string → Response.
Variable index_results : string → option (list (list RegistryIndexImage)).

Abbreviation registry_index_url :=
  (registry_index_url get_arch url_fragment url_without_fragment_and_query).
Abbreviation registry_images :=
  (registry_images get_arch url_fragment url_without_fragment_and_query session_get
     index_results).

Lemma registry_images_of_repository (arch : string) (repository : list RegistryIndexImage)
    (result : list RegistrySourceImage) :
  foldl (λ result image,
           if bool_decide (Architecture image ≠ arch) then result
           else result ++ [Build_RegistrySourceImage (Labels image)])
        result repository
  = result ++ ((λ image, Build_RegistrySourceImage (Labels image))
                 <$> filter (λ image, Architecture image = arch) repository).
Proof.
  revert result. induction repository as [|image repository IH]; intros result.
  - by rewrite app_nil_r.
  - simpl. rewrite IH. case_bool_decide as Harch.
    + by rewrite filter_cons_False.
    + rewrite filter_cons_True by (by destruct (decide (Architecture image = arch))).
      by rewrite fmap_cons, <- app_assoc.
Qed.

Lemma registry_images_of_index (arch : string) (index : list (list RegistryIndexImage))
    (result : list RegistrySourceImage) :
  foldl (λ result repository,
           foldl (λ result image,
                    if bool_decide (Architecture image ≠ arch) then result
                    else result ++ [Build_RegistrySourceImage (Labels image)])
                 result repository)
        result index
  = result ++ ((λ image, Build_RegistrySourceImage (Labels image))
                 <$> filter (λ image, Architecture image = arch) (concat index)).
Proof.
  revert result. induction index as [|repository index IH]; intros result.
  - by rewrite app_nil_r.
  - simpl. rewrite IH, registry_images_of_repository.
    by rewrite filter_app, fmap_app, app_assoc.
Qed.

(** X25: the catalog of a registry.  The registry source returns a
    catalog exactly when the index is answered without an error status
    and can be decoded; the catalog then has, in the order of the index,
    the labels of the images of all repositories whose architecture is
    the container architecture of the machine.  Any error status, 404
    too, is raised as the HTTP error it is. *)
Theorem registry_catalog (url : string) (images : list RegistrySourceImage) :
  let response := session_get (registry_index_url url) in
  (registry_images url = Ok images ↔
   http_error (status_code response) = false
   ∧ ∃ index,
       index_results (content response) = Some index
       ∧ images
         = (λ image, Build_RegistrySourceImage (Labels image))
             <$> filter (λ image, Architecture image = _get_container_arch get_arch)
                        (concat index))
  ∧ (http_error (status_code response) = true →
     registry_images url = Raise (HTTPError (status_code response))).
Proof.
  intros response. unfold registry_images, http_error. fold response.
  destruct (_ && _).
  - split; [|done]. split; [done|by intros [? _]].
  - split; [|done]. destruct (index_results _) as [index|].
    + unfold registry_images_of. rewrite registry_images_of_index. simpl. split.
      * intros [= <-]. split; [done|]. by exists index.
      * intros [_ (index' & [= <-] & ->)]. done.
    + split; [done|]. by intros [_ (index & ? & _)].
Qed.

End RegistryFurther.

(** ** The environment of the payloads service *)

Lemma path_join_under (a b : string) :
  Py.startswith "/" b = false → Py.startswith a (Py.path_join a b) = true.
Proof.
  intros Hb. unfold Py.path_join. rewrite Hb. destruct (_ || _); apply startswith_app.
Qed.

(** X26: the environment the payloads service starts with has no
    [LD_PRELOAD]; the four locations of Flatpak are set to paths under
    the root of the target system; every other variable is as it was;
    and making the changes again changes nothing. *)
Theorem payloads_environ_changes (system_root : string) (environ : gmap string string) :
  let names := ["FLATPAK_DOWNLOAD_TMPDIR"; "FLATPAK_CONFIG_DIR";
                "FLATPAK_OS_CONFIG_DIR"; "FLATPAK_SYSTEM_DIR"] in
  let environ' := payloads_environ system_root environ in
  environ' !! "LD_PRELOAD" = None
  ∧ (∀ name, name ∈ names →
       ∃ value, environ' !! name = Some value
                ∧ Py.startswith system_root value = true)
  ∧ (∀ name, name ∉ "LD_PRELOAD" :: names → environ' !! name = environ !! name)
  ∧ payloads_environ system_root environ' = environ'.
Proof.
  intros names environ'.
  assert (environ' !! "LD_PRELOAD" = None) as Hpreload.
  { unfold environ', payloads_environ. cbv zeta.
    rewrite !lookup_insert_ne by done.
    case_bool_decide as Hin; [apply lookup_delete_eq|].
    by apply eq_None_not_Some. }
  split_and!.
  - done.
  - intros name Hname. unfold environ', payloads_environ. cbv zeta.
    repeat (apply elem_of_cons in Hname as [->|Hname]);
      [| | | |by apply elem_of_nil in Hname].
    all: eexists; split;
      [rewrite ?lookup_insert_ne by done; apply lookup_insert_eq
      |by apply path_join_under].
  - intros name Hname. unfold environ', payloads_environ. cbv zeta.
    unfold names in Hname. rewrite !not_elem_of_cons in Hname.
    destruct Hname as (? & ? & ? & ? & ? & _).
    rewrite !lookup_insert_ne by done.
    case_bool_decide; [by rewrite lookup_delete_ne|done].
  - unfold payloads_environ at 1. cbv zeta.
    rewrite bool_decide_eq_false_2 by (rewrite Hpreload; by intros [? ?]).
    unfold environ', payloads_environ. cbv zeta.
    apply map_eq. intros name.
    destruct (decide (name = "FLATPAK_SYSTEM_DIR")) as [->|?];
      [|destruct (decide (name = "FLATPAK_OS_CONFIG_DIR")) as [->|?];
        [|destruct (decide (name = "FLATPAK_CONFIG_DIR")) as [->|?];
          [|destruct (decide (name = "FLATPAK_DOWNLOAD_TMPDIR")) as [->|?]]]].
    all: repeat first [rewrite lookup_insert_eq | rewrite lookup_insert_ne by done].
    all: done.
Qed.

Lemma registry_catalog_witness :
  let index :=
    [ [ {| Architecture := "amd64"; Labels := config_labels example_foo |};
        {| Architecture := "arm64"; Labels := config_labels example_broken |} ];
      [ {| Architecture := "amd64"; Labels := config_labels example_platform |} ] ] in
  registry_images "x86_64" (λ _, EmptyString) (λ url, url) (status_downloader 404)
    (λ _, Some index) "oci+https://registry.example.org"
  = Raise (HTTPError 404)
  ∧ registry_images "x86_64" (λ _, EmptyString) (λ url, url) (status_downloader 200)
      (λ _, Some index) "oci+https://registry.example.org"
    = Ok [ {| _labels := config_labels example_foo |};
           {| _labels := config_labels example_platform |} ].
Proof.
  intros index. split.
  - apply (proj2 (registry_catalog "x86_64" (λ _, EmptyString) (λ url, url)
                    (status_downloader 404) (λ _, Some index)
                    "oci+https://registry.example.org" [])).
    vm_compute. reflexivity.
  - apply (proj1 (registry_catalog "x86_64" (λ _, EmptyString) (λ url, url)
                    (status_downloader 200) (λ _, Some index)
                    "oci+https://registry.example.org" _)).
    split; [vm_compute; reflexivity|].
    exists index. split; [reflexivity|]. vm_compute. reflexivity.
Defined.

Lemma payloads_environ_changes_witness :
  let environ : gmap string string :=
    <["LD_PRELOAD" := "libanaconda.so"]> (<["HOME" := "/root"]> ∅) in
  let environ' := payloads_environ "/mnt/sysroot" environ in
  environ' !! "LD_PRELOAD" = None
  ∧ (∃ value, environ' !! "FLATPAK_SYSTEM_DIR" = Some value
              ∧ Py.startswith "/mnt/sysroot" value = true)
  ∧ environ' !! "HOME" = environ !! "HOME"
  ∧ payloads_environ "/mnt/sysroot" environ' = environ'.
Proof.
  intros environ environ'.
  destruct (payloads_environ_changes "/mnt/sysroot" environ)
    as (Hpreload & Hset & Hother & Hagain).
  split_and!; [exact Hpreload| | |exact Hagain].
  - apply Hset. apply (bool_decide_unpack _). vm_compute. exact I.
  - apply Hother. apply (bool_decide_unpack _). vm_compute. exact I.
Defined.

Lemma container_arch_names_witness :
  _get_container_arch "riscv64" = "riscv64"
  ∧ _get_container_arch (_get_container_arch "x86_64") = _get_container_arch "x86_64".
Proof.
  split.
  - apply (proj2 (proj1 (container_arch_names "riscv64"))). split; discriminate.
  - apply (proj2 (container_arch_names "x86_64")).
Defined.

(** ** The progress messages of a download *)

Section DownloadFurther.
Import FlatpakStaticSource.

Variable get_arch : string.
Variable application_runtime : string → ConfigParser.outcome.
Variable downloader : string → Response.
Variable index_manifests : string → option (list IndexEntry).
Variable manifest_document : string → option Manifest.
Variable config_document : string → option (gmap string string).

Abbreviation _images :=
  (_images downloader index_manifests manifest_document config_document).
Abbreviation _download_blob := (_download_blob downloader).
Abbreviation download_image := (download_image downloader).
Abbreviation download :=
  (download get_arch application_runtime downloader index_manifests
     manifest_document config_document).

Lemma download_blob_silent (download_location digest : string) (stream : bool)
    (st st' : state) (r : res Z) :
  _download_blob download_location digest stream st = (st', r) →
  reported st' = reported st.
Proof.
  assert (Reflexive (λ st st' : state, reported st' = reported st)) by (by intros ?).
  assert (Transitive (λ st st' : state, reported st' = reported st))
    by (intros ???; congruence).
  apply (kept_by_download_blob downloader (λ st st', reported st' = reported st));
    by intros.
Qed.

Lemma layers_silent (download_location : string) (layers : list Layer)
    (st st' : state) (r : res ()) :
  for_each (λ (_ : ()) layer,
              _download_blob download_location (layer_digest layer) true;;
              mret ())
           () layers st
  = (st', r) →
  reported st' = reported st.
Proof.
  revert st. induction layers as [|layer layers IH]; intros st; [by intros [= <- _]|].
  change (for_each ?body () (layer :: layers))
    with (body () layer ≫= λ acc, for_each body acc layers).
  rewrite !run_bind.
  destruct (_download_blob _ _ _ st) as [st1 [n|e]] eqn:Hblob;
    apply download_blob_silent in Hblob as <-; [|by intros [= <- _]].
  cbv [mret M_ret]. cbv beta iota. by intros Hrest%IH.
Qed.

Lemma download_image_reports (download_location : string) (progress : bool)
    (expanded_refs : list string) (manifests manifests' : list ManifestEntry)
    (image : StaticSourceImage) (st st' : state) :
  download_image download_location progress expanded_refs manifests image st
  = (st', Ok manifests') →
  reported st'
  = reported st
    ++ (if progress && ref_in image expanded_refs
        then ["Downloading " +:+ default EmptyString (ref image)] else []).
Proof.
  unfold FlatpakStaticSource.download_image.
  destruct (ref_in image expanded_refs);
    [|intros [= <- _]; by rewrite andb_false_r, app_nil_r].
  rewrite andb_true_r.
  intros ([] & st1 & Hreport & Hrest)%bind_Ok.
  apply bind_Ok in Hrest as (len & st2 & Hmanifest%download_blob_silent & Hrest).
  apply bind_Ok in Hrest as (n & st3 & Hconfig%download_blob_silent & Hrest).
  apply bind_Ok in Hrest as ([] & st4 & Hlayers%layers_silent & [= <- _]).
  rewrite Hlayers, Hconfig, Hmanifest.
  destruct progress.
  - unfold report_progress, modify in Hreport. by injection Hreport as <-.
  - injection Hreport as <-. by rewrite app_nil_r.
Qed.

Lemma download_images_report (download_location : string) (progress : bool)
    (expanded_refs : list string) (images : list StaticSourceImage)
    (manifests manifests' : list ManifestEntry) (st st' : state) :
  for_each (download_image download_location progress expanded_refs) manifests images st
  = (st', Ok manifests') →
  reported st'
  = reported st
    ++ (if progress
        then (λ image, "Downloading " +:+ default EmptyString (ref image))
               <$> included expanded_refs images
        else []).
Proof.
  revert manifests st. induction images as [|image images IH]; intros manifests st.
  - intros [= <- _]. destruct progress; by rewrite app_nil_r.
  - intros (mid & st1 & Hfirst%download_image_reports & Hrest%IH)%bind_Ok.
    rewrite Hrest, Hfirst, <- app_assoc. f_equal.
    destruct (ref_in image expanded_refs) eqn:Href.
    + rewrite (included_cons_in _ _ _ Href). by destruct progress.
    + rewrite (included_cons_out _ _ _ Href). by destruct progress.
Qed.

(** X27: one message for every image that is downloaded.  When
    [download] from a remote source returns, it has reported, after
    what was reported before and in the order of the catalog, one
    message for every image that the expansion of the references
    includes, and nothing else; without a progress reporter it has
    reported nothing. *)
Theorem download_reports (refs : list string) (download_location : string)
    (progress : bool) (st st' : state) (result : string) :
  _is_local st = false →
  download refs download_location progress st = (st', Ok result) →
  ∃ st1 images expanded,
    _images st = (st1, Ok images)
    ∧ FlatpakSource._expand_refs get_arch application_runtime images refs = Ok expanded
    ∧ reported st'
      = reported st
        ++ (if progress
            then (λ image, "Downloading " +:+ default EmptyString (ref image))
                   <$> included expanded images
            else []).
Proof.
  intros Hremote. unfold FlatpakStaticSource.download. rewrite run_bind.
  change (get_state st) with (st, Ok st). cbv beta iota zeta. rewrite Hremote.
  intros (expanded & st1 & Hexp & Hrest)%bind_Ok.
  apply (expand_refs_Ok get_arch application_runtime) in Hexp as (images & Himages & Hexp).
  apply bind_Ok in Hrest as (images' & st2 & Himages' & Hrest).
  rewrite (images_cached _ _ _ _ _ _ _ Himages) in Himages'.
  injection Himages' as <- <-.
  apply bind_Ok in Hrest as (manifests & st3 & Hloop%download_images_report & Hrest).
  apply bind_Ok in Hrest as ([] & st4 & Hdirs & Hrest).
  apply bind_Ok in Hrest as ([] & st5 & Hindex & Hrest).
  apply bind_Ok in Hrest as ([] & st6 & Hlayout & [= <- _]).
  unfold makedirs, modify in Hdirs. injection Hdirs as <-.
  unfold write_file, modify in Hindex, Hlayout.
  injection Hindex as <-. injection Hlayout as <-.
  exists st1, images, expanded. split_and!; [done..|]. simpl. rewrite Hloop.
  f_equal.
  assert (quiet st st1) as (_ & _ & Hquiet); [|by rewrite Hquiet].
  apply (kept_by_images downloader index_manifests manifest_document config_document
           quiet) with (r := Ok images); [by intros..|done].
Qed.

End DownloadFurther.

Lemma download_reports_witness :
  let st := FlatpakStaticSource.init example_url in
  let st' := (example_download example_url ["app/org.example.Foo//stable"] "/tmp/dl"
                true st).1 in
  ∃ st1 images expanded,
    example_images example_url st = (st1, Ok images)
    ∧ FlatpakSource._expand_refs "x86_64" ConfigParser.application_runtime images
        ["app/org.example.Foo//stable"] = Ok expanded
    ∧ FlatpakStaticSource.reported st'
      = FlatpakStaticSource.reported st
        ++ ((λ image, "Downloading " +:+ default EmptyString (ref image))
              <$> included expanded images).
Proof.
  intros st st'.
  apply (download_reports "x86_64" ConfigParser.application_runtime
           (example_downloader example_url) example_index example_manifest
           example_config ["app/org.example.Foo//stable"] "/tmp/dl" true st st'
           ("oci:" +:+ Py.path_join "/tmp/dl" "Flatpaks")).
  - vm_compute. reflexivity.
  - vm_compute. reflexivity.
Defined.
